(** * E-commerce scripts: data generator, SQLite ingestion, reconciliation
      and monthly sales trend / forecast queries.

    Shallow embedding of the Python scripts and of the SQL they run.

    Modelling conventions.
    - Python [float] and SQLite REAL values are idealised as exact rationals
      ([Q]); sums and averages are compared with [Qeq] ([==]).
    - SQL NULL is [None]; a comparison involving NULL is unknown and a CASE
      WHEN on it falls through to the next branch.
    - A table with an INTEGER PRIMARY KEY is a finite map from the key to the
      remaining columns ([gmap Z row]).
    - A DATE column holds the calendar date whose ISO text
      ([isoformat]) the ingestion script stores.
    - Text is a byte string ([string]). *)

From Stdlib Require Import QArith Qround Qabs Lqa Ascii String.
From stdpp Require Import gmap strings list sorting.

Local Open Scope Z_scope.

(** ** Numbers *)

(** SQLite [ROUND(x, 2)]: to the nearest hundredth, halves away from zero. *)
Definition sql_round2 (x : Q) : Q :=
  let n := Qfloor (Qabs x * 100 + (1 # 2))%Q in
  Qmake (if Qle_bool 0 x then n else - n) 100.

(** Python [round(x, 2)]: to the nearest hundredth, halves to even. *)
Definition py_round2 (x : Q) : Q :=
  let n := Qfloor (x * 100)%Q in
  let r := (x * 100 - inject_Z n)%Q in
  match (r ?= 1 # 2)%Q with
  | Lt => Qmake n 100
  | Gt => Qmake (n + 1) 100
  | Eq => Qmake (if Z.even n then n else n + 1) 100
  end.

(** [sum(xs)] over rationals, accumulated left to right from 0. *)
Definition Qsum (xs : list Q) : Q := foldl Qplus 0%Q xs.

(** ** Calendar dates (Python [datetime.date]) *)

Record date := Date { d_year : Z; d_month : Z; d_day : Z }.

Global Instance date_eq_dec : EqDecision date.
Proof. solve_decision. Defined.

Definition is_leap (y : Z) : bool :=
  (y mod 4 =? 0) && (negb (y mod 100 =? 0) || (y mod 400 =? 0)).

Definition days_in_month (y m : Z) : Z :=
  if m =? 2 then (if is_leap y then 29 else 28)
  else if (m =? 4) || (m =? 6) || (m =? 9) || (m =? 11) then 30
  else 31.

(** The checks of the [date(year, month, day)] constructor. *)
Definition valid_date (d : date) : bool :=
  (1 <=? d_year d) && (d_year d <=? 9999) &&
  (1 <=? d_month d) && (d_month d <=? 12) &&
  (1 <=? d_day d) && (d_day d <=? days_in_month (d_year d) (d_month d)).

Definition days_before_year (y : Z) : Z :=
  let p := y - 1 in p * 365 + p / 4 - p / 100 + p / 400.

Fixpoint days_before_month_nat (y : Z) (m : nat) : Z :=
  match m with
  | O => 0
  | S k => days_before_month_nat y k + days_in_month y (Z.of_nat (S k))
  end.

Definition days_before_month (y m : Z) : Z :=
  days_before_month_nat y (Z.to_nat (m - 1)).

(** [date.toordinal()]: 0001-01-01 is day 1. *)
Definition toordinal (d : date) : Z :=
  days_before_year (d_year d) + days_before_month (d_year d) (d_month d) + d_day d.

(** The month and day of the [n]-th day (from 0) of year [y]. *)
Fixpoint month_day_from (y : Z) (fuel : nat) (m : Z) (n : Z) : Z * Z :=
  match fuel with
  | O => (m, n + 1)
  | S k =>
      let dim := days_in_month y m in
      if n <? dim then (m, n + 1) else month_day_from y k (m + 1) (n - dim)
  end.

(** [date.fromordinal(n)], following the 400/100/4/1-year cycle
    decomposition of the standard library. *)
Definition fromordinal (n : Z) : date :=
  let n0 := n - 1 in
  let n400 := n0 / 146097 in
  let r400 := n0 mod 146097 in
  let n100 := r400 / 36524 in
  let r100 := r400 mod 36524 in
  let n4 := r100 / 1461 in
  let r4 := r100 mod 1461 in
  let n1 := r4 / 365 in
  let r1 := r4 mod 365 in
  let y := n400 * 400 + 1 + n100 * 100 + n4 * 4 + n1 in
  if (n1 =? 4) || (n100 =? 4) then Date (y - 1) 12 31
  else
    let '(m, d) := month_day_from y 11 1 r1 in
    Date y m d.

(** [d + timedelta(days=k)]. *)
Definition add_days (d : date) (k : Z) : date := fromordinal (toordinal d + k).

(** Comparison of dates ([d1 > d2] and friends). *)
Definition date_leb (d1 d2 : date) : bool := toordinal d1 <=? toordinal d2.

(** ** Text rendering and parsing of dates *)

Definition digit_char (n : Z) : ascii :=
  ascii_of_nat (48 + Z.to_nat (n mod 10)).

Definition pad2 (n : Z) : string :=
  String (digit_char (n / 10)) (String (digit_char n) EmptyString).

Definition pad4 (n : Z) : string :=
  String (digit_char (n / 1000)) (String (digit_char (n / 100)) (pad2 n)).

(** [d.strftime('%m/%d/%Y')]. *)
Definition strftime_mdY (d : date) : string :=
  pad2 (d_month d) +:+ "/" +:+ pad2 (d_day d) +:+ "/" +:+ pad4 (d_year d).

(** [d.isoformat()], also what SQLite's [strftime('%Y-%m-%d', d)] yields. *)
Definition isoformat (d : date) : string :=
  pad4 (d_year d) +:+ "-" +:+ pad2 (d_month d) +:+ "-" +:+ pad2 (d_day d).

(** SQLite [strftime('%Y', d)], [strftime('%Y-%m', d)] and
    [CAST(strftime('%m', d) AS INTEGER)]. *)
Definition strftime_Y (d : date) : string := pad4 (d_year d).
Definition strftime_Ym (d : date) : string :=
  pad4 (d_year d) +:+ "-" +:+ pad2 (d_month d).
Definition month_num_of (d : date) : Z := d_month d.

Definition digit_val (c : ascii) : option Z :=
  let n := Z.of_nat (nat_of_ascii c) in
  if (48 <=? n) && (n <=? 57) then Some (n - 48) else None.

Definition is_digit (c : ascii) : bool :=
  match digit_val c with Some _ => true | None => false end.

(** Split at every occurrence of the separator. *)
Fixpoint split_on (sep : ascii) (s : string) : list string :=
  match s with
  | EmptyString => [EmptyString]
  | String c s' =>
      if Ascii.eqb c sep then EmptyString :: split_on sep s'
      else match split_on sep s' with
           | [] => [String c EmptyString]
           | t :: ts => String c t :: ts
           end
  end.

(** The directive [%m]: the pattern [1[0-2]|0[1-9]|[1-9]]. *)
Definition parse_m (t : string) : option Z :=
  match t with
  | String a EmptyString =>
      match digit_val a with
      | Some x => if 1 <=? x then Some x else None
      | None => None
      end
  | String a (String b EmptyString) =>
      match digit_val a, digit_val b with
      | Some 0, Some y => if 1 <=? y then Some y else None
      | Some 1, Some y => if y <=? 2 then Some (10 + y) else None
      | _, _ => None
      end
  | _ => None
  end.

(** The directive [%d]: the pattern [3[01]|[12]\d|0[1-9]|[1-9]| [1-9]]. *)
Definition parse_d (t : string) : option Z :=
  match t with
  | String a EmptyString =>
      match digit_val a with
      | Some x => if 1 <=? x then Some x else None
      | None => None
      end
  | String a (String b EmptyString) =>
      if Ascii.eqb a " " then
        match digit_val b with
        | Some y => if 1 <=? y then Some y else None
        | None => None
        end
      else
        match digit_val a, digit_val b with
        | Some 0, Some y => if 1 <=? y then Some y else None
        | Some 1, Some y => Some (10 + y)
        | Some 2, Some y => Some (20 + y)
        | Some 3, Some y => if y <=? 1 then Some (30 + y) else None
        | _, _ => None
        end
  | _ => None
  end.

(** The directive [%Y]: exactly four digits. *)
Definition parse_Y (t : string) : option Z :=
  match t with
  | String a (String b (String c (String d EmptyString))) =>
      match digit_val a, digit_val b, digit_val c, digit_val d with
      | Some w, Some x, Some y, Some z => Some (w * 1000 + x * 100 + y * 10 + z)
      | _, _, _, _ => None
      end
  | _ => None
  end.

Definition make_date (y m d : Z) : option date :=
  let r := Date y m d in if valid_date r then Some r else None.

(** [datetime.strptime(s, '%m/%d/%Y').date()]; [None] stands for the
    ValueError raised when the text does not match the format or does not
    name a date. *)
Definition strptime_mdY (s : string) : option date :=
  match split_on "/" s with
  | [tm; td; ty] =>
      match parse_m tm, parse_d td, parse_Y ty with
      | Some m, Some d, Some y => make_date y m d
      | _, _, _ => None
      end
  | _ => None
  end.

(** [datetime.strptime(s, '%Y-%m-%d').date()]. *)
Definition strptime_Ymd (s : string) : option date :=
  match split_on "-" s with
  | [ty; tm; td] =>
      match parse_Y ty, parse_m tm, parse_d td with
      | Some y, Some m, Some d => make_date y m d
      | _, _, _ => None
      end
  | _ => None
  end.

Example strptime_mdY_ex : strptime_mdY "03/07/2006" = Some (Date 2006 3 7).
Proof. reflexivity. Qed.
Example strptime_Ymd_ex : strptime_Ymd "2007-12-31" = Some (Date 2007 12 31).
Proof. reflexivity. Qed.
Example strptime_bad_day : strptime_mdY "02/30/2006" = None.
Proof. reflexivity. Qed.
Example ordinal_ex : toordinal (Date 2006 1 1) = 732312
  /\ fromordinal 732312 = Date 2006 1 1 /\ fromordinal 733041 = Date 2007 12 31.
Proof. vm_compute. auto. Qed.
Example round_ex : sql_round2 (2675 # 1000) = (268 # 100)%Q
  /\ py_round2 (125 # 1000) = (12 # 100)%Q /\ sql_round2 (- (125 # 1000)) = (-13 # 100)%Q.
Proof. vm_compute. auto. Qed.

(** ** The database: five tables keyed by their INTEGER PRIMARY KEY *)

(** Columns declared NOT NULL hold a value; the others may hold NULL. *)
Record customer := Customer {
  customer_name : string; email : string;
  phone_number : option string; city : option string; country : option string }.
Record product := Product {
  product_name : string; category : option string; product_price : Q }.
Record order := Order {
  customer_id : Z; order_date : date; status : option string }.
Record order_item := OrderItem {
  oi_order_id : Z; oi_product_id : Z; quantity : Z; price : Q }.
Record payment := Payment {
  amount : Q; p_order_id : Z; payment_method : option string; payment_date : date }.

Record Db := MkDb {
  customers : gmap Z customer;
  products : gmap Z product;
  orders : gmap Z order;
  order_items : gmap Z order_item;
  payments : gmap Z payment }.

Definition empty_db : Db := MkDb ∅ ∅ ∅ ∅ ∅.

Definition upsert_customer (k : Z) (r : customer) (db : Db) : Db :=
  MkDb (<[k := r]> (customers db)) (products db) (orders db) (order_items db) (payments db).
Definition upsert_product (k : Z) (r : product) (db : Db) : Db :=
  MkDb (customers db) (<[k := r]> (products db)) (orders db) (order_items db) (payments db).
Definition upsert_order (k : Z) (r : order) (db : Db) : Db :=
  MkDb (customers db) (products db) (<[k := r]> (orders db)) (order_items db) (payments db).
Definition upsert_order_item (k : Z) (r : order_item) (db : Db) : Db :=
  MkDb (customers db) (products db) (orders db) (<[k := r]> (order_items db)) (payments db).
Definition upsert_payment (k : Z) (r : payment) (db : Db) : Db :=
  MkDb (customers db) (products db) (orders db) (order_items db) (<[k := r]> (payments db)).

(** ** Exceptions *)

Inductive exn :=
  | KeyError | ValueError | TypeError | IndexError | IntegrityError | OverflowError.

Inductive result (A : Type) : Type :=
  | Ok (a : A)
  | Raise (e : exn).
Arguments Ok {A} a.
Arguments Raise {A} e.

Global Instance result_ret : MRet result := fun _ a => Ok a.
Global Instance result_bind : MBind result := fun _ _ f m =>
  match m with Ok a => f a | Raise e => Raise e end.

(** A [for] loop that builds a list, stopping at the first exception. *)
Fixpoint for_each {A B} (f : A -> result B) (l : list A) : result (list B) :=
  match l with
  | [] => Ok []
  | x :: l' => y ← f x; ys ← for_each f l'; Ok (y :: ys)
  end.

(** A loop threading a state, stopping at the first exception. *)
Fixpoint fold_result {A S} (f : S -> A -> result S) (s : S) (l : list A) : result S :=
  match l with
  | [] => Ok s
  | x :: l' => s' ← f s x; fold_result f s' l'
  end.

(** ** ingest_to_sqlite.py *)

(** A row of [csv.DictReader]: column name to field; a field a short line
    lacks is [None]. *)
Abbreviation csv_row := (gmap string (option string)).

Record csv_files := CsvFiles {
  customers_csv : list csv_row;
  products_csv : list csv_row;
  orders_csv : list csv_row;
  order_items_csv : list csv_row;
  payments_csv : list csv_row }.

(** [row[k]]. *)
Definition getitem (row : csv_row) (k : string) : result (option string) :=
  match row !! k with
  | Some v => Ok v
  | None => Raise KeyError
  end.

(** The try/except around the two [strptime] calls. *)
Definition parse_date (c : option string) : result date :=
  match c with
  | None => Raise TypeError
  | Some s =>
      match strptime_mdY s with
      | Some d => Ok d
      | None =>
          match strptime_Ymd s with
          | Some d => Ok d
          | None => Raise ValueError
          end
      end
  end.

(** A Python [int] bound to a statement parameter must fit 64 bits. *)
Definition bind_int (z : Z) : result Z :=
  if (- 2 ^ 63 <=? z) && (z <? 2 ^ 63) then Ok z else Raise OverflowError.

(** A NOT NULL column refuses NULL. *)
Definition not_null {A} (c : option A) : result A :=
  match c with
  | Some s => Ok s
  | None => Raise IntegrityError
  end.

Section Ingest.
(** [int(s)] and [float(s)] of the Python runtime on text; [None] is the
    ValueError they raise. *)
Variable py_int : string -> option Z.
Variable py_float : string -> option Q.

Definition int_of (c : option string) : result Z :=
  match c with
  | None => Raise TypeError
  | Some s => match py_int s with Some z => Ok z | None => Raise ValueError end
  end.

Definition float_of (c : option string) : result Q :=
  match c with
  | None => Raise TypeError
  | Some s => match py_float s with Some q => Ok q | None => Raise ValueError end
  end.

(** The tuples appended to [customers_data], ..., [payments_data]. *)
Definition customer_tuple (row : csv_row)
  : result (Z * option string * option string * option string * option string * option string) :=
  c ← getitem row "customer_id"; cid ← int_of c;
  name ← getitem row "customer_name";
  em ← getitem row "email";
  ph ← getitem row "phone number";
  ci ← getitem row "city";
  co ← getitem row "country";
  Ok (cid, name, em, ph, ci, co).

Definition product_tuple (row : csv_row)
  : result (Z * option string * option string * Q) :=
  c ← getitem row "product_id"; pid ← int_of c;
  name ← getitem row "product_name";
  cat ← getitem row "category";
  c ← getitem row "price"; pr ← float_of c;
  Ok (pid, name, cat, pr).

Definition order_tuple (row : csv_row)
  : result (Z * Z * date * option string) :=
  order_date_str ← getitem row "order_date";
  od ← parse_date order_date_str;
  c ← getitem row "order_id"; oid ← int_of c;
  c ← getitem row "customer_id"; cid ← int_of c;
  st ← getitem row "status";
  Ok (oid, cid, od, st).

Definition order_item_tuple (row : csv_row)
  : result (Z * Z * Z * Z * Q) :=
  c ← getitem row "item_id"; iid ← int_of c;
  c ← getitem row "order_id"; oid ← int_of c;
  c ← getitem row "product_id"; pid ← int_of c;
  c ← getitem row "quantity"; q ← int_of c;
  c ← getitem row "price"; pr ← float_of c;
  Ok (iid, oid, pid, q, pr).

Definition payment_tuple (row : csv_row)
  : result (Z * Q * Z * option string * date) :=
  payment_date_str ← getitem row "payment_date";
  pd ← parse_date payment_date_str;
  c ← getitem row "payment_id"; pid ← int_of c;
  c ← getitem row "amount"; am ← float_of c;
  c ← getitem row "order_id"; oid ← int_of c;
  pm ← getitem row "payment_method";
  Ok (pid, am, oid, pm, pd).

(** Binding the parameters of one INSERT OR REPLACE and checking the
    NOT NULL columns: the key and the row to store. *)
Definition customer_values
    (t : Z * option string * option string * option string * option string * option string)
  : result (Z * customer) :=
  let '(cid, name, em, ph, ci, co) := t in
  k ← bind_int cid; name ← not_null name; em ← not_null em;
  Ok (k, Customer name em ph ci co).

Definition product_values (t : Z * option string * option string * Q)
  : result (Z * product) :=
  let '(pid, name, cat, pr) := t in
  k ← bind_int pid; name ← not_null name;
  Ok (k, Product name cat pr).

Definition order_values (t : Z * Z * date * option string)
  : result (Z * order) :=
  let '(oid, cid, od, st) := t in
  k ← bind_int oid; cid ← bind_int cid;
  Ok (k, Order cid od st).

Definition order_item_values (t : Z * Z * Z * Z * Q)
  : result (Z * order_item) :=
  let '(iid, oid, pid, q, pr) := t in
  k ← bind_int iid; oid ← bind_int oid; pid ← bind_int pid; q ← bind_int q;
  Ok (k, OrderItem oid pid q pr).

Definition payment_values (t : Z * Q * Z * option string * date)
  : result (Z * payment) :=
  let '(pid, am, oid, pm, pd) := t in
  k ← bind_int pid; oid ← bind_int oid;
  Ok (k, Payment am oid pm pd).

(** [cursor.executemany('INSERT OR REPLACE INTO t ...', data)]: one
    upsert per tuple, in order. *)
Definition executemany {T R} (values : T -> result (Z * R))
    (upsert : Z -> R -> Db -> Db) (data : list T) (db : Db) : result Db :=
  fold_result (fun db t => kv ← values t; Ok (upsert kv.1 kv.2 db)) db data.

(** The script up to and including [conn.commit()].  CREATE TABLE IF NOT
    EXISTS leaves the rows of an existing table alone. *)
Definition ingest (files : csv_files) (db : Db) : result Db :=
  customers_data ← for_each customer_tuple (customers_csv files);
  db ← executemany customer_values upsert_customer customers_data db;
  products_data ← for_each product_tuple (products_csv files);
  db ← executemany product_values upsert_product products_data db;
  orders_data ← for_each order_tuple (orders_csv files);
  db ← executemany order_values upsert_order orders_data db;
  order_items_data ← for_each order_item_tuple (order_items_csv files);
  db ← executemany order_item_values upsert_order_item order_items_data db;
  payments_data ← for_each payment_tuple (payments_csv files);
  db ← executemany payment_values upsert_payment payments_data db;
  Ok db.

(** The database file after the script has run: the committed state, or
    the state before the run when an exception ended the script before
    [conn.commit()]. *)
Definition run_ingest (files : csv_files) (db : Db) : Db :=
  match ingest files db with
  | Ok db' => db'
  | Raise _ => db
  end.
End Ingest.

(** ** The monthly revenue query shared by the sales forecast scripts *)

Definition Qgtb (x y : Q) : bool := negb (Qle_bool x y).
Definition Qltb (x y : Q) : bool := negb (Qle_bool y x).

(** [COALESCE(x, d)]. *)
Definition coalesce {A} (x : option A) (d : A) : A := default d x.

(** [FROM orders o INNER JOIN order_items oi ON o.order_id = oi.order_id]. *)
Definition orders_join_items (db : Db) : list ((Z * order) * (Z * order_item)) :=
  o ← map_to_list (orders db);
  oi ← filter (fun oi => oi_order_id oi.2 = o.1) (map_to_list (order_items db));
  [(o, oi)].

(** [oi.quantity * oi.price]. *)
Definition line_total (oi : order_item) : Q := (inject_Z (quantity oi) * price oi)%Q.

(** [strftime('%Y-%m', o.order_date)] of a joined row. *)
Definition row_month (r : (Z * order) * (Z * order_item)) : string :=
  strftime_Ym (order_date r.1.2).

(** A row of the CTE [monthly_revenue].  [year] is the TEXT that
    [strftime('%Y', ...)] yields, [month_num] the INTEGER of the CAST. *)
Record mrow := MRow {
  month : string; year : string; month_num : Z;
  total_revenue : Q; order_count : Z }.

(** One group of [GROUP BY strftime('%Y-%m', o.order_date)]: the bare
    columns [year] and [month_num] come from a row of the group. *)
Definition group_row (m : string) (g : list ((Z * order) * (Z * order_item))) : mrow :=
  {| month := m;
     year := from_option (fun r => strftime_Y (order_date r.1.2)) EmptyString (head g);
     month_num := from_option (fun r => month_num_of (order_date r.1.2)) 0 (head g);
     total_revenue := Qsum (fmap (fun r => line_total r.2.2) g);
     order_count := Z.of_nat (length (remove_dups (fmap (fun r => r.1.1) g))) |}.

Definition monthly_revenue (db : Db) : list mrow :=
  let j := orders_join_items db in
  fmap (fun m => group_row m (filter (fun r => row_month r = m) j))
      (remove_dups (fmap row_month j)).

(** [ORDER BY year, month_num]: text order on [year], then integer order. *)
Definition mrow_le (a b : mrow) : Prop :=
  String.le (year a) (year b) /\ (year a = year b -> month_num a <= month_num b).

Global Instance mrow_le_dec : RelDecision mrow_le.
Proof. intros a b. unfold mrow_le. apply _. Defined.

(** The rows of [monthly_revenue] in the order [ORDER BY year, month_num]. *)
Definition months_in_order (db : Db) : list mrow :=
  merge_sort mrow_le (monthly_revenue db).

Inductive trend_label := Growing | Declining | Stable | NotAvailable.

(** The columns the trend queries have in common: month, monthly_revenue,
    order_count, previous_month_revenue, revenue_change, percent_change,
    trend. *)
Record trend_row := TrendRow {
  tr_month : string;
  tr_monthly_revenue : Q;
  tr_order_count : Z;
  tr_previous_month_revenue : Q;
  tr_revenue_change : Q;
  tr_percent_change : Q;
  tr_trend : trend_label }.

(** [AVG] of a non-empty column; NULL on no rows. *)
Definition sql_avg (xs : list Q) : option Q :=
  match xs with
  | [] => None
  | _ => Some (Qsum xs / inject_Z (Z.of_nat (length xs)))%Q
  end.

(** [MAX] of a column; NULL on no rows. *)
Definition sql_max (xs : list Q) : option Q :=
  match xs with
  | [] => None
  | x :: xs' => Some (foldl (fun a b => if Qle_bool a b then b else a) x xs')
  end.

(** ** run_sales_forecast_simple.py: window-function queries *)
Module Simple.

(** [LAG(total_revenue) OVER (ORDER BY year, month_num)] next to each
    row of the ordered input. *)
Fixpoint lag (prev : option Q) (l : list mrow) : list (mrow * option Q) :=
  match l with
  | [] => []
  | r :: l' => (r, prev) :: lag (Some (total_revenue r)) l'
  end.

Definition monthly_with_previous (db : Db) : list (mrow * option Q) :=
  lag None (months_in_order db).

(** [total_revenue - COALESCE(previous_month_revenue, 0)]. *)
Definition revenue_change (r : mrow * option Q) : Q :=
  (total_revenue r.1 - coalesce r.2 0)%Q.

(** The CASE giving [percent_change] in [monthly_trends]. *)
Definition percent_change (r : mrow * option Q) : option Q :=
  match r.2 with
  | Some p =>
      if Qgtb p 0
      then Some (sql_round2 ((total_revenue r.1 - p) * 100 / p))
      else None
  | None => None
  end.

(** [ROUND(AVG(revenue_change) OVER (... ROWS BETWEEN UNBOUNDED
    PRECEDING AND CURRENT ROW), 2)] for the row at position [i]. *)
Definition avg_monthly_change (rows : list (mrow * option Q)) (i : nat) : option Q :=
  sql_round2 <$> sql_avg (fmap revenue_change (take (S i) rows)).

(** The CASE giving [trend]. *)
Definition trend (change : Q) : trend_label :=
  if Qgtb change 0 then Growing
  else if Qltb change 0 then Declining
  else if Qeq_bool change 0 then Stable
  else NotAvailable.

(** The final SELECT of [query]: the columns it has in common with the
    self-join query, and [forecast_next_month]. *)
Definition common_columns (r : mrow * option Q) : trend_row :=
  {| tr_month := month r.1;
     tr_monthly_revenue := sql_round2 (total_revenue r.1);
     tr_order_count := order_count r.1;
     tr_previous_month_revenue := sql_round2 (coalesce r.2 0%Q);
     tr_revenue_change := sql_round2 (coalesce (Some (revenue_change r)) 0%Q);
     tr_percent_change := coalesce (percent_change r) 0%Q;
     tr_trend := trend (revenue_change r) |}.

Definition forecast_next_month (rows : list (mrow * option Q)) (i : nat)
    (r : mrow * option Q) : Q :=
  sql_round2 (total_revenue r.1 + coalesce (avg_monthly_change rows i) 0%Q).

(** The rows come out of the window in the order of the final ORDER BY
    year, month_num. *)
Definition query (db : Db) : list (trend_row * Q) :=
  let rows := monthly_with_previous db in
  imap (fun i r => (common_columns r, forecast_next_month rows i r)) rows.

(** The differences [total_revenue - LAG(total_revenue)] of
    [trend_calc]; the first row's is NULL and AVG skips it. *)
Fixpoint growth (l : list mrow) : list Q :=
  match l with
  | a :: (b :: _) as l' => (total_revenue b - total_revenue a)%Q :: growth l'
  | _ => []
  end.

(** [forecast_query], read as relational algebra: [trend_calc] is one
    row holding AVG of the differences and MAX(total_revenue) under the
    name [last_month_revenue]; the three forecast rows follow.  (SQLite
    itself refuses a window function as the argument of an aggregate, so
    on it the statement stops with an OperationalError.) *)
Definition avg_growth_rate (db : Db) : option Q :=
  sql_avg (growth (months_in_order db)).

Definition last_month_revenue (db : Db) : option Q :=
  sql_max (fmap total_revenue (monthly_revenue db)).

Definition forecasted_revenue (db : Db) (k : Z) : option Q :=
  last ← last_month_revenue db;
  avg ← avg_growth_rate db;
  Some (sql_round2 (last + avg * inject_Z k)%Q).

Definition forecast_query (db : Db) : list (string * option Q) :=
  [("Forecast Month 1", forecasted_revenue db 1);
   ("Forecast Month 2", forecasted_revenue db 2);
   ("Forecast Month 3", forecasted_revenue db 3)].
End Simple.

(** ** run_sales_forecast_compatible.py: self-join queries *)

(** A value together with its storage class. *)
Inductive sqlval := SInteger (n : Z) | SText (s : string).

(** [a = b] where neither side has a column affinity (both are expressions
    or columns of a subquery built from expressions): values of different
    storage classes are never equal. *)
Definition sql_eqb (a b : sqlval) : bool :=
  match a, b with
  | SInteger x, SInteger y => x =? y
  | SText s, SText t => String.eqb s t
  | _, _ => false
  end.

(** The number a TEXT value is read as in arithmetic: its digit prefix. *)
Fixpoint digits_prefix (acc : Z) (s : string) : Z :=
  match s with
  | String c s' =>
      match digit_val c with
      | Some d => digits_prefix (acc * 10 + d) s'
      | None => acc
      end
  | EmptyString => acc
  end.

(** [a - b] on storage values: an INTEGER. *)
Definition sql_minus (a : sqlval) (b : Z) : sqlval :=
  match a with
  | SInteger x => SInteger (x - b)
  | SText s => SInteger (digits_prefix 0 s - b)
  end.

Module Compatible.

(** The ON clause of [monthly_revenue m1 LEFT JOIN monthly_revenue m2]. *)
Definition join_on (m1 m2 : mrow) : bool :=
  (sql_eqb (SText (year m2)) (SText (year m1)) &&
   sql_eqb (SInteger (month_num m2)) (sql_minus (SInteger (month_num m1)) 1))
  || (sql_eqb (SText (year m2)) (sql_minus (SText (year m1)) 1) &&
      sql_eqb (SInteger (month_num m1)) (SInteger 1) &&
      sql_eqb (SInteger (month_num m2)) (SInteger 12)).

(** [l LEFT JOIN r ON on]. *)
Definition left_join {A B} (on : A -> B -> bool) (l : list A) (r : list B)
  : list (A * option B) :=
  a ← l;
  match filter (on a) r with
  | [] => [(a, None)]
  | bs => (fun b => (a, Some b)) <$> bs
  end.

(** [ORDER BY m1.year, m1.month_num] on the joined rows. *)
Definition joined_le (a b : mrow * option mrow) : Prop := mrow_le a.1 b.1.

Global Instance joined_le_dec : RelDecision joined_le.
Proof. intros a b. unfold joined_le. apply _. Defined.

Definition joined (db : Db) : list (mrow * option mrow) :=
  merge_sort joined_le (left_join join_on (monthly_revenue db) (monthly_revenue db)).

(** The CASE giving [percent_change]. *)
Definition percent_change (r : mrow * option mrow) : Q :=
  match r.2 with
  | Some m2 =>
      if Qgtb (total_revenue m2) 0
      then sql_round2 ((total_revenue r.1 - total_revenue m2) * 100 / total_revenue m2)
      else 0
  | None => 0
  end%Q.

(** [m1.total_revenue - COALESCE(m2.total_revenue, 0)]. *)
Definition change (r : mrow * option mrow) : Q :=
  (total_revenue r.1 - coalesce (total_revenue <$> r.2) 0)%Q.

(** The CASE giving [trend]. *)
Definition trend (r : mrow * option mrow) : trend_label :=
  if Qgtb (change r) 0 then Growing
  else if Qltb (change r) 0 then Declining
  else Stable.

(** The SELECT list of [query]. *)
Definition select_row (r : mrow * option mrow) : trend_row :=
  {| tr_month := month r.1;
     tr_monthly_revenue := sql_round2 (total_revenue r.1);
     tr_order_count := order_count r.1;
     tr_previous_month_revenue := sql_round2 (coalesce (total_revenue <$> r.2) 0%Q);
     tr_revenue_change := sql_round2 (change r);
     tr_percent_change := percent_change r;
     tr_trend := trend r |}.

Definition query (db : Db) : list trend_row := select_row <$> joined db.

(** The loop collecting [revenue_changes]: the changes that are not 0. *)
Definition revenue_changes (results : list trend_row) : list Q :=
  filter (fun c => negb (Qeq_bool c 0%Q)) (fmap tr_revenue_change results).

(** [sum(revenue_changes) / len(revenue_changes) if revenue_changes else 0]. *)
Definition avg_growth (results : list trend_row) : Q :=
  match revenue_changes results with
  | [] => 0
  | cs => Qsum cs / inject_Z (Z.of_nat (length cs))
  end%Q.

(** [results[-1][1] if results else 0]. *)
Definition last_month_revenue (results : list trend_row) : Q :=
  match last results with
  | Some r => tr_monthly_revenue r
  | None => 0%Q
  end.

End Compatible.

(** ** check_payment_amounts.py *)
Module Reconcile.

Inductive check := MATCH | MISMATCH.

Global Instance check_eq_dec : EqDecision check.
Proof. solve_decision. Defined.

(** The right side of a LEFT JOIN for one left row: the matching rows,
    or a single NULL row when there is none. *)
Definition or_null {A} (matches : list A) : list (option A) :=
  match matches with
  | [] => [None]
  | _ => Some <$> matches
  end.

Definition items_of (db : Db) (oid : Z) : list (Z * order_item) :=
  filter (fun oi => oi_order_id oi.2 = oid) (map_to_list (order_items db)).

Definition payments_of (db : Db) (oid : Z) : list (Z * payment) :=
  filter (fun p => p_order_id p.2 = oid) (map_to_list (payments db)).

(** [FROM orders o LEFT JOIN order_items oi ON o.order_id = oi.order_id
    LEFT JOIN payments p ON o.order_id = p.order_id]. *)
Definition jrow : Type := (Z * order) * option (Z * order_item) * option (Z * payment).

Definition joined (db : Db) : list jrow :=
  o ← map_to_list (orders db);
  oi ← or_null (items_of db o.1);
  p ← or_null (payments_of db o.1);
  [(o, oi, p)].

Definition j_order (r : jrow) : Z * order := r.1.1.
Definition j_item (r : jrow) : option (Z * order_item) := r.1.2.
Definition j_payment (r : jrow) : option (Z * payment) := r.2.

(** [p.amount] of a joined row. *)
Definition j_amount (r : jrow) : option Q := (fun p => amount p.2) <$> j_payment r.

(** Equality of two values of a grouping column: NULLs group together,
    REAL values by their numeric value. *)
Definition same_amount (a b : option Q) : bool :=
  match a, b with
  | None, None => true
  | Some x, Some y => Qeq_bool x y
  | _, _ => false
  end.

(** Two rows fall in the same group of [GROUP BY o.order_id,
    o.order_date, o.status, p.amount]; the order's date and status are
    determined by its id. *)
Definition same_group (r1 r2 : jrow) : bool :=
  ((j_order r1).1 =? (j_order r2).1) && same_amount (j_amount r1) (j_amount r2).

(** The first row of every class of [eqb], in order of appearance. *)
Fixpoint nub_by {A} (eqb : A -> A -> bool) (l : list A) : list A :=
  match l with
  | [] => []
  | x :: l' => x :: filter (fun y => negb (eqb x y)) (nub_by eqb l')
  end.

(** [SUM(x)] over a group: NULLs are skipped, and the sum of no value is
    NULL. *)
Definition sql_sum (xs : list (option Q)) : option Q :=
  match omap id xs with
  | [] => None
  | ys => Some (Qsum ys)
  end.

(** [SUM(oi.quantity * oi.price)] over the rows of a group. *)
Definition sum_items (g : list jrow) : option Q :=
  sql_sum (fmap (fun r => (fun oi => line_total oi.2) <$> j_item r) g).

(** [ABS(COALESCE(SUM(oi.quantity * oi.price), 0) - p.amount)]. *)
Definition abs_difference (total : Q) (a : option Q) : option Q :=
  (fun x => Qabs (total - x)) <$> a.

(** The CASE giving [status_check]: an unknown comparison takes ELSE. *)
Definition status_of (d : option Q) : check :=
  match d with
  | Some x => if Qltb x (1 # 100) then MATCH else MISMATCH
  | None => MISMATCH
  end.

Record recon_row := ReconRow {
  rr_order_id : Z;
  rr_order_date : date;
  rr_status : option string;
  order_total : Q;
  payment_amount : option Q;
  status_check : check;
  difference : option Q }.

(** The result row of the group of [rep]. *)
Definition group_result (js : list jrow) (rep : jrow) : recon_row :=
  let g := filter (same_group rep) js in
  let total := coalesce (sum_items g) 0%Q in
  {| rr_order_id := (j_order rep).1;
     rr_order_date := order_date (j_order rep).2;
     rr_status := status (j_order rep).2;
     order_total := total;
     payment_amount := j_amount rep;
     status_check := status_of (abs_difference total (j_amount rep));
     difference := abs_difference total (j_amount rep) |}.

(** [ORDER BY o.order_id]. *)
Definition by_order_id (a b : recon_row) : Prop := rr_order_id a <= rr_order_id b.

Global Instance by_order_id_dec : RelDecision by_order_id.
Proof. intros a b. unfold by_order_id. apply _. Defined.

Definition query (db : Db) : list recon_row :=
  let js := joined db in
  merge_sort by_order_id (fmap (group_result js) (nub_by same_group js)).

(** The statistics computed from [results]. *)
Definition total_orders (results : list recon_row) : Z := Z.of_nat (length results).
Definition matching (results : list recon_row) : Z :=
  Z.of_nat (length (filter (fun r => status_check r = MATCH) results)).
Definition mismatching (results : list recon_row) : Z :=
  total_orders results - matching results.

(** The rows printed under MISMATCHES DETAIL. *)
Definition mismatches (results : list recon_row) : list recon_row :=
  filter (fun r => status_check r = MISMATCH) results.

(** Orders without payments: the joined rows [WHERE p.payment_id IS
    NULL], [GROUP BY o.order_id], with the order total. *)
Definition no_payment (db : Db) : list (Z * Q) :=
  let js := filter (fun r => j_payment r = None) (joined db) in
  fmap (fun k =>
         (k, coalesce (sum_items (filter (fun r => (j_order r).1 = k) js)) 0%Q))
      (remove_dups (fmap (fun r => (j_order r).1) js)).

(** Payments without orders: [payments p LEFT JOIN orders o ON
    p.order_id = o.order_id WHERE o.order_id IS NULL]. *)
Definition orphan_payments (db : Db) : list (Z * Z * Q) :=
  r ← (p ← map_to_list (payments db);
       o ← or_null (filter (fun o : Z * order => p_order_id p.2 = o.1)
                      (map_to_list (orders db)));
       [(p, o)]);
  match r.2 with
  | None => [(r.1.1, p_order_id r.1.2, amount r.1.2)]
  | Some _ => []
  end.
End Reconcile.

(** ** generatedata.py *)
Module Generate.

Definition NUM_CUSTOMERS : Z := 100.
Definition NUM_PRODUCTS : Z := 50.
Definition NUM_ORDERS : Z := 200.
Definition MIN_ITEMS_PER_ORDER : Z := 1.
Definition MAX_ITEMS_PER_ORDER : Z := 5.
Definition PAYMENT_METHODS : list string :=
  ["UPI"; "Card"; "Wallet"; "Net Banking"; "Cash on Delivery"].
Definition ORDER_STATUSES : list string :=
  ["pending"; "processing"; "shipped"; "delivered"; "cancelled"].
Definition categories : list string :=
  ["Electronics"; "Clothing"; "Books"; "Home & Kitchen"; "Sports"; "Toys";
   "Beauty"; "Food"].
Definition start_date : date := Date 2006 1 1.
Definition end_date : date := Date 2007 12 31.

(** The sources of randomness ([random] and [Faker]): an arbitrary
    sequence of raw numbers and of texts, and the position reached. *)
Record rng := Rng { numbers : nat -> Z; texts : nat -> string; pos : nat }.

(** Computations that draw from the sources and may raise. *)
Definition M (A : Type) : Type := rng -> result (A * rng).

Global Instance M_ret : MRet M := fun _ a g => Ok (a, g).
Global Instance M_bind : MBind M := fun _ _ f m g =>
  match m g with
  | Ok (a, g') => f a g'
  | Raise e => Raise e
  end.

Definition raise {A} (e : exn) : M A := fun _ => Raise e.

Definition next_number : M Z := fun g =>
  Ok (numbers g (pos g), Rng (numbers g) (texts g) (S (pos g))).

(** A Faker provider ([fake.name()], [fake.city()], ...). *)
Definition fake_text : M string := fun g =>
  Ok (texts g (pos g), Rng (numbers g) (texts g) (S (pos g))).

(** [random.randint(a, b)]: an integer of [a..b]. *)
Definition randint (a b : Z) : M Z :=
  n ← next_number; mret (a + n mod (b - a + 1)).

(** [random.random()]: a number of [0, 1). *)
Definition random : M Q :=
  n ← next_number; mret (Qmake (n mod 2 ^ 53) (2 ^ 53)).

(** [random.uniform(a, b)]. *)
Definition uniform (a b : Q) : M Q :=
  u ← random; mret (a + (b - a) * u)%Q.

(** [random.choice(l)]. *)
Definition choice {A} (l : list A) : M A :=
  n ← next_number;
  match l !! Z.to_nat (n mod Z.of_nat (length l)) with
  | Some x => mret x
  | None => raise IndexError
  end.

(** [random.sample(pool, k)]: [k] elements at distinct positions. *)
Fixpoint sample (pool : list Z) (k : nat) : M (list Z) :=
  match k with
  | O => mret []
  | S k' =>
      n ← next_number;
      let i := Z.to_nat (n mod Z.of_nat (length pool)) in
      match pool !! i with
      | Some x => rest ← sample (delete i pool) k'; mret (x :: rest)
      | None => raise ValueError
      end
  end.

(** [fake.date_between(start_date, end_date)]. *)
Definition date_between (a b : date) : M date :=
  n ← randint (toordinal a) (toordinal b); mret (fromordinal n).

(** A [for] loop that appends one element per iteration. *)
Fixpoint for_list {A B} (f : A -> M B) (l : list A) : M (list B) :=
  match l with
  | [] => mret []
  | x :: l' => y ← f x; ys ← for_list f l'; mret (y :: ys)
  end.

(** A [for] loop updating the variables [s]. *)
Fixpoint fold_list {A S} (f : S -> A -> M S) (s : S) (l : list A) : M S :=
  match l with
  | [] => mret s
  | x :: l' => s' ← f s x; fold_list f s' l'
  end.

Record gen_customer := GenCustomer {
  gc_customer_id : Z; gc_customer_name : string; gc_email : string;
  gc_phone_number : string; gc_city : string; gc_country : string }.
Record gen_product := GenProduct {
  gp_product_id : Z; gp_product_name : string; gp_category : string; gp_price : Q }.
Record gen_order := GenOrder {
  go_order_id : Z; go_customer_id : Z; go_order_date : string; go_status : string }.
Record gen_item := GenItem {
  gi_item_id : Z; gi_order_id : Z; gi_product_id : Z; gi_quantity : Z; gi_price : Q }.
Record gen_payment := GenPayment {
  gy_payment_id : Z; gy_amount : Q; gy_order_id : Z;
  gy_payment_method : string; gy_payment_date : string }.

(** The rows written to the five CSV files. *)
Record dataset := Dataset {
  ds_customers : list gen_customer;
  ds_products : list gen_product;
  ds_orders : list gen_order;
  ds_order_items : list gen_item;
  ds_payments : list gen_payment }.

Definition gen_customers : M (list gen_customer) :=
  for_list (fun i =>
    country ← fake_text;
    name ← fake_text;
    em ← fake_text;
    phone ← fake_text;
    cty ← fake_text;
    mret (GenCustomer i name em phone cty country))
    (seqZ 1 NUM_CUSTOMERS).

Definition gen_products : M (list gen_product) :=
  for_list (fun i =>
    name ← fake_text;
    cat ← choice categories;
    u ← uniform 10 1000;
    mret (GenProduct i name cat (py_round2 u)))
    (seqZ 1 NUM_PRODUCTS).

Definition gen_orders : M (list gen_order) :=
  for_list (fun i =>
    od ← date_between start_date end_date;
    cid ← randint 1 NUM_CUSTOMERS;
    st ← choice ORDER_STATUSES;
    mret (GenOrder i cid (strftime_mdY od) st))
    (seqZ 1 NUM_ORDERS).

(** [{p['product_id']: p['price'] for p in products}]. *)
Definition product_prices (products : list gen_product) : gmap Z Q :=
  foldl (fun m p => <[gp_product_id p := gp_price p]> m) ∅ products.

(** The body of [for product_id in order_products], on the variables
    [order_items] and [item_id]. *)
Definition add_item (prices : gmap Z Q) (o : gen_order)
    (s : list gen_item * Z) (product_id : Z) : M (list gen_item * Z) :=
  qty ← randint 1 5;
  match prices !! product_id with
  | None => raise KeyError
  | Some base_price =>
      u ← uniform (9 # 10) (11 # 10);
      let price_at_order := py_round2 (base_price * u) in
      mret (s.1 ++ [GenItem s.2 (go_order_id o) product_id qty price_at_order],
            s.2 + 1)
  end.

(** The body of [for order in orders] of the order items. *)
Definition add_order_items (prices : gmap Z Q)
    (s : list gen_item * Z) (o : gen_order) : M (list gen_item * Z) :=
  num_items ← randint MIN_ITEMS_PER_ORDER MAX_ITEMS_PER_ORDER;
  order_products ← sample (seqZ 1 NUM_PRODUCTS)
                      (Z.to_nat (Z.min num_items NUM_PRODUCTS));
  fold_list (add_item prices o) s order_products.

Definition gen_order_items (products : list gen_product) (orders : list gen_order)
  : M (list gen_item) :=
  s ← fold_list (add_order_items (product_prices products)) ([], 1) orders;
  mret s.1.

(** [order_totals]: the running total per order id. *)
Definition order_totals (items : list gen_item) : gmap Z Q :=
  foldl (fun m item =>
           let total := (inject_Z (gi_quantity item) * gi_price item)%Q in
           <[gi_order_id item := (default 0%Q (m !! gi_order_id item) + total)%Q]> m)
        ∅ items.

(** The body of [for order in orders] of the payments, on the variables
    [payments] and [payment_id].  The default of [order_totals.get] is
    evaluated on every iteration. *)
Definition add_payment (totals : gmap Z Q)
    (s : list gen_payment * Z) (o : gen_order) : M (list gen_payment * Z) :=
  dflt ← uniform 50 500;
  let amount := py_round2 (default dflt (totals !! go_order_id o)) in
  match strptime_mdY (go_order_date o) with
  | None => raise ValueError
  | Some od =>
      days_after_order ← randint 0 7;
      let pd := add_days od days_after_order in
      let pd := if negb (date_leb pd end_date) then end_date else pd in
      pm ← choice PAYMENT_METHODS;
      mret (s.1 ++ [GenPayment s.2 amount (go_order_id o) pm (strftime_mdY pd)],
            s.2 + 1)
  end.

Definition gen_payments (items : list gen_item) (orders : list gen_order)
  : M (list gen_payment) :=
  s ← fold_list (add_payment (order_totals items)) ([], 1) orders;
  mret s.1.

(** The whole script: the five lists in the order they are built. *)
Definition generate : M dataset :=
  cs ← gen_customers;
  ps ← gen_products;
  os ← gen_orders;
  its ← gen_order_items ps os;
  pays ← gen_payments its os;
  mret (Dataset cs ps os its pays).
End Generate.

(** ** Definitions that follow the words of the specification *)







(** The months with revenue are consecutive calendar months of one year:
    every row but the first is the month after the row before it. *)
Fixpoint consecutive_months (ms : list mrow) : Prop :=
  match ms with
  | a :: (b :: _) as rest =>
      year b = year a /\ month_num b = month_num a + 1 /\ consecutive_months rest
  | _ => True
  end.

(** The order total of the specification: the sum of quantity times price
    over the order's items, 0 if it has none. *)
Definition order_total_spec (db : Db) (oid : Z) : Q :=
  Qsum (fmap (fun oi => line_total oi.2) (Reconcile.items_of db oid)).

(** ** Example databases *)

(** January 2006: one order of 3; February 2006: one order of 4. *)
Definition db_two_months : Db :=
  MkDb ∅ ∅
    (list_to_map [(1, Order 1 (Date 2006 1 5) None); (2, Order 1 (Date 2006 2 7) None)])
    (list_to_map [(1, OrderItem 1 1 1 3); (2, OrderItem 2 1 1 4)])
    ∅.

(** January 2006: 100; no order in February; March 2006: 50. *)
Definition db_gap : Db :=
  MkDb ∅ ∅
    (list_to_map [(1, Order 1 (Date 2006 1 5) None); (2, Order 1 (Date 2006 3 7) None)])
    (list_to_map [(1, OrderItem 1 1 1 100); (2, OrderItem 2 1 1 50)])
    ∅.

(** January 2006: 100; February 2006: 50. *)
Definition db_decline : Db :=
  MkDb ∅ ∅
    (list_to_map [(1, Order 1 (Date 2006 1 5) None); (2, Order 1 (Date 2006 2 7) None)])
    (list_to_map [(1, OrderItem 1 1 1 100); (2, OrderItem 2 1 1 50)])
    ∅.

(** December 2006: 100; January 2007: 50. *)
Definition db_year_end : Db :=
  MkDb ∅ ∅
    (list_to_map [(1, Order 1 (Date 2006 12 5) None); (2, Order 1 (Date 2007 1 7) None)])
    (list_to_map [(1, OrderItem 1 1 1 100); (2, OrderItem 2 1 1 50)])
    ∅.

(** One order with one item of 10 and two payments of 10. *)
Definition db_two_payments : Db :=
  MkDb ∅ ∅
    (list_to_map [(1, Order 1 (Date 2006 1 5) None)])
    (list_to_map [(1, OrderItem 1 1 1 10)])
    (list_to_map [(1, Payment 10 1 None (Date 2006 1 5));
                  (2, Payment 10 1 None (Date 2006 1 6))]).

(** One order with one item of 10 and no payment. *)
Definition db_unpaid : Db :=
  MkDb ∅ ∅
    (list_to_map [(1, Order 1 (Date 2006 1 5) None)])
    (list_to_map [(1, OrderItem 1 1 1 10)])
    ∅.

(** An orders.csv whose only row carries a date in neither format. *)
Definition csv_bad_order_date : csv_files :=
  CsvFiles [] [] [{[ "order_date" := Some "7 March 2006" ]}] [] [].

(** ** Auxiliary definitions of the proofs *)

(** The upserts of one [executemany], as a function on the table. *)
Definition insert_all {R} (kvs : list (Z * R)) (m : gmap Z R) : gmap Z R :=
  foldl (fun m kv => <[kv.1 := kv.2]> m) m kvs.

(** The generated data, in the words of the specification, and what each
    loop of the generator guarantees. *)
Module GenerateSpec.
Import Generate.

Definition gen_line_total (it : gen_item) : Q :=
  (inject_Z (gi_quantity it) * gi_price it)%Q.
Definition items_of_order (d : dataset) (oid : Z) : list gen_item :=
  filter (fun it => gi_order_id it = oid) (ds_order_items d).
Definition payments_of_order (d : dataset) (oid : Z) : list gen_payment :=
  filter (fun p => gy_order_id p = oid) (ds_payments d).

(** The dates of a payment against those of its order. *)
Definition payment_date_ok (o : gen_order) (p : gen_payment) : Prop :=
  exists od pd,
    strptime_mdY (go_order_date o) = Some od /\
    strptime_mdY (gy_payment_date p) = Some pd /\
    toordinal od <= toordinal pd <= toordinal od + 7 /\
    toordinal pd <= toordinal end_date.

Definition payment_matches_order (d : dataset) (o : gen_order) : Prop :=
  exists p,
    payments_of_order d (go_order_id o) = [p] /\
    gy_amount p =
      py_round2 (Qsum (gen_line_total <$> items_of_order d (go_order_id o))) /\
    payment_date_ok o p.

(** What the payments loop guarantees of the payment of order [o]. *)
Definition pay_ok (totals : gmap Z Q) (o : gen_order) (p : gen_payment) : Prop :=
  gy_order_id p = go_order_id o /\
  (forall t, totals !! go_order_id o = Some t -> gy_amount p = py_round2 t) /\
  payment_date_ok o p.


(** [m] returns, from any state of the sources, a value satisfying [P]. *)
Definition always {A} (m : M A) (P : A -> Prop) : Prop :=
  forall g, exists a g', m g = Ok (a, g') /\ P a.

(** Formatting the [n]-th day and parsing it back gives that day. *)
Definition date_roundtrip (n : Z) : bool :=
  bool_decide (toordinal (fromordinal n) = n) &&
  bool_decide (strptime_mdY (strftime_mdY (fromordinal n)) = Some (fromordinal n)).

(** What the orders loop guarantees of the order with id [i]. *)
Definition order_ok (i : Z) (o : gen_order) : Prop :=
  go_order_id o = i /\ 1 <= go_customer_id o <= NUM_CUSTOMERS /\
  exists n, toordinal start_date <= n <= toordinal end_date /\
            go_order_date o = strftime_mdY (fromordinal n).

(** Everything the script guarantees of the five lists. *)
Definition generated_ok (d : dataset) : Prop :=
  gc_customer_id <$> ds_customers d = seqZ 1 NUM_CUSTOMERS /\
  gp_product_id <$> ds_products d = seqZ 1 NUM_PRODUCTS /\
  Forall2 order_ok (seqZ 1 NUM_ORDERS) (ds_orders d) /\
  Forall (fun it => gi_order_id it ∈ go_order_id <$> ds_orders d /\
                    gi_product_id it ∈ gp_product_id <$> ds_products d)
         (ds_order_items d) /\
  Forall (fun o => exists it, it ∈ ds_order_items d /\ gi_order_id it = go_order_id o)
         (ds_orders d) /\
  Forall2 (pay_ok (order_totals (ds_order_items d))) (ds_orders d) (ds_payments d).

End GenerateSpec.

(** ** Reports, summaries and charts; further example data *)

(** The text holds no occurrence of the separator. *)
Fixpoint lacks (sep : ascii) (t : string) : bool :=
  match t with
  | EmptyString => true
  | String c t' => negb (Ascii.eqb c sep) && lacks sep t'
  end.

(** ** Printing: the exceptions of the report code *)

(** ZeroDivisionError, and the TypeError of formatting [None] with a
    float format ([f"{None:.2f}"]). *)
Inductive print_exn := ZeroDivisionError | FormatTypeError.

Inductive printed (A : Type) : Type :=
  | Done (a : A)
  | Fails (e : print_exn).
Arguments Done {A} a.
Arguments Fails {A} e.

Global Instance printed_ret : MRet printed := fun _ a => Done a.
Global Instance printed_bind : MBind printed := fun _ _ f m =>
  match m with Done a => f a | Fails e => Fails e end.

(** A [for] loop printing one line per element. *)
Fixpoint print_each {A B} (f : A -> printed B) (l : list A) : printed (list B) :=
  match l with
  | [] => Done []
  | x :: l' => y ← f x; ys ← print_each f l'; Done (y :: ys)
  end.

(** [f"{v:.2f}"]: the number that is printed. *)
Definition format_float (v : option Q) : printed Q :=
  match v with
  | Some q => Done q
  | None => Fails FormatTypeError
  end.

(** [a / b * 100] on integers. *)
Definition percent_of (a b : Z) : printed Q :=
  if b =? 0 then Fails ZeroDivisionError
  else Done (inject_Z a / inject_Z b * 100)%Q.

(** [v if v else 0]. *)
Definition or_zero (v : option Q) : Q :=
  match v with
  | Some q => if Qeq_bool q 0 then 0%Q else q
  | None => 0%Q
  end.

Module Report.
Import Reconcile.

(** One line of DETAILED RESULTS: order id, order total, payment amount,
    status and difference as printed. *)
Definition detail (row : recon_row) : printed (Z * Q * Q * check * Q) :=
  let order_total := or_zero (Some (order_total row)) in
  let payment_amount := or_zero (payment_amount row) in
  d ← format_float (difference row);
  Done (rr_order_id row, order_total, payment_amount, status_check row, d).

(** One line of MISMATCHES DETAIL. *)
Definition mismatch_detail (row : recon_row) : printed (Z * Q * Q * Q) :=
  let order_total := or_zero (Some (order_total row)) in
  let payment_amount := or_zero (payment_amount row) in
  d ← format_float (difference row);
  Done (rr_order_id row, order_total, payment_amount, d).

Record output := Output {
  out_total_orders : Z;
  out_matching : Z * Q;
  out_mismatching : Z * Q;
  out_details : list (Z * Q * Q * check * Q);
  out_mismatches : list (Z * Q * Q * Q);
  out_no_payment : list (Z * Q);
  out_orphan_payments : list (Z * Z * Q) }.

(** The script from [cursor.execute(query)] to its end. *)
Definition report (db : Db) : printed output :=
  let results := query db in
  let total_orders := total_orders results in
  let matching := matching results in
  let mismatching := mismatching results in
  pm ← percent_of matching total_orders;
  pmm ← percent_of mismatching total_orders;
  details ← print_each detail results;
  mm ← (if 0 <? mismatching
        then print_each mismatch_detail (mismatches results)
        else Done []);
  Done (Output total_orders (matching, pm) (mismatching, pmm) details mm
               (no_payment db) (orphan_payments db)).
End Report.

(** [MIN] of a column; NULL on no rows. *)
Definition sql_min (xs : list Q) : option Q :=
  match xs with
  | [] => None
  | x :: xs' => Some (foldl (fun a b => if Qle_bool b a then b else a) x xs')
  end.

(** [SUM] of a column without NULLs; NULL on no rows. *)
Definition sql_total (xs : list Q) : option Q :=
  match xs with
  | [] => None
  | _ => Some (Qsum xs)
  end.

(** [NULLIF(x, 0)] on integers. *)
Definition nullif0 (x : Z) : option Z := if x =? 0 then None else Some x.

Inductive direction := PositiveTrend | NegativeTrend | StableTrend.

(** [ORDER BY year, month_num] where [month_num] is the two-digit TEXT
    of [strftime('%m', ...)] and not its CAST to INTEGER. *)
Definition mrow_text_le (a b : mrow) : Prop :=
  String.le (year a) (year b) /\
  (year a = year b -> String.le (pad2 (month_num a)) (pad2 (month_num b))).

Global Instance mrow_text_le_dec : RelDecision mrow_text_le.
Proof. intros a b. unfold mrow_text_le. apply _. Defined.

Definition months_in_text_order (db : Db) : list mrow :=
  merge_sort mrow_text_le (monthly_revenue db).

(** [MAX(month_sequence) - MIN(month_sequence)], the sequence being
    [ROW_NUMBER()]: 1, 2, ... *)
Definition month_sequence (db : Db) : list Z :=
  seqZ 1 (Z.of_nat (length (monthly_revenue db))).

Definition sequence_span (db : Db) : option Z :=
  match month_sequence db with
  | [] => None
  | x :: xs => Some (foldl Z.max x xs - foldl Z.min x xs)
  end.

(** [(MAX(total_revenue) - MIN(total_revenue)) /
    NULLIF(MAX(month_sequence) - MIN(month_sequence), 0)] of the three
    [trend_query] texts. *)
Definition overall_slope (db : Db) : option Q :=
  let revs := total_revenue <$> monthly_revenue db in
  mx ← sql_max revs;
  mn ← sql_min revs;
  span ← sequence_span db;
  d ← nullif0 span;
  Some ((mx - mn) / inject_Z d)%Q.

(** ** run_sales_forecast_simple.py: summary and overall trend *)
Module SimpleReport.

(** A row of [monthly_trends] in [summary_query]: total_revenue,
    revenue_change and percent_change, the last two NULL for the first
    month of the window. *)
Definition monthly_trends (db : Db) : list (Q * option Q * option Q) :=
  (fun r : mrow * option Q =>
     (total_revenue r.1,
      (fun p => total_revenue r.1 - p)%Q <$> r.2,
      match r.2 with
      | Some p =>
          if Qgtb p 0 then Some ((total_revenue r.1 - p) / p * 100)%Q else None
      | None => None
      end))
  <$> Simple.lag None (months_in_text_order db).

Record summary := Summary {
  total_months : Z;
  sm_total_revenue : option Q;
  avg_monthly_revenue : option Q;
  min_monthly_revenue : option Q;
  max_monthly_revenue : option Q;
  avg_monthly_change : option Q;
  avg_percent_change : option Q }.

(** [summary_query]: the aggregates over the rows [WHERE revenue_change
    IS NOT NULL]. *)
Definition summary_query (db : Db) : summary :=
  let rows := filter (fun t => is_Some t.1.2) (monthly_trends db) in
  let totals := (fun t => t.1.1) <$> rows in
  {| total_months := Z.of_nat (length rows);
     sm_total_revenue := sql_round2 <$> sql_total totals;
     avg_monthly_revenue := sql_round2 <$> sql_avg totals;
     min_monthly_revenue := sql_round2 <$> sql_min totals;
     max_monthly_revenue := sql_round2 <$> sql_max totals;
     avg_monthly_change := sql_round2 <$> sql_avg (omap (fun t => t.1.2) rows);
     avg_percent_change := sql_round2 <$> sql_avg (omap (fun t => t.2) rows) |}.

(** The six numbers printed under SUMMARY STATISTICS. *)
Definition print_summary (s : summary) : printed (Z * Q * Q * Q * Q * Q * Q) :=
  a ← format_float (sm_total_revenue s);
  b ← format_float (avg_monthly_revenue s);
  c ← format_float (min_monthly_revenue s);
  d ← format_float (max_monthly_revenue s);
  e ← format_float (avg_monthly_change s);
  f ← format_float (avg_percent_change s);
  Done (total_months s, a, b, c, d, e, f).

(** The CASE giving [trend_direction]. *)
Definition trend_direction (db : Db) : direction :=
  match overall_slope db with
  | Some s =>
      if Qgtb s 0 then PositiveTrend
      else if Qltb s 0 then NegativeTrend
      else StableTrend
  | None => StableTrend
  end.

(** [trend_query]: overall_slope, avg_monthly_revenue, trend_direction. *)
Definition trend_query (db : Db) : option Q * option Q * direction :=
  (sql_round2 <$> overall_slope db,
   sql_round2 <$> sql_avg (total_revenue <$> monthly_revenue db),
   trend_direction db).

End SimpleReport.

(** ** run_sales_forecast_compatible.py: summary and overall trend *)
Module CompatibleReport.

Record summary := Summary {
  total_months : Z;
  sm_total_revenue : option Q;
  avg_monthly_revenue : option Q;
  min_monthly_revenue : option Q;
  max_monthly_revenue : option Q }.

(** [summary_query]: the aggregates over the months with revenue. *)
Definition summary_query (db : Db) : summary :=
  let totals := total_revenue <$> monthly_revenue db in
  {| total_months := Z.of_nat (length totals);
     sm_total_revenue := sql_round2 <$> sql_total totals;
     avg_monthly_revenue := sql_round2 <$> sql_avg totals;
     min_monthly_revenue := sql_round2 <$> sql_min totals;
     max_monthly_revenue := sql_round2 <$> sql_max totals |}.

(** The numbers printed under SUMMARY STATISTICS, the last one being
    [avg_growth]. *)
Definition print_summary (db : Db) : printed (Z * Q * Q * Q * Q * Q) :=
  let s := summary_query db in
  a ← format_float (sm_total_revenue s);
  b ← format_float (avg_monthly_revenue s);
  c ← format_float (min_monthly_revenue s);
  d ← format_float (max_monthly_revenue s);
  Done (total_months s, a, b, c, d, Compatible.avg_growth (Compatible.query db)).

(** [trend_query]: overall_slope and avg_monthly_revenue. *)
Definition trend_query (db : Db) : option Q * option Q :=
  (sql_round2 <$> overall_slope db,
   sql_round2 <$> sql_avg (total_revenue <$> monthly_revenue db)).

(** The lines under OVERALL TREND ANALYSIS, with the number or the
    direction each one prints. *)
Inductive trend_line :=
  | SlopeLine (s : Q) | AverageLine (a : Q) | DirectionLine (d : direction).

(** [if slope > 0: ... elif slope < 0: ... else: ...]. *)
Definition direction_of (slope : Q) : direction :=
  if Qgtb slope 0 then PositiveTrend
  else if Qltb slope 0 then NegativeTrend
  else StableTrend.

(** The [try] block on the row of [trend_query]: the lines printed, and
    whether an exception ended the block (formatting None raises). *)
Definition try_trend (t : option Q * option Q) : list trend_line * bool :=
  match t.1 with
  | None => ([], true)
  | Some s =>
      match t.2 with
      | None => ([SlopeLine s], true)
      | Some a => ([SlopeLine s; AverageLine a; DirectionLine (direction_of s)], false)
      end
  end.

(** The [except] block, on [results]. *)
Definition fallback_trend (results : list trend_row) : list trend_line :=
  match results with
  | [] => []
  | first :: _ =>
      let first_revenue := tr_monthly_revenue first in
      let last_revenue := from_option tr_monthly_revenue first_revenue (last results) in
      let num_months := Z.of_nat (length results) in
      let slope :=
        if 1 <? num_months
        then ((last_revenue - first_revenue) / inject_Z (num_months - 1))%Q
        else 0%Q in
      let avg_revenue :=
        (Qsum (tr_monthly_revenue <$> results) / inject_Z num_months)%Q in
      [SlopeLine slope; AverageLine avg_revenue; DirectionLine (direction_of slope)]
  end.

(** The [try] ... [except] of the overall trend. *)
Definition overall_trend (db : Db) : list trend_line :=
  let t := try_trend (trend_query db) in
  if t.2 then t.1 ++ fallback_trend (Compatible.query db) else t.1.
End CompatibleReport.

(** The order items that have a parent order. *)
Definition items_with_order (db : Db) : list (Z * order_item) :=
  filter (fun oi => is_Some (orders db !! oi_order_id oi.2))
         (map_to_list (order_items db)).


(** ** run_sales_forecast_with_graphs.py: the dates of the forecast *)
Module WithGraphs.

(** [datetime.strptime(m, '%Y-%m')]: the first day of the month. *)
Definition strptime_Ym (s : string) : option date :=
  match split_on "-" s with
  | [ty; tm] =>
      match parse_Y ty, parse_m tm with
      | Some y, Some m => make_date y m 1
      | _, _ => None
      end
  | _ => None
  end.

(** [datetime(year, month, day)]. *)
Definition datetime (y m d : Z) : result date :=
  match make_date y m d with
  | Some r => Ok r
  | None => Raise ValueError
  end.

(** [month_dates = [datetime.strptime(m, '%Y-%m') for m in months]]. *)
Definition month_dates (months : list string) : result (list date) :=
  for_each (fun m => match strptime_Ym m with
                     | Some d => Ok d
                     | None => Raise ValueError
                     end) months.

(** The loop building [forecast_dates] from [month_dates[-1]]. *)
Definition forecast_dates (month_dates : list date) : result (list date) :=
  match last month_dates with
  | None => Raise IndexError
  | Some forecast_start_date =>
      for_each (fun i =>
                  if d_month forecast_start_date =? 12
                  then datetime (d_year forecast_start_date + 1) 1 1
                  else datetime (d_year forecast_start_date)
                                (d_month forecast_start_date + i) 1)
               [1; 2; 3]
  end.

(** The overall trend computed in Python from [results]: the code of the
    self-join script's fallback. *)
Definition overall_trend (db : Db) : list CompatibleReport.trend_line :=
  CompatibleReport.fallback_trend (Compatible.query db).

(** From [results] to [forecast_dates]. *)
Definition chart_dates (db : Db) : result (list date) :=
  ds ← month_dates (tr_month <$> Compatible.query db);
  forecast_dates ds.
End WithGraphs.

(** Every order date is a date of the calendar. *)
Definition dates_valid (db : Db) : Prop :=
  forall k o, orders db !! k = Some o -> valid_date (order_date o) = true.

(** November 2006: one order of 10. *)
Definition db_november : Db :=
  MkDb ∅ ∅
    (list_to_map [(1, Order 1 (Date 2006 11 5) None)])
    (list_to_map [(1, OrderItem 1 1 1 10)])
    ∅.

(** An orders.csv with one row, and nothing else. *)
Definition csv_one_order : csv_files :=
  CsvFiles [] []
    [{[ "order_id" := Some "7"; "customer_id" := Some "3";
        "order_date" := Some "11/05/2006"; "status" := Some "shipped" ]}]
    [] [].

(** One order of 7.50 with one payment of 7.50. *)
Definition db_paid : Db :=
  MkDb ∅ ∅
    (list_to_map [(1, Order 1 (Date 2006 1 5) None)])
    (list_to_map [(1, OrderItem 1 1 3 (5 # 2))])
    (list_to_map [(1, Payment (15 # 2) 1 None (Date 2006 1 5))]).

(** A payment for an order that does not exist. *)
Definition db_orphan : Db :=
  MkDb ∅ ∅ ∅ ∅ (list_to_map [(1, Payment 5 9 None (Date 2006 1 5))]).

(** What each loop of the generator guarantees of the values it draws. *)
Module GenerateDetail.
Import Generate GenerateSpec.

Definition product_ok (i : Z) (p : gen_product) : Prop :=
  gp_product_id p = i /\ gp_category p ∈ categories /\
  (10 <= gp_price p <= 1000)%Q.

Definition order_detail (i : Z) (o : gen_order) : Prop :=
  order_ok i o /\ go_status o ∈ ORDER_STATUSES.

(** An item of order [o]: its quantity, and its price against the price
    [prices] holds for its product. *)
Definition item_ok (prices : gmap Z Q) (o : gen_order) (it : gen_item) : Prop :=
  gi_order_id it = go_order_id o /\ 1 <= gi_quantity it <= 5 /\
  exists base, prices !! gi_product_id it = Some base /\
    (base * (9 # 10) - (1 # 200) <= gi_price it <= base * (11 # 10) + (1 # 200))%Q.

(** The items appended for order [o]. *)
Definition chunk_ok (prices : gmap Z Q) (o : gen_order) (new : list gen_item) : Prop :=
  (1 <= length new <= 5)%nat /\ NoDup (gi_product_id <$> new) /\
  Forall (item_ok prices o) new.

Definition items_ok (prices : gmap Z Q) (os : list gen_order) (its : list gen_item)
  : Prop :=
  gi_item_id <$> its = seqZ 1 (Z.of_nat (length its)) /\
  exists chunks, its = concat chunks /\ Forall2 (chunk_ok prices) os chunks.

Definition payment_detail (o : gen_order) (p : gen_payment) : Prop :=
  gy_order_id p = go_order_id o /\ gy_payment_method p ∈ PAYMENT_METHODS.

Definition generated_detail (d : dataset) : Prop :=
  gc_customer_id <$> ds_customers d = seqZ 1 NUM_CUSTOMERS /\
  Forall2 product_ok (seqZ 1 NUM_PRODUCTS) (ds_products d) /\
  Forall2 order_detail (seqZ 1 NUM_ORDERS) (ds_orders d) /\
  items_ok (product_prices (ds_products d)) (ds_orders d) (ds_order_items d) /\
  Forall2 payment_detail (ds_orders d) (ds_payments d) /\
  gy_payment_id <$> ds_payments d = seqZ 1 (Z.of_nat (length (ds_payments d))).
End GenerateDetail.

(** A customers.csv whose only line stops after the id. *)
Definition csv_short_customer : csv_files :=
  CsvFiles
    [{[ "customer_id" := Some "1"; "customer_name" := None; "email" := None;
        "phone number" := None; "city" := None; "country" := None ]}]
    [] [] [] [].

(** ** run_sales_forecast.py: the monthly trend query *)
Module Pandas.

(** The CASE giving [percent_change] in [monthly_trends]: the quotient
    is taken before the factor 100. *)
Definition percent_change (r : mrow * option Q) : option Q :=
  match r.2 with
  | Some p =>
      if Qgtb p 0
      then Some (sql_round2 ((total_revenue r.1 - p) / p * 100))
      else None
  | None => None
  end.


End Pandas.

(** * Theorems *)

(** ** Ingestion *)

Lemma for_each_raises {A B} (f : A -> result B) (l : list A) x e :
  x ∈ l -> f x = Raise e -> exists e', for_each f l = Raise e'.
Proof.
  induction l as [|y l IH]; intros Hin Hx.
  - by apply elem_of_nil in Hin.
  - apply elem_of_cons in Hin as [->|Hin]; simpl.
    + rewrite Hx. by eexists.
    + destruct (f y) as [b|e0]; simpl; [|by eexists].
      destruct (IH Hin Hx) as [e' ->]. by eexists.
Qed.

Section IngestFacts.
Context (py_int : string -> option Z) (py_float : string -> option Q).

Local Abbreviation py_order_tuple := (order_tuple py_int).
Local Abbreviation py_payment_tuple := (payment_tuple py_int py_float).
Local Abbreviation py_ingest := (ingest py_int py_float).
Local Abbreviation py_run_ingest := (run_ingest py_int py_float).

Lemma order_tuple_bad_date (row : csv_row) s :
  row !! "order_date" = Some (Some s) ->
  strptime_mdY s = None -> strptime_Ymd s = None ->
  py_order_tuple row = Raise ValueError.
Proof.
  intros Hrow H1 H2. unfold order_tuple, getitem.
  rewrite Hrow. simpl. by rewrite H1, H2.
Qed.

Lemma payment_tuple_bad_date (row : csv_row) s :
  row !! "payment_date" = Some (Some s) ->
  strptime_mdY s = None -> strptime_Ymd s = None ->
  py_payment_tuple row = Raise ValueError.
Proof.
  intros Hrow H1 H2. unfold payment_tuple, getitem.
  rewrite Hrow. simpl. by rewrite H1, H2.
Qed.

(** An exception while the orders or the payments are read ends the
    script before the commit. *)
Lemma ingest_orders_raise files db e :
  for_each py_order_tuple (orders_csv files) = Raise e ->
  exists e', py_ingest files db = Raise e'.
Proof.
  intros H. unfold ingest.
  destruct (for_each _ (customers_csv files)); simpl; [|by eexists].
  destruct (executemany customer_values _ _ _); simpl; [|by eexists].
  destruct (for_each _ (products_csv files)); simpl; [|by eexists].
  destruct (executemany product_values _ _ _); simpl; [|by eexists].
  rewrite H. by eexists.
Qed.

Lemma ingest_payments_raise files db e :
  for_each py_payment_tuple (payments_csv files) = Raise e ->
  exists e', py_ingest files db = Raise e'.
Proof.
  intros H. unfold ingest.
  destruct (for_each _ (customers_csv files)); simpl; [|by eexists].
  destruct (executemany customer_values _ _ _); simpl; [|by eexists].
  destruct (for_each _ (products_csv files)); simpl; [|by eexists].
  destruct (executemany product_values _ _ _); simpl; [|by eexists].
  destruct (for_each _ (orders_csv files)); simpl; [|by eexists].
  destruct (executemany order_values _ _ _); simpl; [|by eexists].
  destruct (for_each _ (order_items_csv files)); simpl; [|by eexists].
  destruct (executemany order_item_values _ _ _); simpl; [|by eexists].
  rewrite H. by eexists.
Qed.

Lemma run_ingest_raise files db e : py_ingest files db = Raise e -> py_run_ingest files db = db.
Proof. intros H. unfold run_ingest. by rewrite H. Qed.

(** C7. A date text is parsed as MM/DD/YYYY when that succeeds, else as
    YYYY-MM-DD when that succeeds; when both fail the conversion of the
    row raises ValueError, the script ends with an exception and nothing
    of the import is committed. *)
Theorem date_parsing_fallback (s : string) :
  (forall d, strptime_mdY s = Some d -> parse_date (Some s) = Ok d) /\
  (forall d, strptime_mdY s = None -> strptime_Ymd s = Some d ->
             parse_date (Some s) = Ok d) /\
  (strptime_mdY s = None -> strptime_Ymd s = None ->
     parse_date (Some s) = Raise ValueError /\
     (forall row : csv_row, row !! "order_date" = Some (Some s) ->
        py_order_tuple row = Raise ValueError) /\
     (forall row : csv_row, row !! "payment_date" = Some (Some s) ->
        py_payment_tuple row = Raise ValueError) /\
     (forall files db (row : csv_row),
        (row ∈ orders_csv files /\ row !! "order_date" = Some (Some s)) \/
        (row ∈ payments_csv files /\ row !! "payment_date" = Some (Some s)) ->
        (exists e, py_ingest files db = Raise e) /\ py_run_ingest files db = db)).
Proof.
  split; [|split].
  - intros d H. simpl. by rewrite H.
  - intros d H1 H2. simpl. by rewrite H1, H2.
  - intros H1 H2. split; [|split; [|split]].
    + simpl. by rewrite H1, H2.
    + intros row Hrow. by eapply order_tuple_bad_date.
    + intros row Hrow. by eapply payment_tuple_bad_date.
    + intros files db row Hrow.
      assert (exists e, py_ingest files db = Raise e) as [e He].
      { destruct Hrow as [[Hin Hrow]|[Hin Hrow]].
        - destruct (for_each_raises py_order_tuple _ _ _ Hin
                      (order_tuple_bad_date _ _ Hrow H1 H2)) as [e' He'].
          by eapply ingest_orders_raise.
        - destruct (for_each_raises py_payment_tuple _ _ _ Hin
                      (payment_tuple_bad_date _ _ Hrow H1 H2)) as [e' He'].
          by eapply ingest_payments_raise. }
      split; [by eexists|]. by eapply run_ingest_raise.
Qed.

(** [executemany] first converts every tuple and then upserts them. *)
Lemma executemany_plan {T R} (values : T -> result (Z * R)) upsert data db :
  executemany values upsert data db =
  (kvs ← for_each values data;
   Ok (foldl (fun db kv => upsert kv.1 kv.2 db) db kvs)).
Proof.
  revert db. induction data as [|t data IH]; intros db; [done|].
  cbn [executemany fold_result for_each] in *.
  destruct (values t) as [kv|e]; simpl; [|done].
  unfold executemany in IH. rewrite IH.
  by destruct (for_each values data).
Qed.

Lemma insert_all_union {R} (kvs : list (Z * R)) (m : gmap Z R) :
  insert_all kvs m = list_to_map (reverse kvs) ∪ m.
Proof.
  revert m. induction kvs as [|[k v] kvs IH]; intros m; simpl.
  - by rewrite (left_id_L ∅ (∪)).
  - unfold insert_all in *. simpl. rewrite IH, reverse_cons, list_to_map_app.
    simpl. rewrite insert_empty, <- (assoc_L (∪)).
    by rewrite <- insert_union_singleton_l.
Qed.

Lemma insert_all_idemp {R} (kvs : list (Z * R)) (m : gmap Z R) :
  insert_all kvs (insert_all kvs m) = insert_all kvs m.
Proof.
  rewrite !insert_all_union, (assoc_L (∪)). by rewrite (idemp_L (∪)).
Qed.

Lemma upsert_customers_all kvs db :
  foldl (fun db kv => upsert_customer kv.1 kv.2 db) db kvs =
  MkDb (insert_all kvs (customers db)) (products db) (orders db)
       (order_items db) (payments db).
Proof.
  revert db. induction kvs as [|kv kvs IH]; intros db; [by destruct db|].
  simpl. by rewrite IH.
Qed.

Lemma upsert_products_all kvs db :
  foldl (fun db kv => upsert_product kv.1 kv.2 db) db kvs =
  MkDb (customers db) (insert_all kvs (products db)) (orders db)
       (order_items db) (payments db).
Proof.
  revert db. induction kvs as [|kv kvs IH]; intros db; [by destruct db|].
  simpl. by rewrite IH.
Qed.

Lemma upsert_orders_all kvs db :
  foldl (fun db kv => upsert_order kv.1 kv.2 db) db kvs =
  MkDb (customers db) (products db) (insert_all kvs (orders db))
       (order_items db) (payments db).
Proof.
  revert db. induction kvs as [|kv kvs IH]; intros db; [by destruct db|].
  simpl. by rewrite IH.
Qed.

Lemma upsert_order_items_all kvs db :
  foldl (fun db kv => upsert_order_item kv.1 kv.2 db) db kvs =
  MkDb (customers db) (products db) (orders db)
       (insert_all kvs (order_items db)) (payments db).
Proof.
  revert db. induction kvs as [|kv kvs IH]; intros db; [by destruct db|].
  simpl. by rewrite IH.
Qed.

Lemma upsert_payments_all kvs db :
  foldl (fun db kv => upsert_payment kv.1 kv.2 db) db kvs =
  MkDb (customers db) (products db) (orders db) (order_items db)
       (insert_all kvs (payments db)).
Proof.
  revert db. induction kvs as [|kv kvs IH]; intros db; [by destruct db|].
  simpl. by rewrite IH.
Qed.

(** A run that commits has upserted five lists of rows that depend on
    the files only. *)
Lemma ingest_Ok files db db' :
  py_ingest files db = Ok db' ->
  exists cs ps os ois pys,
    (forall db0, py_ingest files db0 =
       Ok (MkDb (insert_all cs (customers db0)) (insert_all ps (products db0))
                (insert_all os (orders db0)) (insert_all ois (order_items db0))
                (insert_all pys (payments db0)))).
Proof.
  unfold ingest.
  destruct (for_each _ (customers_csv files)) as [cd|]; simpl; [|done].
  rewrite executemany_plan.
  destruct (for_each customer_values cd) as [cs|] eqn:E1; simpl; [|done].
  destruct (for_each _ (products_csv files)) as [pd|]; simpl; [|done].
  rewrite executemany_plan.
  destruct (for_each product_values pd) as [ps|] eqn:E2; simpl; [|done].
  destruct (for_each _ (orders_csv files)) as [od|]; simpl; [|done].
  rewrite executemany_plan.
  destruct (for_each order_values od) as [os|] eqn:E3; simpl; [|done].
  destruct (for_each _ (order_items_csv files)) as [oid|]; simpl; [|done].
  rewrite executemany_plan.
  destruct (for_each order_item_values oid) as [ois|] eqn:E4; simpl; [|done].
  destruct (for_each _ (payments_csv files)) as [pyd|]; simpl; [|done].
  rewrite executemany_plan.
  destruct (for_each payment_values pyd) as [pys|] eqn:E5; simpl; [|done].
  intros _. exists cs, ps, os, ois, pys. intros db0.
  rewrite executemany_plan, E1. simpl.
  rewrite executemany_plan, E2. simpl.
  rewrite executemany_plan, E3. simpl.
  rewrite executemany_plan, E4. simpl.
  rewrite executemany_plan, E5. simpl.
  by rewrite upsert_customers_all, upsert_products_all, upsert_orders_all,
    upsert_order_items_all, upsert_payments_all.
Qed.

(** C5. Running the ingestion twice in succession leaves the five
    tables as one run leaves them, whatever the files and the database
    before: every row is upserted by its primary key. *)
Theorem run_ingest_idempotent (files : csv_files) (db : Db) :
  py_run_ingest files (py_run_ingest files db) = py_run_ingest files db.
Proof.
  unfold run_ingest at 2 3.
  destruct (py_ingest files db) as [db'|e] eqn:E.
  - destruct (ingest_Ok _ _ _ E) as (cs & ps & os & ois & pys & H).
    rewrite H in E. injection E as <-.
    unfold run_ingest. rewrite H. simpl.
    by rewrite !insert_all_idemp.
  - unfold run_ingest. by rewrite E.
Qed.
End IngestFacts.

(** ** The monthly revenue query *)

Lemma Qsum_from (a : Q) (l : list Q) : (foldl Qplus a l == a + Qsum l)%Q.
Proof.
  revert a. induction l as [|x l IH]; intros a; simpl.
  - unfold Qsum. simpl. ring.
  - unfold Qsum. simpl. rewrite IH, (IH (0 + x)%Q). ring.
Qed.

Lemma Qsum_cons (x : Q) (l : list Q) : (Qsum (x :: l) == x + Qsum l)%Q.
Proof. unfold Qsum at 1. simpl. rewrite Qsum_from. ring. Qed.

Lemma Qsum_Permutation (l k : list Q) : l ≡ₚ k -> (Qsum l == Qsum k)%Q.
Proof.
  induction 1 as [|x l k _ IH|x y l|l k j _ IH1 _ IH2].
  - reflexivity.
  - by rewrite !Qsum_cons, IH.
  - rewrite !Qsum_cons. ring.
  - by rewrite IH1.
Qed.

Lemma elem_of_orders_join_items db o oi :
  (o, oi) ∈ orders_join_items db <->
  orders db !! o.1 = Some o.2 /\ order_items db !! oi.1 = Some oi.2 /\
  oi_order_id oi.2 = o.1.
Proof.
  unfold orders_join_items. rewrite list_elem_of_bind. split.
  - intros (o' & Hin & Ho). apply list_elem_of_bind in Hin as (oi' & Hin & Hoi).
    apply list_elem_of_singleton in Hin. injection Hin as -> ->.
    apply list_elem_of_filter in Hoi as [Heq Hoi].
    destruct o' as [k o'], oi' as [j oi'].
    apply elem_of_map_to_list in Ho, Hoi. done.
  - intros (Ho & Hoi & Heq). exists o. split.
    + apply list_elem_of_bind. exists oi. split; [by apply list_elem_of_singleton|].
      apply list_elem_of_filter. split; [done|].
      destruct oi. by apply elem_of_map_to_list.
    + destruct o. by apply elem_of_map_to_list.
Qed.

Lemma NoDup_orders_join_items db : NoDup (orders_join_items db).
Proof.
  unfold orders_join_items. apply NoDup_bind.
  - intros o1 o2 r _ _ H1 H2.
    apply list_elem_of_bind in H1 as (oi1 & H1 & _).
    apply list_elem_of_bind in H2 as (oi2 & H2 & _).
    apply list_elem_of_singleton in H1, H2. congruence.
  - intros o _. apply NoDup_bind.
    + intros oi1 oi2 r _ _ H1 H2.
      apply list_elem_of_singleton in H1, H2. congruence.
    + intros oi _. apply NoDup_singleton.
    + apply NoDup_filter, NoDup_map_to_list.
  - apply NoDup_map_to_list.
Qed.



Lemma month_of_monthly_revenue db :
  month <$> monthly_revenue db = remove_dups (row_month <$> orders_join_items db).
Proof.
  unfold monthly_revenue. rewrite <- list_fmap_compose.
  rewrite <- (list_fmap_id (remove_dups _)) at 2. by apply list_fmap_ext.
Qed.



(** ** The trend queries *)

Global Instance mrow_le_total : Total mrow_le.
Proof.
  intros a b. unfold mrow_le.
  destruct (decide (year a = year b)) as [E|E].
  - destruct (Z.le_ge_cases (month_num a) (month_num b)); [left|right].
    + split; [rewrite E; done|done].
    + split; [rewrite E; done|intros _; lia].
  - destruct (total String.le (year a) (year b)); [left|right];
      (split; [done|congruence]).
Qed.

Global Instance mrow_le_trans : Transitive mrow_le.
Proof.
  intros a b c [H1 H1'] [H2 H2']. split; [by etrans|].
  intros E.
  assert (year a = year b) as Eab.
  { apply (anti_symm String.le); [done|]. by rewrite E. }
  specialize (H1' Eab). specialize (H2' ltac:(congruence)). lia.
Qed.

Global Instance joined_le_total : Total Compatible.joined_le.
Proof. intros a b. apply (total mrow_le). Qed.

Global Instance joined_le_trans : Transitive Compatible.joined_le.
Proof. intros a b c. apply (transitivity (R := mrow_le)). Qed.

Lemma lag_lookup prev l i :
  Simple.lag prev l !! i =
  (fun r => (r, match i with
                | O => prev
                | S j => total_revenue <$> l !! j
                end)) <$> l !! i.
Proof.
  revert prev i. induction l as [|x l IH]; intros prev i; [done|].
  destruct i as [|i]; simpl; [done|].
  rewrite IH. destruct i; simpl; done.
Qed.

(** The ON clause holds between a month and the month before it in the
    same year only: the TEXT [m2.year] never equals the INTEGER
    [m1.year - 1]. *)
Lemma join_on_spec m1 m2 :
  Compatible.join_on m1 m2 = true <->
  year m2 = year m1 /\ month_num m2 = month_num m1 - 1.
Proof.
  unfold Compatible.join_on. simpl.
  rewrite orb_false_r, andb_true_iff, String.eqb_eq, Z.eqb_eq. done.
Qed.

Lemma elem_of_left_join {A B} (on : A -> B -> bool) l r a ob :
  (a, ob) ∈ Compatible.left_join on l r <->
  a ∈ l /\ match ob with
           | None => filter (on a) r = []
           | Some b => b ∈ r /\ on a b = true
           end.
Proof.
  unfold Compatible.left_join. rewrite list_elem_of_bind. split.
  - intros (a' & Hin & Ha). destruct (filter (on a') r) as [|b bs] eqn:E.
    + apply list_elem_of_singleton in Hin. injection Hin as -> ->. done.
    + apply list_elem_of_fmap in Hin as (b' & [= -> ->] & Hb). split; [done|].
      rewrite <- E in Hb. apply list_elem_of_filter in Hb as [Hon Hb].
      split; [done|]. by apply Is_true_true.
  - intros [Ha Hob]. exists a. split; [|done]. destruct ob as [b|].
    + destruct Hob as [Hb Hon].
      assert (b ∈ filter (on a) r) as Hf.
      { apply list_elem_of_filter. split; [by apply Is_true_true|done]. }
      destruct (filter (on a) r) as [|b0 bs] eqn:E; [by apply elem_of_nil in Hf|].
      by apply list_elem_of_fmap_2'  with (x := b).
    + rewrite Hob. by apply list_elem_of_singleton.
Qed.


Lemma elem_of_joined db r :
  r ∈ Compatible.joined db <->
  r ∈ Compatible.left_join Compatible.join_on (monthly_revenue db) (monthly_revenue db).
Proof. unfold Compatible.joined. by rewrite merge_sort_Permutation. Qed.





(** C2 as stated fails: with no order in February, March has January for
    previous row in the window query and no previous month in the
    self-join query. *)
Lemma trend_queries_differ :
  ~ (forall db, fst <$> Simple.query db = Compatible.query db).
Proof.
  intros H. specialize (H db_gap). vm_compute in H. discriminate H.
Qed.

Lemma consecutive_months_lookup ms i a b :
  consecutive_months ms -> ms !! i = Some a -> ms !! S i = Some b ->
  year b = year a /\ month_num b = month_num a + 1.
Proof.
  revert i. induction ms as [|x ms IH]; intros i H Hi Hj; [done|].
  destruct ms as [|y l]; [by destruct i|].
  destruct H as (Hy & Hm & Hrest). destruct i as [|i].
  - simpl in Hi, Hj. by simplify_eq.
  - by apply (IH i).
Qed.

(** Across a year boundary the self-join finds no previous month: the ON
    clause compares the TEXT [m2.year] with the INTEGER [m1.year - 1]. *)
Example year_boundary_previous_month :
  tr_previous_month_revenue <$> (fst <$> Simple.query db_year_end) = [0 # 100; 10000 # 100]%Q /\
  tr_previous_month_revenue <$> Compatible.query db_year_end = [0 # 100; 0 # 100]%Q.
Proof. by vm_compute. Qed.

Section Consecutive.
Context (ms : list mrow).
Context (Hc : forall i a b, ms !! i = Some a -> ms !! S i = Some b ->
                year b = year a /\ month_num b = month_num a + 1).

Lemma consecutive_from_head i a h :
  ms !! 0%nat = Some h -> ms !! i = Some a ->
  year a = year h /\ month_num a = month_num h + Z.of_nat i.
Proof.
  intros Hh. revert a. induction i as [|i IH]; intros a Ha.
  - rewrite Hh in Ha. injection Ha as ->. split; [done|lia].
  - destruct (lookup_lt_is_Some_2 ms i) as [b Hb].
    { apply lookup_lt_Some in Ha. lia. }
    destruct (IH _ Hb) as [Hy Hm]. destruct (Hc _ _ _ Hb Ha) as [Hy' Hm'].
    split; [congruence|lia].
Qed.

Lemma consecutive_index i j a b :
  ms !! i = Some a -> ms !! j = Some b ->
  year a = year b /\ month_num b - month_num a = Z.of_nat j - Z.of_nat i.
Proof.
  intros Ha Hb. destruct (lookup_lt_is_Some_2 ms 0) as [h Hh].
  { apply lookup_lt_Some in Ha. lia. }
  destruct (consecutive_from_head _ _ _ Hh Ha), (consecutive_from_head _ _ _ Hh Hb).
  split; [congruence|lia].
Qed.

Lemma consecutive_NoDup : NoDup ms.
Proof.
  apply NoDup_alt. intros i j a Hi Hj.
  destruct (consecutive_index _ _ _ _ Hi Hj). lia.
Qed.

Lemma consecutive_antisym a b :
  a ∈ ms -> b ∈ ms -> mrow_le a b -> mrow_le b a -> a = b.
Proof.
  intros [i Hi]%list_elem_of_lookup [j Hj]%list_elem_of_lookup [_ H1] [_ H2].
  destruct (consecutive_index _ _ _ _ Hi Hj) as [Hy Hm].
  specialize (H1 Hy). specialize (H2 (eq_sym Hy)).
  assert (i = j) as -> by lia. congruence.
Qed.
End Consecutive.

Lemma NoDup_all_equal_length {A} (l : list A) :
  NoDup l -> (forall x y, x ∈ l -> y ∈ l -> x = y) -> (length l <= 1)%nat.
Proof.
  intros Hnd Heq. destruct l as [|x [|y l]]; simpl; [lia..|].
  exfalso. apply NoDup_cons in Hnd as [Hx _]. apply Hx.
  rewrite (Heq x y); [left|left|right; left].
Qed.

Lemma left_join_functional {A B} (on : A -> B -> bool) l r :
  (forall a, a ∈ l -> (length (filter (on a) r) <= 1)%nat) ->
  Compatible.left_join on l r = (fun a => (a, head (filter (on a) r))) <$> l.
Proof.
  unfold Compatible.left_join. induction l as [|a l IH]; intros H; [done|].
  rewrite bind_cons, fmap_cons, IH by (intros; apply H; by right).
  specialize (H a ltac:(left)).
  destruct (filter (on a) r) as [|b [|??]]; simpl in *; [done|done|lia].
Qed.

Section ConsecutiveDb.
Context (db : Db).
Context (Hc : forall i a b, months_in_order db !! i = Some a ->
                months_in_order db !! S i = Some b ->
                year b = year a /\ month_num b = month_num a + 1).

Local Abbreviation ms := (months_in_order db).
Local Abbreviation mr := (monthly_revenue db).

Lemma months_in_order_perm : ms ≡ₚ mr.
Proof. apply merge_sort_Permutation. Qed.

Lemma join_matches_index i j a b :
  ms !! i = Some a -> ms !! j = Some b ->
  Compatible.join_on a b = true <-> i = S j.
Proof.
  intros Hi Hj. rewrite join_on_spec.
  destruct (consecutive_index _ Hc _ _ _ _ Hi Hj) as [Hy Hm]. split.
  - intros [_ H]. lia.
  - intros ->. split; [done|lia].
Qed.

Lemma join_matches_short a :
  a ∈ mr -> (length (filter (Compatible.join_on a) mr) <= 1)%nat.
Proof.
  intros Ha. apply NoDup_all_equal_length.
  - apply NoDup_filter. rewrite <- months_in_order_perm.
    by apply consecutive_NoDup.
  - rewrite <- months_in_order_perm in Ha.
    apply list_elem_of_lookup in Ha as [i Hi].
    intros x y [Hx Hxin]%list_elem_of_filter [Hy Hyin]%list_elem_of_filter.
    rewrite <- months_in_order_perm in Hxin, Hyin.
    apply list_elem_of_lookup in Hxin as [j Hj].
    apply list_elem_of_lookup in Hyin as [k Hk].
    apply Is_true_true in Hx, Hy.
    apply (join_matches_index _ _ _ _ Hi Hj) in Hx.
    apply (join_matches_index _ _ _ _ Hi Hk) in Hy.
    assert (j = k) as -> by lia. congruence.
Qed.

Lemma join_match_of_index i a :
  ms !! i = Some a ->
  head (filter (Compatible.join_on a) mr) =
  match i with O => None | S j => ms !! j end.
Proof.
  intros Hi.
  assert (a ∈ mr) as Ha.
  { rewrite <- months_in_order_perm. by eapply list_elem_of_lookup_2. }
  pose proof (join_matches_short a Ha) as Hlen.
  destruct (filter (Compatible.join_on a) mr) as [|b l] eqn:E; simpl.
  - destruct i as [|j]; [done|].
    destruct (lookup_lt_is_Some_2 ms j) as [b Hb].
    { apply lookup_lt_Some in Hi. lia. }
    assert (b ∈ filter (Compatible.join_on a) mr) as Hin.
    { apply list_elem_of_filter. split.
      - apply Is_true_true. by apply (join_matches_index _ _ _ _ Hi Hb).
      - rewrite <- months_in_order_perm. by eapply list_elem_of_lookup_2. }
    rewrite E in Hin. by apply elem_of_nil in Hin.
  - assert (b ∈ filter (Compatible.join_on a) mr) as Hin by (rewrite E; left).
    apply list_elem_of_filter in Hin as [Hon Hin].
    rewrite <- months_in_order_perm in Hin.
    apply list_elem_of_lookup in Hin as [j Hj].
    apply Is_true_true in Hon.
    apply (join_matches_index _ _ _ _ Hi Hj) in Hon. subst i. done.
Qed.

Lemma joined_consecutive :
  Compatible.joined db =
  (fun a => (a, head (filter (Compatible.join_on a) mr))) <$> ms.
Proof.
  unfold Compatible.joined. rewrite left_join_functional by apply join_matches_short.
  apply (StronglySorted_unique_strong Compatible.joined_le).
  - intros x1 x2 Hx1 Hx2 H1 H2.
    rewrite merge_sort_Permutation in Hx1.
    apply list_elem_of_fmap in Hx1 as (a & -> & Ha).
    apply list_elem_of_fmap in Hx2 as (b & -> & Hb).
    rewrite <- months_in_order_perm in Ha.
    by rewrite (consecutive_antisym _ Hc a b Ha Hb H1 H2).
  - apply StronglySorted_merge_sort; apply _.
  - apply (StronglySorted_fmap _ mrow_le); [done|].
    apply StronglySorted_merge_sort; apply _.
  - rewrite merge_sort_Permutation. by rewrite months_in_order_perm.
Qed.
End ConsecutiveDb.

Lemma trend_agree (c : Q) :
  Simple.trend c =
  if Qgtb c 0 then Growing else if Qltb c 0 then Declining else Stable.
Proof.
  unfold Simple.trend. destruct (Qgtb c 0) eqn:E1; [done|].
  destruct (Qltb c 0) eqn:E2; [done|].
  unfold Qgtb, Qltb in *. apply negb_false_iff in E1, E2.
  apply Qle_bool_iff in E1, E2.
  assert (c == 0)%Q as E by (by apply Qle_antisym).
  apply Qeq_bool_iff in E. by rewrite E.
Qed.

Lemma rows_agree (a : mrow) (om2 : option mrow) :
  Simple.common_columns (a, total_revenue <$> om2) = Compatible.select_row (a, om2).
Proof.
  unfold Simple.common_columns, Compatible.select_row. simpl. f_equal.
  - unfold Simple.percent_change, Compatible.percent_change. simpl.
    destruct om2 as [m2|]; simpl; [|done]. by destruct (Qgtb _ _).
  - by rewrite trend_agree.
Qed.

(** C2 (amended). When the months with revenue are consecutive calendar
    months of one year, the window query and the self-join query return the
    same rows in the same order: month, monthly revenue, order count,
    previous-month revenue, revenue change, percent change and trend. *)
Theorem trend_queries_agree (db : Db) :
  consecutive_months (months_in_order db) ->
  fst <$> Simple.query db = Compatible.query db.
Proof.
  intros Hc.
  assert (forall i a b, months_in_order db !! i = Some a ->
            months_in_order db !! S i = Some b ->
            year b = year a /\ month_num b = month_num a + 1) as Hc'
    by (intros i a b; by apply consecutive_months_lookup).
  clear Hc. rename Hc' into Hc. unfold Compatible.query. rewrite (joined_consecutive db Hc).
  unfold Simple.query, Simple.monthly_with_previous.
  apply list_eq. intros i.
  rewrite !list_lookup_fmap, list_lookup_imap, lag_lookup.
  destruct (months_in_order db !! i) as [a|] eqn:Hi; simpl; [|done].
  f_equal. rewrite (join_match_of_index db Hc i a Hi), <- rows_agree.
  by destruct i.
Qed.

(** ** The forecast *)


(** ** Reconciliation *)

Section ReconcileFacts.
Import Reconcile.

Lemma nub_by_subset {A} (eqb : A -> A -> bool) l y : y ∈ nub_by eqb l -> y ∈ l.
Proof.
  revert y. induction l as [|x l IH]; intros y; simpl; [done|].
  intros [->|[_ Hy]%list_elem_of_filter]%elem_of_cons; [left|right; auto].
Qed.

Lemma nub_by_covers {A} (eqb : A -> A -> bool) l x :
  (forall a, eqb a a = true) ->
  (forall a b c, eqb a b = true -> eqb b c = true -> eqb a c = true) ->
  x ∈ l -> exists y, y ∈ nub_by eqb l /\ eqb y x = true.
Proof.
  intros Hrefl Htrans. induction l as [|z l IH]; simpl.
  - by intros ?%elem_of_nil.
  - intros [->|Hx]%elem_of_cons.
    + exists z. split; [left|done].
    + destruct (IH Hx) as (y & Hy & Hyx).
      destruct (eqb z y) eqn:E.
      * exists z. split; [left|eauto].
      * exists y. split; [|done]. right. apply list_elem_of_filter.
        split; [by rewrite E|done].
Qed.

Lemma same_amount_refl a : same_amount a a = true.
Proof. destruct a; simpl; [|done]. by apply Qeq_bool_iff. Qed.

Lemma same_amount_trans a b c :
  same_amount a b = true -> same_amount b c = true -> same_amount a c = true.
Proof.
  destruct a, b, c; simpl; try done.
  rewrite !Qeq_bool_iff. apply Qeq_trans.
Qed.

Lemma same_group_refl r : same_group r r = true.
Proof. unfold same_group. by rewrite Z.eqb_refl, same_amount_refl. Qed.

Lemma same_group_trans a b c :
  same_group a b = true -> same_group b c = true -> same_group a c = true.
Proof.
  unfold same_group. rewrite !andb_true_iff, !Z.eqb_eq.
  intros [-> H1] [-> H2]. split; [done|]. by eapply same_amount_trans.
Qed.

Lemma elem_of_or_null {A} (l : list A) ox :
  ox ∈ or_null l <-> match ox with None => l = [] | Some x => x ∈ l end.
Proof.
  unfold or_null. destruct l as [|y l].
  - rewrite list_elem_of_singleton. destruct ox; [|done]. split; [done|].
    by intros ?%elem_of_nil.
  - rewrite list_elem_of_fmap. destruct ox as [x|]; split.
    + by intros (? & [= ->] & ?).
    + intros ?. by exists x.
    + by intros (? & ? & ?).
    + done.
Qed.

Lemma elem_of_reconcile_joined db o oi p :
  (o, oi, p) ∈ joined db <->
  o ∈ map_to_list (orders db) /\ oi ∈ or_null (items_of db o.1) /\
  p ∈ or_null (payments_of db o.1).
Proof.
  unfold joined. rewrite list_elem_of_bind. split.
  - intros (o' & (oi' & (p' & Hin & Hp)%list_elem_of_bind & Hoi)%list_elem_of_bind & Ho).
    apply list_elem_of_singleton in Hin. by simplify_eq.
  - intros (Ho & Hoi & Hp). exists o. split; [|done].
    apply list_elem_of_bind. exists oi. split; [|done].
    apply list_elem_of_bind. exists p. split; [|done].
    by apply list_elem_of_singleton.
Qed.

Lemma elem_of_query db r :
  r ∈ query db <->
  exists rep, rep ∈ nub_by same_group (joined db) /\ r = group_result (joined db) rep.
Proof.
  unfold query. rewrite merge_sort_Permutation, list_elem_of_fmap. split.
  - intros (rep & -> & Hrep). by exists rep.
  - intros (rep & Hrep & ->). by exists rep.
Qed.

Lemma matching_mismatching (results : list recon_row) :
  mismatching results = Z.of_nat (length (mismatches results)).
Proof.
  unfold mismatching, total_orders, matching, mismatches.
  induction results as [|r l IH]; [done|].
  rewrite !filter_cons. destruct (status_check r) eqn:E.
  - rewrite decide_True, decide_False by done. simpl length. lia.
  - rewrite decide_False, decide_True by done. simpl length. lia.
Qed.

(** C10. An order without a payment row has a result row; every result
    row of it has a NULL payment amount, a NULL difference and the status
    MISMATCH, and is among the rows that the mismatching total counts. *)
Theorem unpaid_order_is_mismatch (db : Db) (k : Z) (o : order) :
  orders db !! k = Some o ->
  payments_of db k = [] ->
  (exists r, r ∈ query db /\ rr_order_id r = k) /\
  (forall r, r ∈ query db -> rr_order_id r = k ->
     payment_amount r = None /\ status_check r = MISMATCH /\ difference r = None /\
     r ∈ mismatches (query db)) /\
  mismatching (query db) = Z.of_nat (length (mismatches (query db))).
Proof.
  intros Ho Hp. split; [|split].
  - assert (((k, o), None, None) ∈ joined db \/
            exists oi, ((k, o), Some oi, None) ∈ joined db) as Hrow.
    { destruct (items_of db k) as [|oi l] eqn:E.
      - left. apply elem_of_reconcile_joined. simpl. rewrite E, Hp.
        split; [by apply elem_of_map_to_list|]. split; by apply elem_of_or_null.
      - right. exists oi. apply elem_of_reconcile_joined. simpl. rewrite E, Hp.
        split; [by apply elem_of_map_to_list|].
        split; apply elem_of_or_null; [left|done]. }
    assert (exists row, row ∈ joined db /\ (j_order row).1 = k) as (row & Hrow' & Hk).
    { destruct Hrow as [?|[oi ?]]; eexists; split; try done; done. }
    destruct (nub_by_covers same_group _ _ same_group_refl same_group_trans Hrow')
      as (rep & Hrep & Hsame).
    exists (group_result (joined db) rep). split.
    + apply elem_of_query. by exists rep.
    + simpl. unfold same_group in Hsame.
      apply andb_true_iff in Hsame as [Hid%Z.eqb_eq _]. congruence.
  - intros r Hr Hk.
    assert (payment_amount r = None /\ status_check r = MISMATCH /\ difference r = None)
      as (H1 & H2 & H3).
    { apply elem_of_query in Hr as (rep & Hrep%nub_by_subset & ->).
      simpl in Hk. destruct rep as [[o' oi] p].
      apply elem_of_reconcile_joined in Hrep as (_ & _ & Hpay).
      unfold j_order in Hk. simpl in Hk. rewrite Hk, Hp in Hpay.
      apply elem_of_or_null in Hpay. destruct p as [p|]; [by apply elem_of_nil in Hpay|].
      done. }
    repeat split; try done.
    apply list_elem_of_filter. done.
  - apply matching_mismatching.
Qed.

(** C8, at an input where it fails: one order whose single item costs 10,
    paid by two payments of 10.  The joined rows repeat the item once per
    payment, so the reported order total is 20 and the status MISMATCH,
    while the sum over the order's items is 10 and equals the payment
    amount. *)
Theorem reconcile_double_counts :
  (order_total_spec db_two_payments 1 == 10)%Q /\
  exists r, query db_two_payments = [r] /\ rr_order_id r = 1 /\
    (exists a, payment_amount r = Some a /\ (a == 10)%Q) /\
    (order_total r == 20)%Q /\ status_check r = MISMATCH.
Proof.
  split; [by vm_compute|].
  eexists. split; [vm_compute; reflexivity|].
  split; [done|]. split; [by eexists|]. split; by vm_compute.
Qed.
(** The orders listed without payments are the orders with no payment
    row. *)
Lemma elem_of_no_payment db k :
  k ∈ (no_payment db).*1 <-> is_Some (orders db !! k) /\ payments_of db k = [].
Proof.
  unfold no_payment. rewrite <- list_fmap_compose.
  rewrite list_elem_of_fmap. split.
  - intros (k' & -> & Hk). simpl.
    apply elem_of_remove_dups, list_elem_of_fmap in Hk as ([[o oi] p] & -> & Hr).
    apply list_elem_of_filter in Hr as [Hp Hr].
    apply elem_of_reconcile_joined in Hr as (Ho & _ & Hpay).
    unfold j_payment in Hp. simpl in Hp. subst p.
    apply elem_of_or_null in Hpay. split; [|done].
    destruct o as [k o]. apply elem_of_map_to_list in Ho. by eexists.
  - intros [[o Ho] Hp]. exists k. split; [done|].
    apply elem_of_remove_dups, list_elem_of_fmap.
    destruct (items_of db k) as [|oi l] eqn:E.
    + exists ((k, o), None, None). split; [done|]. apply list_elem_of_filter.
      split; [done|]. apply elem_of_reconcile_joined. simpl. rewrite E, Hp.
      split; [by apply elem_of_map_to_list|]. split; by apply elem_of_or_null.
    + exists ((k, o), Some oi, None). split; [done|]. apply list_elem_of_filter.
      split; [done|]. apply elem_of_reconcile_joined. simpl. rewrite E, Hp.
      split; [by apply elem_of_map_to_list|].
      split; apply elem_of_or_null; [left|done].
Qed.

(** The payments listed as orphans are the payments whose order id is
    the id of no order. *)
Lemma elem_of_orphan_payments db pid oid amt :
  (pid, oid, amt) ∈ orphan_payments db <->
  exists p, payments db !! pid = Some p /\ p_order_id p = oid /\ amount p = amt /\
            orders db !! oid = None.
Proof.
  unfold orphan_payments. rewrite list_elem_of_bind. split.
  - intros ([[pid' p] o] & Hin & Hr). simpl in Hin.
    apply list_elem_of_bind in Hr as ([pid'' p''] & Hr & Hp).
    apply list_elem_of_bind in Hr as (o' & Hr & Ho).
    apply list_elem_of_singleton in Hr. simplify_eq.
    destruct o' as [o|]; [by apply elem_of_nil in Hin|].
    apply list_elem_of_singleton in Hin. simplify_eq.
    apply elem_of_map_to_list in Hp. apply elem_of_or_null in Ho. simpl in Ho.
    exists p''. repeat split; try done.
    destruct (orders db !! p_order_id p'') as [o|] eqn:E; [|done]. exfalso.
    assert ((p_order_id p'', o) ∈ filter (fun o : Z * order => p_order_id p'' = o.1)
              (map_to_list (orders db))) as Hf.
    { apply list_elem_of_filter. split; [done|]. by apply elem_of_map_to_list. }
    rewrite Ho in Hf. by apply elem_of_nil in Hf.
  - intros (p & Hp & <- & <- & Ho). exists ((pid, p), None). split; [simpl; left|].
    apply list_elem_of_bind. exists (pid, p). split; [|by apply elem_of_map_to_list].
    apply list_elem_of_bind. exists None. split; [by apply list_elem_of_singleton|].
    apply elem_of_or_null. simpl. apply elem_of_nil_inv.
    intros [k o] [Hk Hin]%list_elem_of_filter. simpl in Hk. subst k.
    apply elem_of_map_to_list in Hin. congruence.
Qed.

Lemma NoDup_or_null {A} (l : list A) : NoDup l -> NoDup (or_null l).
Proof.
  intros H. unfold or_null. destruct l as [|x l]; [apply NoDup_singleton|].
  by apply (NoDup_fmap_2 Some).
Qed.

Lemma NoDup_reconcile_joined db : NoDup (joined db).
Proof.
  unfold joined. apply NoDup_bind.
  - intros o1 o2 r _ _ H1 H2.
    apply list_elem_of_bind in H1 as (oi1 & (p1 & H1 & _)%list_elem_of_bind & _).
    apply list_elem_of_bind in H2 as (oi2 & (p2 & H2 & _)%list_elem_of_bind & _).
    apply list_elem_of_singleton in H1, H2. congruence.
  - intros o _. apply NoDup_bind.
    + intros oi1 oi2 r _ _ (p1 & H1 & _)%list_elem_of_bind (p2 & H2 & _)%list_elem_of_bind.
      apply list_elem_of_singleton in H1, H2. congruence.
    + intros oi _. apply NoDup_bind.
      * intros p1 p2 r _ _ H1 H2. apply list_elem_of_singleton in H1, H2. congruence.
      * intros p _. apply NoDup_singleton.
      * apply NoDup_or_null, NoDup_filter, NoDup_map_to_list.
    + apply NoDup_or_null, NoDup_filter, NoDup_map_to_list.
  - apply NoDup_map_to_list.
Qed.

Lemma coalesce_sql_sum (xs : list (option Q)) :
  coalesce (sql_sum xs) 0%Q = Qsum (omap id xs).
Proof. unfold sql_sum. by destruct (omap id xs). Qed.

Lemma omap_or_null {A} (f : A -> Q) (l : list A) :
  omap id (fmap f <$> or_null l) = f <$> l.
Proof.
  unfold or_null. destruct l as [|x l]; [done|].
  generalize (x :: l). intros k. induction k as [|y k IH]; [done|].
  csimpl. by rewrite IH.
Qed.

Lemma Qltb_true (x y : Q) : Qltb x y = true <-> (x < y)%Q.
Proof.
  unfold Qltb. rewrite negb_true_iff, <- not_true_iff_false, Qle_bool_iff.
  split; [apply Qnot_le_lt|apply Qlt_not_le].
Qed.

(** For an order with exactly one payment the query reports the sum over
    the order's items, that payment's amount, and MATCH exactly when the
    two differ by less than 0.01. *)
Lemma single_payment_row db k o p :
  orders db !! k = Some o ->
  payments_of db k = [p] ->
  forall r, r ∈ query db -> rr_order_id r = k ->
    (order_total r == order_total_spec db k)%Q /\
    payment_amount r = Some (amount p.2) /\
    (status_check r = MATCH <->
     (Qabs (order_total_spec db k - amount p.2) < 1 # 100)%Q).
Proof.
  intros Ho Hp r Hr Hk.
  apply elem_of_query in Hr as (rep & Hrep%nub_by_subset & ->). simpl in Hk.
  assert (forall row, row ∈ joined db -> (j_order row).1 = k ->
            j_order row = (k, o) /\ j_payment row = Some p /\
            j_item row ∈ or_null (items_of db k)) as Hrows.
  { intros [[[k' o'] oi'] p'] Hin Hk'. unfold j_order in Hk'. simpl in Hk'. subst k'.
    apply elem_of_reconcile_joined in Hin as (Ho' & Hoi & Hp'). simpl in *.
    apply elem_of_map_to_list in Ho'. rewrite Hp in Hp'.
    apply list_elem_of_singleton in Hp'. unfold j_order, j_payment, j_item. simpl.
    split; [congruence|]. done. }
  destruct (Hrows rep Hrep Hk) as (Hro & Hrp & _).
  assert (j_amount rep = Some (amount p.2)) as Hamt by (unfold j_amount; by rewrite Hrp).
  assert (j_item <$> filter (same_group rep) (joined db) ≡ₚ or_null (items_of db k))
    as Hperm.
  { apply NoDup_Permutation.
    - apply NoDup_fmap_2_strong; [|apply NoDup_filter, NoDup_reconcile_joined].
      intros x y [Hx Hxin]%list_elem_of_filter [Hy Hyin]%list_elem_of_filter E.
      apply Is_true_true in Hx, Hy. unfold same_group in Hx, Hy.
      apply andb_true_iff in Hx as [Hx%Z.eqb_eq _], Hy as [Hy%Z.eqb_eq _].
      destruct (Hrows x Hxin) as (Hxo & Hxp & _); [congruence|].
      destruct (Hrows y Hyin) as (Hyo & Hyp & _); [congruence|].
      destruct x as [[xo xi] xp], y as [[yo yi] yp].
      unfold j_order, j_payment, j_item in *. simpl in *. congruence.
    - apply NoDup_or_null, NoDup_filter, NoDup_map_to_list.
    - intros oi. rewrite list_elem_of_fmap. split.
      + intros (row & -> & [Hs Hin]%list_elem_of_filter).
        apply Is_true_true in Hs. unfold same_group in Hs.
        apply andb_true_iff in Hs as [Hs%Z.eqb_eq _].
        destruct (Hrows row Hin) as (_ & _ & H); [congruence|done].
      + intros Hoi. exists ((k, o), oi, Some p). split; [done|].
        apply list_elem_of_filter. split.
        * apply Is_true_true. unfold same_group.
          rewrite Hamt, Hk. unfold j_amount, j_order, j_payment. simpl.
          rewrite Z.eqb_refl. simpl. by apply Qeq_bool_iff.
        * apply elem_of_reconcile_joined. simpl. rewrite Hp.
          split; [by apply elem_of_map_to_list|]. split; [done|].
          apply elem_of_or_null. left. }
  assert (order_total (group_result (joined db) rep) == order_total_spec db k)%Q as Htot.
  { unfold group_result. cbn [order_total]. unfold sum_items, order_total_spec.
    rewrite coalesce_sql_sum, <- (omap_or_null (fun oi => line_total oi.2)).
    apply Qsum_Permutation, omap_Permutation.
    rewrite <- Hperm. by rewrite <- list_fmap_compose. }
  split; [done|]. split; [done|].
  unfold status_check, group_result. fold (order_total (group_result (joined db) rep)).
  rewrite Hamt. simpl abs_difference. unfold status_of.
  destruct (Qltb _ _) eqn:E.
  - apply Qltb_true in E. rewrite <- Htot. done.
  - split; [done|]. intros H. rewrite <- Htot in H. apply Qltb_true in H.
    simpl in H, E. congruence.
Qed.

End ReconcileFacts.

(** ** The data generator *)

Section GenerateFacts.
Import Generate GenerateSpec.

Lemma always_ret {A} (a : A) (P : A -> Prop) : P a -> always (mret a) P.
Proof. intros H g. by exists a, g. Qed.

Lemma always_bind {A B} (m : M A) (f : A -> M B) (P : A -> Prop) (Q : B -> Prop) :
  always m P -> (forall a, P a -> always (f a) Q) -> always (m ≫= f) Q.
Proof.
  intros Hm Hf g. destruct (Hm g) as (a & g' & E & Ha).
  destruct (Hf a Ha g') as (b & g'' & E' & Hb).
  exists b, g''. split; [|done]. unfold mbind, M_bind. by rewrite E.
Qed.

Lemma always_mono {A} (m : M A) (P Q : A -> Prop) :
  always m P -> (forall a, P a -> Q a) -> always m Q.
Proof. intros Hm H g. destruct (Hm g) as (a & g' & E & Ha). eauto. Qed.

Lemma always_next_number : always next_number (fun _ => True).
Proof. intros g. by eexists _, _. Qed.

Lemma always_fake_text : always fake_text (fun _ => True).
Proof. intros g. by eexists _, _. Qed.

Lemma always_randint a b : a <= b -> always (randint a b) (fun n => a <= n <= b).
Proof.
  intros Hab. eapply always_bind; [apply always_next_number|].
  intros n _. apply always_ret.
  pose proof (Z.mod_pos_bound n (b - a + 1)). lia.
Qed.

Lemma always_uniform a b : always (uniform a b) (fun _ => True).
Proof.
  eapply always_bind.
  - eapply always_bind; [apply always_next_number|]. intros n _.
    by apply (always_ret _ (fun _ => True)).
  - intros u _. by apply always_ret.
Qed.

Lemma always_choice {A} (l : list A) : l <> [] -> always (choice l) (fun x => x ∈ l).
Proof.
  intros Hl. eapply always_bind; [apply always_next_number|]. intros n _.
  destruct (lookup_lt_is_Some_2 l (Z.to_nat (n mod Z.of_nat (length l)))) as [x Hx].
  { destruct l; [done|]. simpl length in *.
    pose proof (Z.mod_pos_bound n (Z.of_nat (S (length l)))). lia. }
  rewrite Hx. apply always_ret. by eapply list_elem_of_lookup_2.
Qed.

Lemma always_sample pool k :
  (k <= length pool)%nat ->
  always (sample pool k) (fun xs => length xs = k /\ forall x, x ∈ xs -> x ∈ pool).
Proof.
  revert pool. induction k as [|k IH]; intros pool Hk; simpl.
  - apply always_ret. split; [done|]. by intros x ?%elem_of_nil.
  - eapply always_bind; [apply always_next_number|]. intros n _. simpl.
    set (i := Z.to_nat (n mod Z.of_nat (length pool))).
    assert (i < length pool)%nat as Hi.
    { pose proof (Z.mod_pos_bound n (Z.of_nat (length pool))). lia. }
    destruct (lookup_lt_is_Some_2 pool i Hi) as [x Hx]. rewrite Hx.
    eapply always_bind.
    + apply IH. rewrite length_delete by done. lia.
    + intros rest [Hlen Hsub]. apply always_ret. split; [simpl; lia|].
      intros y [->|Hy]%elem_of_cons; [by eapply list_elem_of_lookup_2|].
      apply Hsub in Hy. by eapply list_elem_of_delete_inv.
Qed.

Lemma always_date_between a b :
  toordinal a <= toordinal b ->
  always (date_between a b)
         (fun d => exists n, toordinal a <= n <= toordinal b /\ d = fromordinal n).
Proof.
  intros Hab. eapply always_bind; [by apply always_randint|].
  intros n Hn. apply always_ret. by exists n.
Qed.

Lemma always_for_list {A B} (f : A -> M B) (P : A -> B -> Prop) l :
  (forall x, x ∈ l -> always (f x) (P x)) ->
  always (for_list f l) (fun ys => Forall2 P l ys).
Proof.
  induction l as [|x l IH]; intros H; simpl.
  - apply always_ret. constructor.
  - eapply always_bind; [apply H; left|]. intros y Hy.
    eapply always_bind; [apply IH; intros; apply H; by right|]. intros ys Hys.
    apply always_ret. by constructor.
Qed.

Lemma always_fold_list {A S} (f : S -> A -> M S) (I : list A -> S -> Prop) l s0 :
  I [] s0 ->
  (forall pre x s, x ∈ l -> I pre s -> always (f s x) (I (pre ++ [x]))) ->
  always (fold_list f s0 l) (I l).
Proof.
  revert I s0. induction l as [|x l IH]; intros I s0 H0 Hstep; simpl.
  - by apply always_ret.
  - eapply always_bind; [apply (Hstep [] x s0); [left|done]|].
    intros s Hs. apply (IH (fun pre => I (x :: pre))); [done|].
    intros pre y s' Hy Hs'. apply (Hstep (x :: pre)); [by right|done].
Qed.

(** *** Dates of 2006-2007 survive formatting and parsing *)

Lemma date_roundtrip_range n :
  toordinal start_date <= n <= toordinal end_date + 7 -> date_roundtrip n = true.
Proof.
  intros Hn.
  assert (forallb date_roundtrip (seqZ 732312 737) = true) as H by (by vm_compute).
  rewrite forallb_forall in H. apply H, list_elem_of_In, elem_of_seqZ.
  change (toordinal start_date) with 732312 in Hn.
  change (toordinal end_date) with 733041 in Hn. lia.
Qed.

Lemma toordinal_fromordinal n :
  toordinal start_date <= n <= toordinal end_date + 7 -> toordinal (fromordinal n) = n.
Proof.
  intros Hn%date_roundtrip_range. unfold date_roundtrip in Hn.
  apply andb_true_iff in Hn as [H _]. by apply bool_decide_eq_true in H.
Qed.

Lemma strptime_strftime n :
  toordinal start_date <= n <= toordinal end_date + 7 ->
  strptime_mdY (strftime_mdY (fromordinal n)) = Some (fromordinal n).
Proof.
  intros Hn%date_roundtrip_range. unfold date_roundtrip in Hn.
  apply andb_true_iff in Hn as [_ H]. by apply bool_decide_eq_true in H.
Qed.

(** *** The loops of the generator *)

Lemma Forall2_fmap_eq {A B} (f : B -> A) (l : list A) (ys : list B) :
  Forall2 (fun x y => f y = x) l ys -> f <$> ys = l.
Proof. induction 1; csimpl; congruence. Qed.

Lemma always_gen_customers :
  always gen_customers (fun cs => gc_customer_id <$> cs = seqZ 1 NUM_CUSTOMERS).
Proof.
  eapply always_mono.
  - apply (always_for_list _ (fun i c => gc_customer_id c = i)). intros i _.
    do 5 (eapply always_bind; [apply always_fake_text|]; intros ? _).
    by apply always_ret.
  - intros cs. apply Forall2_fmap_eq.
Qed.

Lemma always_gen_products :
  always gen_products (fun ps => gp_product_id <$> ps = seqZ 1 NUM_PRODUCTS).
Proof.
  eapply always_mono.
  - apply (always_for_list _ (fun i p => gp_product_id p = i)). intros i _.
    eapply always_bind; [apply always_fake_text|]; intros ? _.
    eapply always_bind; [by apply always_choice|]; intros ? _.
    eapply always_bind; [apply always_uniform|]; intros ? _.
    by apply always_ret.
  - intros cs. apply Forall2_fmap_eq.
Qed.

Lemma always_gen_orders :
  always gen_orders (fun os => Forall2 order_ok (seqZ 1 NUM_ORDERS) os).
Proof.
  apply always_for_list. intros i _.
  eapply always_bind; [by apply always_date_between|]; intros d (n & Hn & ->).
  eapply always_bind; [by apply always_randint|]; intros cid Hcid.
  eapply always_bind; [by apply always_choice|]; intros ? _.
  apply always_ret. split; [done|]. split; [done|]. by exists n.
Qed.

Lemma product_prices_is_Some ps k :
  k ∈ gp_product_id <$> ps -> is_Some (product_prices ps !! k).
Proof.
  unfold product_prices. induction ps as [|p ps IH] using rev_ind.
  - by intros ?%elem_of_nil.
  - rewrite fmap_app, foldl_app, elem_of_app. simpl.
    destruct (decide (gp_product_id p = k)) as [->|Hne].
    + intros _. rewrite lookup_insert_eq. by eexists.
    + rewrite lookup_insert_ne by done. intros [?|Hk]; [auto|].
      apply list_elem_of_singleton in Hk. congruence.
Qed.

Lemma always_add_item prices o s pid :
  is_Some (prices !! pid) ->
  always (add_item prices o s pid)
    (fun s' => exists it, s'.1 = s.1 ++ [it] /\ gi_order_id it = go_order_id o /\
                          gi_product_id it = pid).
Proof.
  intros [base Hbase]. unfold add_item.
  eapply always_bind; [by apply always_randint|]; intros q _.
  rewrite Hbase.
  eapply always_bind; [apply always_uniform|]; intros u _.
  apply always_ret. by eexists.
Qed.

(** The items appended for one order: at least one, all of that order,
    all of a product of the catalogue. *)
Lemma always_add_order_items ps s o :
  gp_product_id <$> ps = seqZ 1 NUM_PRODUCTS ->
  always (add_order_items (product_prices ps) s o)
    (fun s' => exists new, s'.1 = s.1 ++ new /\ new <> [] /\
       Forall (fun it => gi_order_id it = go_order_id o /\
                         gi_product_id it ∈ gp_product_id <$> ps) new).
Proof.
  intros Hps. unfold add_order_items.
  eapply always_bind; [by apply always_randint|]; intros num Hnum.
  eapply always_bind.
  { apply always_sample. rewrite length_seqZ.
    unfold MIN_ITEMS_PER_ORDER, MAX_ITEMS_PER_ORDER, NUM_PRODUCTS in *. lia. }
  intros xs [Hlen Hsub].
  eapply always_mono.
  - apply (always_fold_list _ (fun pre s' => exists new, s'.1 = s.1 ++ new /\
             length new = length pre /\
             Forall (fun it => gi_order_id it = go_order_id o /\
                               gi_product_id it ∈ gp_product_id <$> ps) new)).
    + exists []. by rewrite app_nil_r.
    + intros pre pid s' Hpid (new & E & Hl & Hall).
      eapply always_mono.
      * apply always_add_item, product_prices_is_Some. rewrite Hps. auto.
      * intros s'' (it & E' & Hoid & Hp). exists (new ++ [it]).
        rewrite E', E, <- (assoc_L (++)). split; [done|].
        rewrite !length_app, Hl. split; [done|].
        apply Forall_app. split; [done|]. apply Forall_singleton.
        split; [done|]. rewrite Hp, Hps. auto.
  - intros s' (new & E & Hl & Hall). exists new. split; [done|]. split; [|done].
    intros ->. simpl in Hl.
    unfold MIN_ITEMS_PER_ORDER, MAX_ITEMS_PER_ORDER, NUM_PRODUCTS in *. lia.
Qed.

Lemma always_gen_order_items ps os :
  gp_product_id <$> ps = seqZ 1 NUM_PRODUCTS ->
  always (gen_order_items ps os)
    (fun its =>
       Forall (fun it => gi_order_id it ∈ go_order_id <$> os /\
                         gi_product_id it ∈ gp_product_id <$> ps) its /\
       Forall (fun o => exists it, it ∈ its /\ gi_order_id it = go_order_id o) os).
Proof.
  intros Hps. unfold gen_order_items.
  eapply always_bind; [|intros s Hs; apply always_ret; exact Hs].
  apply (always_fold_list _ (fun pre s =>
    Forall (fun it => gi_order_id it ∈ go_order_id <$> pre /\
                      gi_product_id it ∈ gp_product_id <$> ps) s.1 /\
    Forall (fun o => exists it, it ∈ s.1 /\ gi_order_id it = go_order_id o) pre)).
  - split; constructor.
  - intros pre o s Ho [Hits Hpre].
    eapply always_mono; [by apply always_add_order_items|].
    intros s' (new & -> & Hne & Hnew). split.
    + apply Forall_app. split.
      * eapply Forall_impl; [exact Hits|]. intros it [H1 H2]. split; [|done].
        rewrite fmap_app. apply elem_of_app. by left.
      * eapply Forall_impl; [exact Hnew|]. intros it [H1 H2]. split; [|done].
        rewrite fmap_app, H1. apply elem_of_app. right. left.
    + apply Forall_app. split.
      * eapply Forall_impl; [exact Hpre|]. intros o' (it & Hit & E).
        exists it. split; [|done]. apply elem_of_app. by left.
      * apply Forall_singleton. destruct new as [|it new]; [done|].
        apply Forall_cons in Hnew as [[E _] _]. exists it. split; [|done].
        apply elem_of_app. right. left.
Qed.

Lemma always_add_payment totals s o i :
  order_ok i o ->
  always (add_payment totals s o)
         (fun s' => exists p, s'.1 = s.1 ++ [p] /\ pay_ok totals o p).
Proof.
  intros (_ & _ & n & Hn & Hdate). unfold add_payment.
  eapply always_bind; [apply always_uniform|]; intros dflt _.
  rewrite Hdate.
  rewrite strptime_strftime by lia.
  eapply always_bind; [by apply always_randint|]; intros k Hk.
  eapply always_bind; [by apply always_choice|]; intros pm _.
  apply always_ret. 
  eexists. 
  split; [reflexivity|]. 
  split; [reflexivity|]. split.
  - intros t Ht. simpl. by rewrite Ht.
  - exists (fromordinal n). cbn [gy_payment_date go_order_date].
    rewrite Hdate, (strptime_strftime n) by lia.
    unfold add_days, date_leb. cbv beta in Hk.
    rewrite !(toordinal_fromordinal n) by lia.
    rewrite (toordinal_fromordinal (n + k)) by lia.
    destruct (Z.leb_spec (n + k) (toordinal end_date)) as [Hle|Hgt]; cbn [negb].
    + exists (fromordinal (n + k)). split; [done|].
      rewrite strptime_strftime by lia.
      rewrite toordinal_fromordinal by lia.
      split; [done|]. lia.
    + exists end_date. split; [done|]. split; [by vm_compute|]. lia.
Qed.

Lemma Forall2_elem_of_r {A B} (P : A -> B -> Prop) l k y :
  Forall2 P l k -> y ∈ k -> exists x, x ∈ l /\ P x y.
Proof.
  induction 1 as [|x y' l k Hxy _ IH]; [by intros ?%elem_of_nil|].
  intros [->|Hy]%elem_of_cons.
  - exists x. split; [left|done].
  - destruct (IH Hy) as (x' & ? & ?). exists x'. split; [by right|done].
Qed.

Lemma always_gen_payments its os :
  Forall2 order_ok (seqZ 1 NUM_ORDERS) os ->
  always (gen_payments its os) (fun pays => Forall2 (pay_ok (order_totals its)) os pays).
Proof.
  intros Hos. unfold gen_payments.
  eapply always_bind; [|intros s Hs; apply always_ret; exact Hs].
  apply (always_fold_list _ (fun pre s => Forall2 (pay_ok (order_totals its)) pre s.1)).
  - constructor.
  - intros pre o s Ho Hpre.
    destruct (Forall2_elem_of_r _ _ _ _ Hos Ho) as (i & _ & Hi).
    eapply always_mono; [by eapply always_add_payment|].
    intros s' (p & -> & Hp). apply Forall2_app; [done|]. by constructor.
Qed.

Lemma Qsum_snoc (l : list Q) (t : Q) : Qsum (l ++ [t]) = (Qsum l + t)%Q.
Proof. unfold Qsum. by rewrite foldl_app. Qed.

Lemma order_totals_lookup its k :
  let l := filter (fun it => gi_order_id it = k) its in
  (l = [] -> order_totals its !! k = None) /\
  (l <> [] -> order_totals its !! k = Some (Qsum (gen_line_total <$> l))).
Proof.
  unfold order_totals. induction its as [|it its [IH1 IH2]] using rev_ind; [done|].
  cbv zeta in *. rewrite foldl_app, filter_app. cbn [foldl].
  destruct (decide (gi_order_id it = k)) as [E|E].
  - rewrite E, lookup_insert_eq, filter_cons_True, filter_nil by done.
    split; [by intros [_ ?]%app_eq_nil|]. intros _.
    rewrite fmap_app. change (gen_line_total <$> [it]) with [gen_line_total it].
    rewrite Qsum_snoc.
    destruct (filter (fun it => gi_order_id it = k) its) as [|x l] eqn:Ef.
    + by rewrite IH1.
    + by rewrite IH2.
  - rewrite lookup_insert_ne, filter_cons_False, filter_nil, app_nil_r by done.
    done.
Qed.

Lemma filter_unique_key {A} (f : A -> Z) (l : list A) x :
  NoDup (f <$> l) -> x ∈ l -> filter (fun y => f y = f x) l = [x].
Proof.
  induction l as [|y l IH]; [by intros _ ?%elem_of_nil|].
  rewrite fmap_cons, NoDup_cons. intros [Hy Hnd] [->|Hx]%elem_of_cons.
  - rewrite filter_cons_True by done. f_equal.
    apply elem_of_nil_inv. intros z [Hz Hin]%list_elem_of_filter.
    apply Hy. rewrite <- Hz. by apply list_elem_of_fmap_2.
  - rewrite filter_cons_False; [by apply IH|].
    intros E. apply Hy. rewrite E. by apply list_elem_of_fmap_2.
Qed.

Lemma always_generate : always generate generated_ok.
Proof.
  unfold generate.
  eapply always_bind; [apply always_gen_customers|]; intros cs Hcs.
  eapply always_bind; [apply always_gen_products|]; intros ps Hps.
  eapply always_bind; [apply always_gen_orders|]; intros os Hos.
  eapply always_bind; [by apply always_gen_order_items|]; intros its [Hits Hhas].
  eapply always_bind; [by apply always_gen_payments|]; intros pays Hpays.
  apply always_ret. done.
Qed.

Lemma order_ids d :
  generated_ok d -> go_order_id <$> ds_orders d = seqZ 1 NUM_ORDERS.
Proof.
  intros (_ & _ & Hos & _). apply Forall2_fmap_eq.
  eapply Forall2_impl; [exact Hos|]. by intros i o [? _].
Qed.

Lemma payment_order_ids d :
  generated_ok d -> gy_order_id <$> ds_payments d = go_order_id <$> ds_orders d.
Proof.
  intros (_ & _ & _ & _ & _ & Hp).
  induction Hp as [|o p os ps [E _] _ IH]; csimpl; congruence.
Qed.

(** C6. Whatever the random draws, the script ends without an exception
    and its data is referentially consistent: every order's customer id is
    between 1 and 100 and is the id of a generated customer, every order
    item's order id and product id are ids of a generated order and
    product, and every payment's order id is the id of a generated
    order. *)
Theorem generated_data_consistent (g : rng) :
  exists d g', generate g = Ok (d, g') /\
    Forall (fun o => 1 <= go_customer_id o <= 100 /\
                     go_customer_id o ∈ gc_customer_id <$> ds_customers d)
           (ds_orders d) /\
    Forall (fun it => gi_order_id it ∈ go_order_id <$> ds_orders d /\
                      gi_product_id it ∈ gp_product_id <$> ds_products d)
           (ds_order_items d) /\
    Forall (fun p => gy_order_id p ∈ go_order_id <$> ds_orders d) (ds_payments d).
Proof.
  destruct (always_generate g) as (d & g' & E & Hd). exists d, g'.
  split; [done|]. pose proof (payment_order_ids d Hd) as Hpo.
  destruct Hd as (Hcs & Hps & Hos & Hits & Hhas & Hpays). split; [|split].
  - apply Forall_forall. intros o Ho.
    destruct (Forall2_elem_of_r _ _ _ _ Hos Ho) as (i & _ & _ & Hc & _).
    split; [done|]. rewrite Hcs. apply elem_of_seqZ.
    unfold NUM_CUSTOMERS in *. lia.
  - done.
  - apply Forall_forall. intros p Hp. rewrite <- Hpo. by apply list_elem_of_fmap_2.
Qed.

(** C9. Whatever the random draws, every generated order has exactly one
    payment; its amount is the sum of quantity times price over the order's
    items rounded to 2 decimals, and its date is on or after the order
    date, at most 7 days later and not after 2007-12-31. *)
Theorem generated_payments_match (g : rng) :
  exists d g', generate g = Ok (d, g') /\ Forall (payment_matches_order d) (ds_orders d).
Proof.
  destruct (always_generate g) as (d & g' & E & Hd). exists d, g'.
  split; [done|]. pose proof (payment_order_ids d Hd) as Hpo.
  pose proof (order_ids d Hd) as Hoids.
  destruct Hd as (Hcs & Hps & Hos & Hits & Hhas & Hpays).
  apply Forall_forall. intros o Ho.
  apply list_elem_of_lookup in Ho as [i Hi].
  destruct (Forall2_lookup_l _ _ _ _ _ Hpays Hi) as (p & Hp & Hid & Hamt & Hdate).
  exists p. split; [|split; [|done]].
  - unfold payments_of_order. rewrite <- Hid. apply filter_unique_key.
    + rewrite Hpo, Hoids. apply NoDup_seqZ.
    + by eapply list_elem_of_lookup_2.
  - apply Hamt. apply order_totals_lookup.
    rewrite Forall_forall in Hhas.
    destruct (Hhas o) as (it & Hit & Hoid); [by eapply list_elem_of_lookup_2|].
    intros Hnil.
    assert (it ∈ filter (fun it => gi_order_id it = go_order_id o) (ds_order_items d))
      as Hf by (apply list_elem_of_filter; split; assumption).
    rewrite Hnil in Hf. by apply elem_of_nil in Hf.
Qed.
End GenerateFacts.

(** ** The theorems at concrete inputs *)

Lemma date_parsing_fallback_witness :
  parse_date (Some "03/07/2006") = Ok (Date 2006 3 7) /\
  parse_date (Some "2006-03-07") = Ok (Date 2006 3 7) /\
  parse_date (Some "7 March 2006") = Raise ValueError /\
  run_ingest (fun _ => None) (fun _ => None) csv_bad_order_date empty_db = empty_db.
Proof.
  split; [|split; [|split]].
  - apply (proj1 (date_parsing_fallback (fun _ => None) (fun _ => None) "03/07/2006")).
    reflexivity.
  - apply (proj1 (proj2 (date_parsing_fallback (fun _ => None) (fun _ => None)
                           "2006-03-07"))); reflexivity.
  - apply (proj2 (proj2 (date_parsing_fallback (fun _ => None) (fun _ => None)
                           "7 March 2006")) eq_refl eq_refl).
  - destruct (proj2 (proj2 (date_parsing_fallback (fun _ => None) (fun _ => None)
                              "7 March 2006")) eq_refl eq_refl) as (_ & _ & _ & H).
    apply (H csv_bad_order_date empty_db {[ "order_date" := Some "7 March 2006" ]}).
    left. split; [left|reflexivity].
Defined.

Lemma trend_queries_agree_witness :
  fst <$> Simple.query db_two_months = Compatible.query db_two_months.
Proof. apply trend_queries_agree. vm_compute. auto. Defined.


Lemma unpaid_order_is_mismatch_witness :
  exists r, r ∈ Reconcile.query db_unpaid /\ Reconcile.rr_order_id r = 1 /\
            Reconcile.status_check r = Reconcile.MISMATCH /\
            Reconcile.difference r = None.
Proof.
  destruct (unpaid_order_is_mismatch db_unpaid 1 (Order 1 (Date 2006 1 5) None)
              eq_refl eq_refl) as [(r & Hr & Hk) [Hall _]].
  exists r. destruct (Hall r Hr Hk) as (_ & Hs & Hd & _). auto.
Defined.

(** ** Further properties of the scripts *)

Lemma digit_val_digit_char n : digit_val (digit_char n) = Some (n mod 10).
Proof.
  unfold digit_char. pose proof (Z.mod_pos_bound n 10 ltac:(lia)) as H.
  set (r := n mod 10) in *.
  assert (r = 0 \/ r = 1 \/ r = 2 \/ r = 3 \/ r = 4 \/ r = 5 \/ r = 6 \/ r = 7 \/
          r = 8 \/ r = 9) as Hr by lia.
  destruct Hr as [->|[->|[->|[->|[->|[->|[->|[->|[->| ->]]]]]]]]]; reflexivity.
Qed.

Lemma digit_char_not_sep n c :
  digit_val c = None -> Ascii.eqb (digit_char n) c = false.
Proof.
  intros Hc. apply Ascii.eqb_neq. intros E.
  rewrite <- E, digit_val_digit_char in Hc. discriminate.
Qed.

Lemma split_on_cons_ne sep c s :
  Ascii.eqb c sep = false ->
  split_on sep (String c s) =
  match split_on sep s with
  | [] => [String c EmptyString]
  | t :: ts => String c t :: ts
  end.
Proof. intros H. simpl. by rewrite H. Qed.

Lemma split_on_cons_eq sep s :
  split_on sep (String sep s) = EmptyString :: split_on sep s.
Proof. simpl. by rewrite Ascii.eqb_refl. Qed.

Lemma parse_Y_pad4 y : 0 <= y <= 9999 -> parse_Y (pad4 y) = Some y.
Proof.
  intros Hy. unfold parse_Y, pad4, pad2. rewrite !digit_val_digit_char.
  f_equal. Z.div_mod_to_equations. lia.
Qed.

Lemma parse_m_pad2 m : 1 <= m <= 12 -> parse_m (pad2 m) = Some m.
Proof.
  intros Hm.
  assert (forallb (fun m => bool_decide (parse_m (pad2 m) = Some m)) (seqZ 1 12) = true)
    as H by (by vm_compute).
  rewrite forallb_forall in H. eapply bool_decide_eq_true_1, H, list_elem_of_In, elem_of_seqZ.
  lia.
Qed.

Lemma parse_d_pad2 d : 1 <= d <= 31 -> parse_d (pad2 d) = Some d.
Proof.
  intros Hd.
  assert (forallb (fun d => bool_decide (parse_d (pad2 d) = Some d)) (seqZ 1 31) = true)
    as H by (by vm_compute).
  rewrite forallb_forall in H. eapply bool_decide_eq_true_1, H, list_elem_of_In, elem_of_seqZ.
  lia.
Qed.

Lemma valid_date_bounds d :
  valid_date d = true ->
  1 <= d_year d <= 9999 /\ 1 <= d_month d <= 12 /\ 1 <= d_day d <= 31.
Proof.
  unfold valid_date. rewrite !andb_true_iff, !Z.leb_le.
  intros [[[[[? ?] ?] ?] ?] Hd].
  assert (days_in_month (d_year d) (d_month d) <= 31).
  { unfold days_in_month. repeat case_match; lia. }
  lia.
Qed.

Lemma split_on_lacks sep t : lacks sep t = true -> split_on sep t = [t].
Proof.
  induction t as [|c t IH]; [done|]. cbn [lacks].
  intros [Hc Ht]%andb_true_iff. apply negb_true_iff in Hc.
  rewrite split_on_cons_ne, IH by done. done.
Qed.

Lemma split_on_app sep t s :
  lacks sep t = true ->
  split_on sep (t +:+ String sep s) = t :: split_on sep s.
Proof.
  induction t as [|c t IH]; cbn [lacks String.append].
  - intros _. apply split_on_cons_eq.
  - intros [Hc Ht]%andb_true_iff. apply negb_true_iff in Hc.
    change (String c t +:+ String sep s) with (String c (t +:+ String sep s)).
    rewrite split_on_cons_ne, IH by done. done.
Qed.

Lemma lacks_pad2 sep n : digit_val sep = None -> lacks sep (pad2 n) = true.
Proof.
  intros H. unfold pad2. cbn [lacks]. by rewrite !digit_char_not_sep.
Qed.

Lemma lacks_pad4 sep n : digit_val sep = None -> lacks sep (pad4 n) = true.
Proof.
  intros H. unfold pad4. cbn [lacks]. by rewrite !digit_char_not_sep, lacks_pad2.
Qed.

Lemma lacks_app sep t s : lacks sep (t +:+ s) = lacks sep t && lacks sep s.
Proof.
  induction t as [|c t IH]; [done|].
  change (String c t +:+ s) with (String c (t +:+ s)). cbn [lacks].
  by rewrite IH, andb_assoc.
Qed.

Lemma split_slash_mdY d :
  split_on "/" (strftime_mdY d) = [pad2 (d_month d); pad2 (d_day d); pad4 (d_year d)].
Proof.
  unfold strftime_mdY.
  change ("/" +:+ pad2 (d_day d) +:+ "/" +:+ pad4 (d_year d))
    with (String "/" (pad2 (d_day d) +:+ String "/" (pad4 (d_year d)))).
  rewrite !split_on_app by (by apply lacks_pad2).
  by rewrite split_on_lacks by (by apply lacks_pad4).
Qed.

Lemma split_dash_iso d :
  split_on "-" (isoformat d) = [pad4 (d_year d); pad2 (d_month d); pad2 (d_day d)].
Proof.
  unfold isoformat.
  change ("-" +:+ pad2 (d_month d) +:+ "-" +:+ pad2 (d_day d))
    with (String "-" (pad2 (d_month d) +:+ String "-" (pad2 (d_day d)))).
  rewrite split_on_app by (by apply lacks_pad4).
  rewrite split_on_app by (by apply lacks_pad2).
  by rewrite split_on_lacks by (by apply lacks_pad2).
Qed.

Lemma split_slash_iso d : split_on "/" (isoformat d) = [isoformat d].
Proof.
  apply split_on_lacks. unfold isoformat.
  rewrite !lacks_app, lacks_pad4, !lacks_pad2 by done. done.
Qed.

(** X1. A valid date written as YYYY-MM-DD, the form the import stores,
    is read back as the same date by the YYYY-MM-DD parser and by the
    import's two-step date conversion; written as MM/DD/YYYY, the form
    the generator writes (years of four digits), it is read back as the
    same date by the import. *)
Theorem stored_dates_parse_back (d : date) :
  valid_date d = true ->
  strptime_Ymd (isoformat d) = Some d /\
  parse_date (Some (isoformat d)) = Ok d /\
  (1000 <= d_year d -> parse_date (Some (strftime_mdY d)) = Ok d).
Proof.
  intros Hv. destruct (valid_date_bounds d Hv) as (Hy & Hm & Hd).
  assert (strptime_Ymd (isoformat d) = Some d) as Hiso.
  { unfold strptime_Ymd. rewrite split_dash_iso, parse_Y_pad4, parse_m_pad2, parse_d_pad2 by lia.
    unfold make_date.
    replace (Date (d_year d) (d_month d) (d_day d)) with d by (by destruct d).
    by rewrite Hv. }
  split; [done|]. split.
  - unfold parse_date, strptime_mdY. rewrite split_slash_iso. by rewrite Hiso.
  - intros _. unfold parse_date, strptime_mdY.
    rewrite split_slash_mdY, parse_Y_pad4, parse_m_pad2, parse_d_pad2 by lia.
    unfold make_date.
    replace (Date (d_year d) (d_month d) (d_day d)) with d by (by destruct d).
    by rewrite Hv.
Qed.

Lemma digit_not_dash a x : digit_val a = Some x -> negb (Ascii.eqb a "-") = true.
Proof.
  intros H. apply negb_true_iff, Ascii.eqb_neq. intros ->. discriminate.
Qed.

Lemma parse_m_lacks_dash t m : parse_m t = Some m -> lacks "-" t = true.
Proof.
  unfold parse_m. destruct t as [|a [|b [|c t]]]; try done; cbn [lacks].
  - destruct (digit_val a) eqn:Ea; [|done]. intros _. by rewrite (digit_not_dash _ _ Ea).
  - destruct (digit_val a) eqn:Ea; [|done].
    destruct (digit_val b) eqn:Eb; [|by repeat case_match].
    intros _. by rewrite (digit_not_dash _ _ Ea), (digit_not_dash _ _ Eb).
Qed.

Lemma parse_d_lacks_dash t d : parse_d t = Some d -> lacks "-" t = true.
Proof.
  unfold parse_d. destruct t as [|a [|b [|c t]]]; try done; cbn [lacks].
  - destruct (digit_val a) eqn:Ea; [|done]. intros _. by rewrite (digit_not_dash _ _ Ea).
  - destruct (Ascii.eqb a " ") eqn:Es.
    + apply Ascii.eqb_eq in Es. subst a.
      destruct (digit_val b) eqn:Eb; [|done]. intros _.
      by rewrite (digit_not_dash _ _ Eb).
    + destruct (digit_val a) eqn:Ea; [|done].
      destruct (digit_val b) eqn:Eb; [|by repeat case_match].
      intros _. by rewrite (digit_not_dash _ _ Ea), (digit_not_dash _ _ Eb).
Qed.

Lemma parse_Y_lacks_dash t y : parse_Y t = Some y -> lacks "-" t = true.
Proof.
  unfold parse_Y. destruct t as [|a [|b [|c [|e [|? ?]]]]]; try done; cbn [lacks].
  destruct (digit_val a) eqn:Ea; [|done].
  destruct (digit_val b) eqn:Eb; [|done].
  destruct (digit_val c) eqn:Ec; [|done].
  destruct (digit_val e) eqn:Ee; [|done]. intros _.
  by rewrite (digit_not_dash _ _ Ea), (digit_not_dash _ _ Eb),
    (digit_not_dash _ _ Ec), (digit_not_dash _ _ Ee).
Qed.

(** A text is its pieces joined by the separator. *)
Lemma split_on_three sep s a b c :
  split_on sep s = [a; b; c] -> s = a +:+ String sep (b +:+ String sep c).
Proof.
  assert (forall s, split_on sep s <> []) as Hne.
  { intros t. destruct t as [|x t]; [done|]. simpl.
    destruct (Ascii.eqb x sep); [done|]. by destruct (split_on sep t). }
  assert (forall s t, split_on sep s = [t] -> s = t) as H1.
  { intros t. induction t as [|x t IH]; intros u; simpl.
    - by intros [= <-].
    - destruct (Ascii.eqb x sep) eqn:E.
      + intros [= <- H]. by apply Hne in H.
      + destruct (split_on sep t) as [|v vs] eqn:Et; [by destruct (Hne t)|].
        intros [= <- ->]. by rewrite (IH v). }
  assert (forall s t u, split_on sep s = [t; u] -> s = t +:+ String sep u) as H2.
  { intros t. induction t as [|x t IH]; intros u v; simpl; [done|].
    destruct (Ascii.eqb x sep) eqn:E.
    - apply Ascii.eqb_eq in E. subst x. intros [= <- H]. by rewrite (H1 _ _ H).
    - destruct (split_on sep t) as [|w ws] eqn:Et; [done|].
      intros [= <- ->]. by rewrite (IH w v). }
  revert a b c. induction s as [|x s IH]; intros a b c; simpl; [done|].
  destruct (Ascii.eqb x sep) eqn:E.
  - apply Ascii.eqb_eq in E. subst x. intros [= <- H]. by rewrite (H2 _ _ _ H).
  - destruct (split_on sep s) as [|w ws] eqn:Et; [done|].
    intros [= <- ->]. by rewrite (IH w b c).
Qed.

(** X2. No text is a date in both formats: whatever parses as
    MM/DD/YYYY does not parse as YYYY-MM-DD, so the order of the two
    attempts of the import never changes the date that is stored. *)
Theorem date_formats_exclusive (s : string) (d : date) :
  strptime_mdY s = Some d -> strptime_Ymd s = None.
Proof.
  unfold strptime_mdY. destruct (split_on "/" s) as [|tm [|td [|ty [|? ?]]]] eqn:E; try done.
  destruct (parse_m tm) as [m|] eqn:Em; [|done].
  destruct (parse_d td) as [dd|] eqn:Ed; [|done].
  destruct (parse_Y ty) as [y|] eqn:Ey; [|done]. intros _.
  apply split_on_three in E. subst s. unfold strptime_Ymd.
  rewrite split_on_lacks; [done|].
  rewrite lacks_app. cbn [lacks]. rewrite lacks_app. cbn [lacks].
  by rewrite (parse_m_lacks_dash _ _ Em), (parse_d_lacks_dash _ _ Ed),
    (parse_Y_lacks_dash _ _ Ey).
Qed.

Lemma stored_dates_parse_back_witness :
  parse_date (Some "2006-03-07") = Ok (Date 2006 3 7) /\
  parse_date (Some "03/07/2006") = Ok (Date 2006 3 7).
Proof.
  destruct (stored_dates_parse_back (Date 2006 3 7) eq_refl) as (_ & H1 & H2).
  split; [exact H1|]. apply H2. simpl. lia.
Defined.

Lemma date_formats_exclusive_witness : strptime_Ymd "03/07/2006" = None.
Proof. exact (date_formats_exclusive "03/07/2006" (Date 2006 3 7) eq_refl). Defined.

Section ReportFacts.
Import Reconcile Report.

Lemma print_each_fails {A B} (f : A -> printed B) l x e :
  (forall y e', f y = Fails e' -> e' = e) ->
  x ∈ l -> f x = Fails e -> print_each f l = Fails e.
Proof.
  intros Hall. induction l as [|y l IH]; [by intros ?%elem_of_nil|].
  intros [->|Hin]%elem_of_cons Hx; simpl.
  - by rewrite Hx.
  - destruct (f y) as [b|e'] eqn:E; simpl.
    + by rewrite (IH Hin Hx).
    + by rewrite (Hall _ _ E).
Qed.

Lemma print_each_done {A B} (f : A -> printed B) l :
  (forall x, x ∈ l -> exists y, f x = Done y) -> exists ys, print_each f l = Done ys.
Proof.
  induction l as [|x l IH]; intros H; simpl; [by eexists|].
  destruct (H x) as [y ->]; [left|]. simpl.
  destruct IH as [ys ->]; [intros; apply H; by right|]. by eexists.
Qed.

Lemma query_empty db : orders db = ∅ -> query db = [].
Proof.
  intros H. unfold query, joined. rewrite H, map_to_list_empty. done.
Qed.

(** Every order has a result row. *)
Lemma order_has_row db k o :
  orders db !! k = Some o -> exists r, r ∈ query db /\ rr_order_id r = k.
Proof.
  intros Ho.
  assert (exists row, row ∈ joined db /\ (j_order row).1 = k) as (row & Hrow & Hk).
  { destruct (items_of db k) as [|oi l] eqn:Ei, (payments_of db k) as [|p l'] eqn:Ep.
    - exists ((k, o), None, None). split; [|done]. apply elem_of_reconcile_joined.
      simpl. rewrite Ei, Ep. split; [by apply elem_of_map_to_list|]. by split; left.
    - exists ((k, o), None, Some p). split; [|done]. apply elem_of_reconcile_joined.
      simpl. rewrite Ei, Ep. split; [by apply elem_of_map_to_list|]. by split; left.
    - exists ((k, o), Some oi, None). split; [|done]. apply elem_of_reconcile_joined.
      simpl. rewrite Ei, Ep. split; [by apply elem_of_map_to_list|]. by split; left.
    - exists ((k, o), Some oi, Some p). split; [|done]. apply elem_of_reconcile_joined.
      simpl. rewrite Ei, Ep. split; [by apply elem_of_map_to_list|]. by split; left. }
  destruct (nub_by_covers same_group _ _ same_group_refl same_group_trans Hrow)
    as (rep & Hrep & Hsame).
  exists (group_result (joined db) rep). split.
  - apply elem_of_query. by exists rep.
  - simpl. unfold same_group in Hsame.
    apply andb_true_iff in Hsame as [Hid%Z.eqb_eq _]. congruence.
Qed.

(** The rows with a NULL difference are those of the orders without a
    payment. *)
Lemma row_difference db r :
  r ∈ query db ->
  (difference r = None <-> payments_of db (rr_order_id r) = []) /\
  is_Some (orders db !! rr_order_id r).
Proof.
  intros (rep & Hrep%nub_by_subset & ->)%elem_of_query.
  destruct rep as [[[k o] oi] p].
  apply elem_of_reconcile_joined in Hrep as (Ho & _ & Hp). simpl in *.
  apply elem_of_map_to_list in Ho. split; [|by eexists].
  unfold abs_difference, j_amount, j_payment, j_order. simpl.
  apply elem_of_or_null in Hp. destruct p as [p|]; simpl.
  - split; [done|]. intros E. rewrite E in Hp. by apply elem_of_nil in Hp.
  - done.
Qed.

(** X4. What the payment check prints: with no order it stops with a
    division by zero; with an order that has no payment it stops with a
    TypeError while it prints the detailed results; otherwise it runs to
    its end.  So whenever it reaches the section on orders without
    payments, that section is empty. *)
Theorem report_outcome (db : Db) :
  (orders db = ∅ -> report db = Fails ZeroDivisionError) /\
  (orders db <> ∅ ->
   (exists k o, orders db !! k = Some o /\ payments_of db k = []) ->
   report db = Fails FormatTypeError) /\
  (orders db <> ∅ ->
   (forall k o, orders db !! k = Some o -> payments_of db k <> []) ->
   exists out, report db = Done out /\ out_no_payment out = []) /\
  (forall out, report db = Done out -> no_payment db = []).
Proof.
  assert (orders db <> ∅ -> (total_orders (query db) =? 0) = false) as Htot.
  { intros Hne. apply Z.eqb_neq. unfold total_orders.
    destruct (map_choose _ Hne) as (k & o & Ho).
    destruct (order_has_row db k o Ho) as (r & Hr & _).
    destruct (query db); [by apply elem_of_nil in Hr|]. simpl. lia. }
  assert ((exists k o, orders db !! k = Some o /\ payments_of db k = []) ->
          orders db <> ∅ -> report db = Fails FormatTypeError) as Hunpaid.
  { intros (k & o & Ho & Hp) Hne. unfold report, percent_of. rewrite (Htot Hne). simpl.
    destruct (order_has_row db k o Ho) as (r & Hr & Hk).
    assert (difference r = None) as Hd.
    { apply (row_difference db r Hr). by rewrite Hk. }
    rewrite (print_each_fails detail (query db) r FormatTypeError); [done| |done|].
    - intros y e'. unfold detail. by destruct (difference y); intros [= <-].
    - unfold detail. by rewrite Hd. }
  assert ((forall k o, orders db !! k = Some o -> payments_of db k <> []) ->
          no_payment db = []) as Hnone.
  { intros Hall. apply elem_of_nil_inv. intros [k t] Hin.
    assert (k ∈ (no_payment db).*1) as Hk by (by apply (list_elem_of_fmap_2 fst) in Hin).
    apply elem_of_no_payment in Hk as [[o Ho] Hp]. by apply (Hall k o). }
  split; [|split; [|split]].
  - intros H. unfold report. rewrite (query_empty db H). done.
  - intros Hne H. by apply Hunpaid.
  - intros Hne Hall. unfold report, percent_of. rewrite (Htot Hne). simpl.
    assert (forall r, r ∈ query db -> is_Some (difference r)) as Hsome.
    { intros r Hr. destruct (row_difference db r Hr) as [Hd [o Ho]].
      destruct (difference r) eqn:E; [by eexists|].
      exfalso. apply (Hall _ _ Ho). by apply Hd. }
    destruct (print_each_done detail (query db)) as [ds ->].
    { intros r Hr. unfold detail. destruct (Hsome r Hr) as [d ->]. by eexists. }
    simpl.
    assert (exists ms, (if 0 <? mismatching (query db)
                        then print_each mismatch_detail (mismatches (query db))
                        else Done []) = Done ms) as [ms ->].
    { destruct (0 <? _); [|by eexists]. apply print_each_done.
      intros r [_ Hr]%list_elem_of_filter. unfold mismatch_detail.
      destruct (Hsome r Hr) as [d ->]. by eexists. }
    simpl. eexists. split; [done|]. simpl. by apply Hnone.
  - intros out Hout. destruct (decide (orders db = ∅)) as [He|Hne].
    + exfalso. unfold report in Hout. by rewrite (query_empty db He) in Hout.
    + apply Hnone. intros k o Ho Hp.
      rewrite Hunpaid in Hout; [done| |done]. by exists k, o.
Qed.
End ReportFacts.

Lemma report_outcome_witness :
  Report.report db_unpaid = Fails FormatTypeError /\
  Report.report empty_db = Fails ZeroDivisionError.
Proof.
  split.
  - apply (proj1 (proj2 (report_outcome db_unpaid))).
    + intros H.
      assert (orders db_unpaid !! 1 = None) as E by (rewrite H; apply lookup_empty).
      vm_compute in E. discriminate E.
    + exists 1, (Order 1 (Date 2006 1 5) None). split; reflexivity.
  - apply (proj1 (report_outcome empty_db)). reflexivity.
Defined.

Lemma Qmake_100 (n : Z) : (Qmake n 100 == inject_Z n * (1 # 100))%Q.
Proof. unfold Qeq, Qmult, inject_Z. simpl. lia. Qed.

(** [round(x, 2)] moves a number by at most half a hundredth. *)
Lemma py_round2_close (x : Q) : (Qabs (py_round2 x - x) <= 1 # 200)%Q.
Proof.
  unfold py_round2.
  pose proof (Qfloor_le (x * 100)) as H1.
  pose proof (Qlt_floor (x * 100)) as H2.
  set (n := Qfloor (x * 100)) in *. clearbody n.
  rewrite inject_Z_plus in H2. change (inject_Z 1) with 1%Q in H2.
  apply Qabs_Qle_condition.
  destruct (Qcompare_spec (x * 100 - inject_Z n) (1 # 2)) as [E|E|E].
  - destruct (Z.even n); rewrite Qmake_100, ?inject_Z_plus;
      change (inject_Z 1) with 1%Q; split; lra.
  - rewrite Qmake_100. split; lra.
  - rewrite Qmake_100, inject_Z_plus. change (inject_Z 1) with 1%Q. split; lra.
Qed.

Lemma sql_round2_wd (x y : Q) : (x == y)%Q -> sql_round2 x = sql_round2 y.
Proof.
  intros E. unfold sql_round2.
  assert (Qle_bool 0 x = Qle_bool 0 y) as ->.
  { apply eq_true_iff_eq. rewrite !Qle_bool_iff. by rewrite E. }
  assert (Qfloor (Qabs x * 100 + (1 # 2)) = Qfloor (Qabs y * 100 + (1 # 2))) as ->; [|done].
  apply Qfloor_comp. by rewrite E.
Qed.

Lemma Qgtb_false (x y : Q) : Qgtb x y = false <-> (x <= y)%Q.
Proof. unfold Qgtb. by rewrite negb_false_iff, Qle_bool_iff. Qed.

Lemma Qltb_false (x y : Q) : Qltb x y = false <-> (y <= x)%Q.
Proof. unfold Qltb. by rewrite negb_false_iff, Qle_bool_iff. Qed.






Section SimpleReportFacts.
Import SimpleReport.



End SimpleReportFacts.











Section SimpleSummaryFacts.
Import SimpleReport.






End SimpleSummaryFacts.


(** Summing group by group is summing everything. *)
Lemma Qsum_zeros {K} (ks : list K) : (Qsum ((fun _ => 0%Q) <$> ks) == 0)%Q.
Proof.
  induction ks as [|k ks IH]; [done|].
  rewrite fmap_cons, Qsum_cons, IH. ring.
Qed.

Lemma Qsum_fmap_ext {K} (f g : K -> Q) (ks : list K) :
  (forall k, k ∈ ks -> (f k == g k)%Q) -> (Qsum (f <$> ks) == Qsum (g <$> ks))%Q.
Proof.
  induction ks as [|k ks IH]; intros H; [done|].
  rewrite !fmap_cons, !Qsum_cons, IH.
  - rewrite (H k) by left. done.
  - intros k' Hk'. apply H. by right.
Qed.

Lemma Qsum_one_key {K} `{EqDecision K} (k0 : K) (v : Q) (g : K -> Q) (ks : list K) :
  NoDup ks -> k0 ∈ ks ->
  (Qsum ((fun k => if decide (k0 = k) then v + g k else g k) <$> ks)
   == v + Qsum (g <$> ks))%Q.
Proof.
  induction 1 as [|k ks Hk Hnd IH]; intros Hin; [by apply elem_of_nil in Hin|].
  rewrite !fmap_cons, !Qsum_cons.
  destruct (decide (k0 = k)) as [->|Hne].
  - rewrite (Qsum_fmap_ext _ g).
    + ring.
    + intros k' Hk'. destruct (decide (k = k')) as [->|]; [done|]. reflexivity.
  - apply elem_of_cons in Hin as [?|Hin]; [done|]. rewrite IH by done. ring.
Qed.

Lemma Qsum_groups {A K} `{EqDecision K} (key : A -> K) (f : A -> Q)
    (l : list A) (ks : list K) :
  NoDup ks -> (forall x, x ∈ l -> key x ∈ ks) ->
  (Qsum ((fun k => Qsum (f <$> filter (fun r => key r = k) l)) <$> ks)
   == Qsum (f <$> l))%Q.
Proof.
  intros Hnd. induction l as [|x l IH]; intros Hin.
  - simpl. apply Qsum_zeros.
  - rewrite fmap_cons, Qsum_cons, <- IH by (intros y Hy; apply Hin; by right).
    rewrite <- (Qsum_one_key (key x) (f x)) by (try done; apply Hin; by left).
    apply Qsum_fmap_ext. intros k _.
    destruct (decide (key x = k)) as [E|E].
    + rewrite filter_cons_True by done. by rewrite fmap_cons, Qsum_cons.
    + rewrite filter_cons_False by done. reflexivity.
Qed.

(** The joined rows, projected on their order item, are the items that
    have a parent order. *)
Lemma join_rows_items db : snd <$> orders_join_items db ≡ₚ items_with_order db.
Proof.
  apply NoDup_Permutation.
  - apply NoDup_fmap_2_strong; [|apply NoDup_orders_join_items].
    intros [o1 oi1] [o2 oi2] H1 H2. simpl. intros ->.
    apply elem_of_orders_join_items in H1 as (Ho1 & _ & E1).
    apply elem_of_orders_join_items in H2 as (Ho2 & _ & E2).
    destruct o1 as [k1 o1], o2 as [k2 o2]. simpl in *. congruence.
  - apply NoDup_filter, NoDup_map_to_list.
  - intros [j oi]. unfold items_with_order.
    rewrite list_elem_of_fmap, list_elem_of_filter, elem_of_map_to_list. split.
    + intros ([o oi'] & Heq & Hin). simpl in Heq. subst oi'.
      apply elem_of_orders_join_items in Hin as (Ho & Hoi & E). simpl in *.
      split; [|done]. rewrite E. by eexists.
    + simpl. intros [[o Ho] Hoi].
      exists ((oi_order_id oi, o), (j, oi)). split; [done|].
      by apply elem_of_orders_join_items.
Qed.

Lemma monthly_revenue_total db :
  (Qsum (total_revenue <$> monthly_revenue db)
   == Qsum ((fun oi => line_total oi.2) <$> items_with_order db))%Q.
Proof.
  unfold monthly_revenue. rewrite <- list_fmap_compose.
  etrans; [apply (Qsum_groups row_month (fun r => line_total r.2.2))|].
  - apply NoDup_remove_dups.
  - intros x Hx. apply elem_of_remove_dups, list_elem_of_fmap. by exists x.
  - apply Qsum_Permutation. rewrite <- (join_rows_items db).
    by rewrite <- list_fmap_compose.
Qed.

Lemma monthly_revenue_nil db : monthly_revenue db = [] <-> items_with_order db = [].
Proof.
  unfold monthly_revenue. split.
  - intros H%fmap_nil_inv. apply Permutation_nil_r. rewrite <- join_rows_items.
    destruct (orders_join_items db) as [|r l]; [done|].
    assert (row_month r ∈ remove_dups (row_month <$> r :: l)) as Hin.
    { apply elem_of_remove_dups. rewrite fmap_cons. by left. }
    rewrite H in Hin. by apply elem_of_nil in Hin.
  - intros H. pose proof (join_rows_items db) as Hp. rewrite H in Hp.
    apply Permutation_nil_r in Hp. apply fmap_nil_inv in Hp. by rewrite Hp.
Qed.


Section CompatibleReportFacts.
Import CompatibleReport.

(** X11. The total revenue of the self-join scripts' summary is the sum
    of quantity times price over all order items that have a parent
    order, rounded to 2 decimals; without such an item the total is NULL
    and printing it raises a TypeError. *)
Theorem summary_totals_all_items (db : Db) :
  let s := summary_query db in
  (items_with_order db = [] ->
     total_months s = 0 /\ sm_total_revenue s = None /\
     print_summary db = Fails FormatTypeError) /\
  (items_with_order db <> [] ->
     0 < total_months s /\
     sm_total_revenue s
     = Some (sql_round2 (Qsum ((fun oi => line_total oi.2) <$> items_with_order db))) /\
     exists a b c d, print_summary db
       = Done (total_months s, a, b, c, d,
               Compatible.avg_growth (Compatible.query db))).
Proof.
  intros s. subst s. unfold print_summary, summary_query.
  cbn [total_months sm_total_revenue avg_monthly_revenue min_monthly_revenue
       max_monthly_revenue].
  split.
  - intros H%monthly_revenue_nil. by rewrite H.
  - intros H. pose proof (monthly_revenue_total db) as Ht.
    destruct (monthly_revenue db) as [|r l] eqn:E.
    { by apply monthly_revenue_nil in E. }
    rewrite fmap_cons. split; [simpl; lia|]. split.
    + simpl. f_equal. apply sql_round2_wd. by rewrite <- Ht, fmap_cons.
    + simpl. by eexists _, _, _, _.
Qed.


End CompatibleReportFacts.

Lemma summary_totals_all_items_witness :
  CompatibleReport.sm_total_revenue (CompatibleReport.summary_query db_two_months)
  = Some (sql_round2 (Qsum ((fun oi => line_total oi.2)
                              <$> items_with_order db_two_months))).
Proof.
  destruct (proj2 (summary_totals_all_items db_two_months)) as (_ & H & _).
  - intros H. vm_compute in H. discriminate H.
  - exact H.
Defined.


Lemma dates_valid_check (db : Db) :
  forallb (fun kv : Z * order => valid_date (order_date kv.2)) (map_to_list (orders db))
  = true ->
  dates_valid db.
Proof.
  intros H k o Ho. rewrite forallb_forall in H.
  apply (H (k, o)), list_elem_of_In. by apply elem_of_map_to_list.
Qed.

Section WithGraphsFacts.
Import WithGraphs.

Lemma valid_first_of_month y m :
  1 <= y <= 9999 -> 1 <= m <= 12 -> valid_date (Date y m 1) = true.
Proof.
  intros Hy Hm. unfold valid_date.
  change (d_year (Date y m 1)) with y. change (d_month (Date y m 1)) with m.
  change (d_day (Date y m 1)) with 1.
  rewrite !andb_true_iff, !Z.leb_le.
  assert (28 <= days_in_month y m).
  { unfold days_in_month. repeat case_match; lia. }
  lia.
Qed.

Lemma strptime_Ym_strftime d :
  valid_date d = true ->
  strptime_Ym (strftime_Ym d) = Some (Date (d_year d) (d_month d) 1).
Proof.
  intros Hv. destruct (valid_date_bounds d Hv) as (Hy & Hm & _).
  unfold strptime_Ym, strftime_Ym.
  change ("-" +:+ pad2 (d_month d)) with (String "-" (pad2 (d_month d))).
  rewrite split_on_app by (by apply lacks_pad4).
  rewrite split_on_lacks by (by apply lacks_pad2).
  rewrite parse_Y_pad4, parse_m_pad2 by lia.
  unfold make_date. by rewrite valid_first_of_month.
Qed.

Lemma for_each_Ok {A B} (f : A -> result B) (g : A -> B) (l : list A) :
  (forall x, x ∈ l -> f x = Ok (g x)) -> for_each f l = Ok (g <$> l).
Proof.
  induction l as [|x l IH]; intros H; [done|].
  cbn [for_each]. rewrite (H x) by left. simpl.
  rewrite IH; [done|]. intros y Hy. apply H. by right.
Qed.

(** The month of a row of the trend query is the month of an order. *)
Lemma query_month_of_order db r :
  r ∈ Compatible.query db ->
  exists k o, orders db !! k = Some o /\ tr_month r = strftime_Ym (order_date o).
Proof.
  unfold Compatible.query. intros ([m1 om2] & -> & Hin)%list_elem_of_fmap.
  apply elem_of_joined, elem_of_left_join in Hin as [Hm1 _]. simpl.
  assert (month m1 ∈ month <$> monthly_revenue db) as Hm
    by (by apply list_elem_of_fmap_2).
  rewrite month_of_monthly_revenue, elem_of_remove_dups in Hm.
  apply list_elem_of_fmap in Hm as ([[k o] oi] & Hm & Hj).
  apply elem_of_orders_join_items in Hj as (Ho & _ & _).
  by exists k, o.
Qed.

(** X13. The dates of the three forecast points of the chart script, for
    a database of valid order dates whose latest month with revenue is
    month m of year y: the three months after it when m is at most 9;
    a ValueError, the month passed to datetime exceeding 12, when m is 10
    or 11; and three times the first of January of the next year when m
    is 12. *)
Theorem chart_dates_outcome (db : Db) (r : trend_row) :
  dates_valid db ->
  last (Compatible.query db) = Some r ->
  exists y m,
    strptime_Ym (tr_month r) = Some (Date y m 1) /\ 1 <= y <= 9999 /\ 1 <= m <= 12 /\
    (m <= 9 ->
       chart_dates db = Ok [Date y (m + 1) 1; Date y (m + 2) 1; Date y (m + 3) 1]) /\
    (10 <= m <= 11 -> chart_dates db = Raise ValueError) /\
    (m = 12 -> y < 9999 ->
       chart_dates db = Ok [Date (y + 1) 1 1; Date (y + 1) 1 1; Date (y + 1) 1 1]).
Proof.
  intros Hvalid Hlast.
  set (g := fun s => default (Date 0 0 0) (strptime_Ym s)).
  assert (month_dates (tr_month <$> Compatible.query db)
          = Ok (g <$> (tr_month <$> Compatible.query db))) as Hmd.
  { apply for_each_Ok. intros s (r' & -> & Hr')%list_elem_of_fmap.
    destruct (query_month_of_order db r' Hr') as (k & o & Ho & ->).
    unfold g. by rewrite (strptime_Ym_strftime _ (Hvalid k o Ho)). }
  assert (r ∈ Compatible.query db) as Hr.
  { apply last_Some in Hlast as [l' ->]. apply elem_of_app. right. by left. }
  destruct (query_month_of_order db r Hr) as (k & o & Ho & Hm).
  pose proof (Hvalid k o Ho) as Hv.
  destruct (valid_date_bounds _ Hv) as (Hy & Hmm & _).
  exists (d_year (order_date o)), (d_month (order_date o)).
  split; [by rewrite Hm, (strptime_Ym_strftime _ Hv)|]. split; [done|]. split; [done|].
  assert (last (g <$> (tr_month <$> Compatible.query db))
          = Some (Date (d_year (order_date o)) (d_month (order_date o)) 1)) as Hl.
  { rewrite !fmap_last, Hlast. simpl. unfold g.
    by rewrite Hm, (strptime_Ym_strftime _ Hv). }
  unfold chart_dates. rewrite Hmd. cbn [mbind result_bind].
  unfold forecast_dates. rewrite Hl. cbn [for_each].
  change (d_year (Date ?a ?b ?c)) with a. change (d_month (Date ?a ?b ?c)) with b.
  set (y := d_year (order_date o)) in *. set (m := d_month (order_date o)) in *.
  clearbody y m.
  unfold datetime, make_date.
  split; [|split].
  - intros H9. replace (m =? 12) with false by (symmetry; apply Z.eqb_neq; lia).
    by do 3 (rewrite valid_first_of_month by lia; cbn [mbind result_bind]).
  - intros H10. replace (m =? 12) with false by (symmetry; apply Z.eqb_neq; lia).
    rewrite (valid_first_of_month y (m + 1)) by lia. cbn [mbind result_bind].
    assert (valid_date (Date y 13 1) = false) as H13.
    { apply not_true_is_false. intros H%valid_date_bounds. simpl in H. lia. }
    assert (m = 10 \/ m = 11) as [-> | ->] by lia.
    + rewrite (valid_first_of_month y (10 + 2)) by lia. cbn [mbind result_bind].
      change (10 + 3) with 13. by rewrite H13.
    + change (11 + 2) with 13. by rewrite H13.
  - intros -> Hy'. change (12 =? 12) with true. cbv iota.
    rewrite (valid_first_of_month (y + 1) 1) by lia. done.
Qed.
End WithGraphsFacts.

Lemma chart_dates_outcome_witness :
  WithGraphs.chart_dates db_november = Raise ValueError.
Proof.
  assert (exists r, last (Compatible.query db_november) = Some r) as [r Hr]
    by (vm_compute; eexists; reflexivity).
  destruct (chart_dates_outcome db_november r) as (y & m & Hp & _ & _ & _ & H & _).
  - apply dates_valid_check. reflexivity.
  - exact Hr.
  - vm_compute in Hr. injection Hr as <-. vm_compute in Hp.
    injection Hp as <- <-. apply H. lia.
Defined.

Lemma for_each_Ok_inv {A B} (f : A -> result B) (l : list A) ys y :
  for_each f l = Ok ys -> y ∈ ys -> exists x, x ∈ l /\ f x = Ok y.
Proof.
  revert ys. induction l as [|x l IH]; intros ys; simpl.
  - intros [= <-] H. by apply elem_of_nil in H.
  - destruct (f x) as [b|] eqn:E; simpl; [|done].
    destruct (for_each f l) as [bs|]; simpl; [|done].
    intros [= <-] [->|Hy]%elem_of_cons.
    + exists x. split; [left|done].
    + destruct (IH bs eq_refl Hy) as (x' & ? & ?). exists x'. split; [by right|done].
Qed.

Lemma parse_date_valid c d : parse_date c = Ok d -> valid_date d = true.
Proof.
  assert (forall y m dd r, make_date y m dd = Some r -> valid_date r = true) as Hmk.
  { intros y m dd r. unfold make_date. destruct (valid_date _) eqn:E; [|done].
    by intros [= <-]. }
  destruct c as [s|]; [|done]. unfold parse_date.
  destruct (strptime_mdY s) as [d1|] eqn:E1.
  - intros [= <-]. unfold strptime_mdY in E1. repeat case_match; try done.
    by eapply Hmk.
  - destruct (strptime_Ymd s) as [d2|] eqn:E2; [|done].
    intros [= <-]. unfold strptime_Ymd in E2. repeat case_match; try done.
    by eapply Hmk.
Qed.

Lemma insert_all_lookup {R} (kvs : list (Z * R)) (m : gmap Z R) k v :
  insert_all kvs m !! k = Some v -> (k, v) ∈ kvs \/ m !! k = Some v.
Proof.
  unfold insert_all. revert m. induction kvs as [|[k' v'] kvs IH] using rev_ind; intros m.
  - by right.
  - rewrite foldl_app. simpl. destruct (decide (k' = k)) as [->|Hne].
    + rewrite lookup_insert_eq. intros [= <-]. left. apply elem_of_app. right. left.
    + rewrite lookup_insert_ne by done. intros [H|H]%IH; [|by right].
      left. apply elem_of_app. by left.
Qed.

Lemma insert_all_is_Some {R} (kvs : list (Z * R)) (m : gmap Z R) k :
  is_Some (m !! k) -> is_Some (insert_all kvs m !! k).
Proof.
  unfold insert_all. revert m. induction kvs as [|[k' v'] kvs IH]; intros m; [done|].
  simpl. intros H. apply IH. destruct (decide (k' = k)) as [->|Hne].
  - rewrite lookup_insert_eq. by eexists.
  - by rewrite lookup_insert_ne.
Qed.

Section IngestRows.
Context (py_int : string -> option Z) (py_float : string -> option Q).

(** The orders table of a run that commits. *)
Lemma ingest_Ok_orders files db db' :
  ingest py_int py_float files db = Ok db' ->
  exists od os,
    for_each (order_tuple py_int) (orders_csv files) = Ok od /\
    for_each order_values od = Ok os /\
    orders db' = insert_all os (orders db).
Proof.
  unfold ingest.
  destruct (for_each _ (customers_csv files)) as [cd|]; simpl; [|done].
  rewrite executemany_plan.
  destruct (for_each customer_values cd) as [cs|] eqn:E1; simpl; [|done].
  destruct (for_each _ (products_csv files)) as [pd|]; simpl; [|done].
  rewrite executemany_plan.
  destruct (for_each product_values pd) as [ps|] eqn:E2; simpl; [|done].
  destruct (for_each _ (orders_csv files)) as [od|]; simpl; [|done].
  rewrite executemany_plan.
  destruct (for_each order_values od) as [os|] eqn:E3; simpl; [|done].
  destruct (for_each _ (order_items_csv files)) as [oid|]; simpl; [|done].
  rewrite executemany_plan.
  destruct (for_each order_item_values oid) as [ois|] eqn:E4; simpl; [|done].
  destruct (for_each _ (payments_csv files)) as [pyd|]; simpl; [|done].
  rewrite executemany_plan.
  destruct (for_each payment_values pyd) as [pys|] eqn:E5; simpl; [|done].
  intros [= <-]. exists od, os. split; [done|]. split; [done|].
  by rewrite upsert_customers_all, upsert_products_all, upsert_orders_all,
    upsert_order_items_all, upsert_payments_all.
Qed.

Lemma order_tuple_valid row k cid d st :
  order_tuple py_int row = Ok (k, cid, d, st) -> valid_date d = true.
Proof.
  unfold order_tuple.
  destruct (getitem row "order_date") as [c|]; simpl; [|done].
  destruct (parse_date c) as [d'|] eqn:E; simpl; [|done].
  destruct (getitem row "order_id") as [c1|]; simpl; [|done].
  destruct (int_of py_int c1); simpl; [|done].
  destruct (getitem row "customer_id") as [c2|]; simpl; [|done].
  destruct (int_of py_int c2); simpl; [|done].
  destruct (getitem row "status"); simpl; [|done].
  intros [= _ _ <- _]. by eapply parse_date_valid.
Qed.

(** X3. An import that commits deletes no order, and every order of the
    table afterwards either was there before, unchanged, or is the
    conversion of a row of orders.csv; in particular the import keeps
    every order date a valid calendar date. *)
Theorem ingested_orders (files : csv_files) (db db' : Db) :
  ingest py_int py_float files db = Ok db' ->
  (forall k, is_Some (orders db !! k) -> is_Some (orders db' !! k)) /\
  (forall k o, orders db' !! k = Some o ->
     orders db !! k = Some o \/
     exists row, row ∈ orders_csv files /\
       order_tuple py_int row = Ok (k, customer_id o, order_date o, status o)) /\
  (dates_valid db -> dates_valid db').
Proof.
  intros (od & os & Hod & Hos & Hdb)%ingest_Ok_orders.
  assert (forall k o, orders db' !! k = Some o ->
     orders db !! k = Some o \/
     exists row, row ∈ orders_csv files /\
       order_tuple py_int row = Ok (k, customer_id o, order_date o, status o)) as Horigin.
  { intros k o Hk. rewrite Hdb in Hk.
    apply insert_all_lookup in Hk as [Hk|Hk]; [right|by left].
    destruct (for_each_Ok_inv _ _ _ _ Hos Hk) as ([[[k0 cid] d] st] & Ht & Hv).
    destruct (for_each_Ok_inv _ _ _ _ Hod Ht) as (row & Hrow & Hr).
    exists row. split; [done|]. rewrite Hr.
    unfold order_values in Hv.
    destruct (bind_int k0) as [k1|] eqn:Ek; simpl in Hv; [|done].
    destruct (bind_int cid) as [c1|] eqn:Ec; simpl in Hv; [|done].
    injection Hv as <- <-. unfold bind_int in Ek, Ec.
    destruct (_ && _) in Ek; [|done]. destruct (_ && _) in Ec; [|done].
    by injection Ek as <-; injection Ec as <-. }
  split; [|split; [done|]].
  - intros k Hk. rewrite Hdb. by apply insert_all_is_Some.
  - intros Hvalid k o Hk. destruct (Horigin k o Hk) as [Hold|(row & _ & Hrow)].
    + by eapply Hvalid.
    + by eapply order_tuple_valid.
Qed.
End IngestRows.

Lemma ingested_orders_witness :
  exists db',
    ingest (fun s => Some (digits_prefix 0 s)) (fun _ => None) csv_one_order empty_db
    = Ok db' /\
    orders db' !! 7 = Some (Order 3 (Date 2006 11 5) (Some "shipped")) /\
    dates_valid db'.
Proof.
  eexists. split; [reflexivity|]. split; [reflexivity|].
  eapply (ingested_orders (fun s => Some (digits_prefix 0 s)) (fun _ => None)
            csv_one_order empty_db); [reflexivity|].
  intros k o H. change (orders empty_db) with (∅ : gmap Z order) in H.
  by rewrite lookup_empty in H.
Defined.

Section ReconcileReportFacts.
Import Reconcile.

Lemma filter_all {A} (P : A -> Prop) `{forall x, Decision (P x)} (l : list A) :
  Forall P l -> filter P l = l.
Proof.
  induction 1 as [|x l Hx _ IH]; [done|]. by rewrite filter_cons_True, IH.
Qed.

Lemma filter_none {A} (P : A -> Prop) `{forall x, Decision (P x)} (l : list A) :
  Forall (fun x => ~ P x) l -> filter P l = [].
Proof.
  induction 1 as [|x l Hx _ IH]; [done|]. by rewrite filter_cons_False.
Qed.

(** X5. When every order has exactly one payment and its amount is the
    order's item total rounded to 2 decimals, as the generator writes
    it, every order is reported MATCH: no mismatch is counted or listed
    and no order is listed as lacking a payment. *)
Theorem rounded_payments_all_match (db : Db) :
  (forall k o, orders db !! k = Some o ->
     exists p, payments_of db k = [p] /\
               (amount p.2 == py_round2 (order_total_spec db k))%Q) ->
  Forall (fun r => status_check r = MATCH) (query db) /\
  matching (query db) = total_orders (query db) /\
  mismatching (query db) = 0 /\
  mismatches (query db) = [] /\
  no_payment db = [].
Proof.
  intros Hpaid.
  assert (Forall (fun r => status_check r = MATCH) (query db)) as Hall.
  { apply Forall_forall. intros r Hr.
    destruct (row_difference db r Hr) as [_ [o Ho]].
    destruct (Hpaid _ _ Ho) as (p & Hp & Hamt).
    destruct (single_payment_row db _ o p Ho Hp r Hr eq_refl) as (_ & _ & Hm).
    apply Hm. rewrite Hamt, Qabs_Qminus.
    eapply Qle_lt_trans; [apply py_round2_close|]. reflexivity. }
  assert (matching (query db) = total_orders (query db)) as Hmatch.
  { unfold matching, total_orders. by rewrite filter_all. }
  split; [done|]. split; [done|]. split; [unfold mismatching; lia|]. split.
  - unfold mismatches. apply filter_none.
    eapply Forall_impl; [exact Hall|]. intros r Hr. by rewrite Hr.
  - apply elem_of_nil_inv. intros [k t] Hin.
    assert (k ∈ (no_payment db).*1) as Hk by (by apply (list_elem_of_fmap_2 fst) in Hin).
    apply elem_of_no_payment in Hk as [[o Ho] Hp].
    destruct (Hpaid _ _ Ho) as (p & Hp' & _). congruence.
Qed.

(** X6. The list of orders without payments holds each order that has
    no payment exactly once, and no other order, with the sum of
    quantity times price over its items as its total. *)
Theorem unpaid_orders_listed (db : Db) :
  NoDup (no_payment db).*1 /\
  (forall k, k ∈ (no_payment db).*1 <->
             is_Some (orders db !! k) /\ payments_of db k = []) /\
  (forall k t, (k, t) ∈ no_payment db -> (t == order_total_spec db k)%Q).
Proof.
  split; [|split].
  - unfold no_payment. rewrite <- list_fmap_compose.
    match goal with
    | |- NoDup (?f <$> ?l) => replace (f <$> l) with l; [apply NoDup_remove_dups|]
    end.
    rewrite <- (list_fmap_id (remove_dups _)) at 1. by apply list_fmap_ext.
  - apply elem_of_no_payment.
  - intros k t Hin.
    assert (k ∈ (no_payment db).*1) as Hk by (by apply (list_elem_of_fmap_2 fst) in Hin).
    apply elem_of_no_payment in Hk as [[o Ho] Hp].
    unfold no_payment in Hin. apply list_elem_of_fmap in Hin as (k' & [= <- ->] & _).
    unfold sum_items, order_total_spec.
    rewrite coalesce_sql_sum, <- (omap_or_null (fun oi => line_total oi.2)).
    apply Qsum_Permutation, omap_Permutation.
    assert (j_item <$> filter (fun r => (j_order r).1 = k)
                         (filter (fun r => j_payment r = None) (joined db))
            ≡ₚ or_null (items_of db k)) as Hperm;
      [|rewrite <- Hperm; by rewrite <- list_fmap_compose].
    apply NoDup_Permutation.
    + apply NoDup_fmap_2_strong;
        [|apply NoDup_filter, NoDup_filter, NoDup_reconcile_joined].
      intros [[[k1 o1] i1] p1] [[[k2 o2] i2] p2].
      intros [Hk1 [Hp1 H1]%list_elem_of_filter]%list_elem_of_filter.
      intros [Hk2 [Hp2 H2]%list_elem_of_filter]%list_elem_of_filter.
      unfold j_item, j_order, j_payment in *. simpl in *. intros ->. subst.
      apply elem_of_reconcile_joined in H1 as (Ho1%elem_of_map_to_list & _).
      apply elem_of_reconcile_joined in H2 as (Ho2%elem_of_map_to_list & _).
      simpl in *. congruence.
    + apply NoDup_or_null, NoDup_filter, NoDup_map_to_list.
    + intros oi. rewrite list_elem_of_fmap. split.
      * intros ([[[k1 o1] i1] p1] & -> & [Hk1 [Hp1 H1]%list_elem_of_filter]%list_elem_of_filter).
        unfold j_item, j_order in *. simpl in *. subst k1.
        by apply elem_of_reconcile_joined in H1 as (_ & H1 & _).
      * intros Hoi. exists ((k, o), oi, None). split; [done|].
        apply list_elem_of_filter. split; [done|].
        apply list_elem_of_filter. split; [done|].
        apply elem_of_reconcile_joined. simpl. rewrite Hp.
        split; [by apply elem_of_map_to_list|]. split; [done|]. left.
Qed.

(** X7. The list of payments without orders holds, once each, exactly
    the payments whose order id is not the id of an order, with their
    order id and amount. *)
Theorem orphan_payments_listed (db : Db) :
  NoDup (orphan_payments db) /\
  (forall pid oid amt, (pid, oid, amt) ∈ orphan_payments db <->
     exists p, payments db !! pid = Some p /\ p_order_id p = oid /\ amount p = amt /\
               orders db !! oid = None).
Proof.
  split; [|apply elem_of_orphan_payments].
  unfold orphan_payments. apply NoDup_bind.
  - intros [[pid1 p1] o1] [[pid2 p2] o2] y Hin1 Hin2. simpl.
    destruct o1 as [o1|]; [by intros ?%elem_of_nil|].
    destruct o2 as [o2|]; [by intros _ ?%elem_of_nil|].
    intros ->%list_elem_of_singleton [= -> _ _]%list_elem_of_singleton.
    apply list_elem_of_bind in Hin1 as ([q1 r1] & Hb1 & Hq1).
    apply list_elem_of_bind in Hin2 as ([q2 r2] & Hb2 & Hq2).
    apply list_elem_of_bind in Hb1 as (? & [= -> -> _]%list_elem_of_singleton & _).
    apply list_elem_of_bind in Hb2 as (? & [= -> -> _]%list_elem_of_singleton & _).
    apply elem_of_map_to_list in Hq1, Hq2. congruence.
  - intros [[pid p] [o|]] _; simpl; [apply NoDup_nil_2|apply NoDup_singleton].
  - apply NoDup_bind.
    + intros [pid1 p1] [pid2 p2] [q o] _ _.
      intros (? & H1%list_elem_of_singleton & _)%list_elem_of_bind.
      intros (? & H2%list_elem_of_singleton & _)%list_elem_of_bind. congruence.
    + intros p _. apply NoDup_bind.
      * intros o1 o2 y _ _ ->%list_elem_of_singleton [= ->]%list_elem_of_singleton. done.
      * intros o _. apply NoDup_singleton.
      * apply NoDup_or_null, NoDup_filter, NoDup_map_to_list.
    + apply NoDup_map_to_list.
Qed.
End ReconcileReportFacts.

Lemma rounded_payments_all_match_witness :
  Forall (fun r => Reconcile.status_check r = Reconcile.MATCH) (Reconcile.query db_paid) /\
  Reconcile.mismatching (Reconcile.query db_paid) = 0.
Proof.
  destruct (rounded_payments_all_match db_paid) as (H1 & _ & H2 & _); [|by split].
  intros k o Ho.
  assert (k = 1) as ->.
  { destruct (decide (k = 1)) as [|Hne]; [done|].
    unfold db_paid in Ho. simpl in Ho.
    by rewrite lookup_insert_ne, lookup_empty in Ho. }
  exists (1, Payment (15 # 2) 1 None (Date 2006 1 5)). split; reflexivity.
Defined.

Lemma unpaid_orders_listed_witness : 1 ∈ (Reconcile.no_payment db_unpaid).*1.
Proof.
  apply (proj1 (proj2 (unpaid_orders_listed db_unpaid))).
  split; [eexists|]; reflexivity.
Defined.

Lemma orphan_payments_listed_witness :
  (1, 9, 5%Q) ∈ Reconcile.orphan_payments db_orphan.
Proof.
  apply (proj2 (orphan_payments_listed db_orphan)).
  exists (Payment 5 9 None (Date 2006 1 5)). repeat split; reflexivity.
Defined.

(** [round(x, 2)] stays between two hundredths that enclose [x]. *)
Lemma py_round2_lower (lo : Z) (x : Q) :
  (Qmake lo 100 <= x)%Q -> (Qmake lo 100 <= py_round2 x)%Q.
Proof.
  intros Hx. unfold py_round2.
  assert (lo <= Qfloor (x * 100)) as Hn.
  { rewrite <- (Qfloor_Z lo). apply Qfloor_resp_le.
    rewrite Qmake_100 in Hx. lra. }
  set (n := Qfloor (x * 100)) in *. clearbody n.
  assert (forall a b : Z, a <= b -> (Qmake a 100 <= Qmake b 100)%Q) as Hmk.
  { intros a b Hab. unfold Qle. cbn [Qnum Qden]. lia. }
  destruct (_ ?= _)%Q; [destruct (Z.even n)| |]; apply Hmk; lia.
Qed.

Lemma py_round2_upper (hi : Z) (x : Q) :
  (x <= Qmake hi 100)%Q -> (py_round2 x <= Qmake hi 100)%Q.
Proof.
  intros Hx. unfold py_round2.
  pose proof (Qfloor_le (x * 100)) as H1.
  assert (Qfloor (x * 100) <= hi) as Hn.
  { rewrite <- (Qfloor_Z hi). apply Qfloor_resp_le.
    rewrite Qmake_100 in Hx. lra. }
  set (n := Qfloor (x * 100)) in *. clearbody n.
  assert (forall a b : Z, a <= b -> (Qmake a 100 <= Qmake b 100)%Q) as Hmk.
  { intros a b Hab. unfold Qle. cbn [Qnum Qden]. lia. }
  assert (n = hi -> (x * 100 - inject_Z n <= 0)%Q) as Heq.
  { intros ->. rewrite Qmake_100 in Hx. lra. }
  destruct (Qcompare_spec (x * 100 - inject_Z n) (1 # 2)) as [E|E|E].
  - destruct (Z.even n); apply Hmk; [lia|].
    destruct (decide (n = hi)) as [H|H]; [|lia]. specialize (Heq H). lra.
  - apply Hmk. lia.
  - apply Hmk. destruct (decide (n = hi)) as [H|H]; [|lia]. specialize (Heq H). lra.
Qed.

Section GenerateDetailFacts.
Import Generate GenerateSpec GenerateDetail.

Lemma always_random : always random (fun u => (0 <= u < 1)%Q).
Proof.
  eapply always_bind; [apply always_next_number|]. intros n _. apply always_ret.
  pose proof (Z.mod_pos_bound n (2 ^ 53) ltac:(lia)) as H.
  change (Z.pos (2 ^ 53)) with (2 ^ 53) in *.
  generalize dependent (n mod 2 ^ 53). intros r Hr.
  unfold Qle, Qlt. cbn [Qnum Qden]. 
  change (Z.pos (2 ^ 53)) with (2 ^ 53). lia.
Qed.

Lemma always_uniform_range (a b : Q) :
  (a <= b)%Q -> always (uniform a b) (fun x => (a <= x <= b)%Q).
Proof.
  intros Hab. eapply always_bind; [apply always_random|]. intros u Hu.
  apply always_ret. cbv beta in Hu.
  assert (0 <= (b - a) * u)%Q as H1 by (apply Qmult_le_0_compat; lra).
  assert (0 <= (b - a) * (1 - u))%Q as H2 by (apply Qmult_le_0_compat; lra).
  lra.
Qed.

Lemma always_gen_products_detail :
  always gen_products (Forall2 product_ok (seqZ 1 NUM_PRODUCTS)).
Proof.
  apply always_for_list. intros i _.
  eapply always_bind; [apply always_fake_text|]; intros name _.
  eapply always_bind; [by apply always_choice|]; intros cat Hcat.
  eapply always_bind; [by apply (always_uniform_range 10 1000)|]; intros u Hu.
  apply always_ret. split; [done|]. split; [done|]. cbn [gp_price]. cbv beta in Hu.
  split.
  - apply (Qle_trans _ (Qmake 1000 100)); [done|]. apply py_round2_lower.
    apply (Qle_trans _ 10); [done|]. apply Hu.
  - apply (Qle_trans _ (Qmake 100000 100)); [|done]. apply py_round2_upper.
    apply (Qle_trans _ 1000); [apply Hu|done].
Qed.

Lemma always_gen_orders_detail :
  always gen_orders (Forall2 order_detail (seqZ 1 NUM_ORDERS)).
Proof.
  apply always_for_list. intros i _.
  eapply always_bind; [by apply always_date_between|]; intros d (n & Hn & ->).
  eapply always_bind; [by apply always_randint|]; intros cid Hcid.
  eapply always_bind; [by apply always_choice|]; intros st Hst.
  apply always_ret. split; [|done]. split; [done|]. split; [done|]. by exists n.
Qed.

Lemma NoDup_delete_lookup {A} (l : list A) i x :
  NoDup l -> l !! i = Some x -> NoDup (delete i l) /\ x ∉ delete i l.
Proof.
  intros Hnd Hx. rewrite delete_take_drop.
  rewrite <- (take_drop_middle l i x Hx) in Hnd.
  apply NoDup_app in Hnd as (H1 & H2 & H3). apply NoDup_cons in H3 as [H3 H4].
  split.
  - apply NoDup_app. split; [done|]. split; [|done].
    intros y Hy Hy'. apply (H2 y Hy). by right.
  - intros [Hin|Hin]%elem_of_app; [|done]. apply (H2 x Hin). left.
Qed.

Lemma always_sample_NoDup pool k :
  NoDup pool -> (k <= length pool)%nat ->
  always (sample pool k)
    (fun xs => length xs = k /\ NoDup xs /\ forall x, x ∈ xs -> x ∈ pool).
Proof.
  revert pool. induction k as [|k IH]; intros pool Hnd Hk; simpl.
  - apply always_ret. split; [done|]. split; [constructor|]. by intros x ?%elem_of_nil.
  - eapply always_bind; [apply always_next_number|]. intros n _. simpl.
    set (i := Z.to_nat (n mod Z.of_nat (length pool))).
    assert (i < length pool)%nat as Hi.
    { pose proof (Z.mod_pos_bound n (Z.of_nat (length pool))). lia. }
    destruct (lookup_lt_is_Some_2 pool i Hi) as [x Hx]. rewrite Hx.
    destruct (NoDup_delete_lookup pool i x Hnd Hx) as [Hnd' Hnot].
    eapply always_bind.
    + apply IH; [done|]. rewrite length_delete by done. lia.
    + intros rest (Hlen & Hrest & Hsub). apply always_ret.
      split; [simpl; lia|]. split.
      * apply NoDup_cons. split; [|done]. intros Hin. by apply Hnot, Hsub.
      * intros y [->|Hy]%elem_of_cons; [by eapply list_elem_of_lookup_2|].
        apply Hsub in Hy. by eapply list_elem_of_delete_inv.
Qed.

Lemma always_add_item_detail prices o s pid base :
  prices !! pid = Some base -> (0 <= base)%Q ->
  always (add_item prices o s pid)
    (fun s' => exists it, s'.1 = s.1 ++ [it] /\ s'.2 = s.2 + 1 /\
       gi_item_id it = s.2 /\ gi_product_id it = pid /\ item_ok prices o it).
Proof.
  intros Hbase Hpos. unfold add_item.
  eapply always_bind; [by apply always_randint|]; intros q Hq.
  rewrite Hbase.
  eapply always_bind; [by apply (always_uniform_range (9 # 10) (11 # 10))|].
  intros u Hu. apply always_ret. eexists. split; [reflexivity|].
  split; [reflexivity|]. split; [reflexivity|]. split; [reflexivity|].
  split; [reflexivity|]. split; [exact Hq|]. exists base. split; [exact Hbase|].
  cbn [gi_price]. cbv beta in Hu.
  pose proof (py_round2_close (base * u)) as Hc.
  apply Qabs_Qle_condition in Hc.
  assert (0 <= base * (u - (9 # 10)))%Q as H1 by (apply Qmult_le_0_compat; lra).
  assert (0 <= base * ((11 # 10) - u))%Q as H2 by (apply Qmult_le_0_compat; lra).
  split; lra.
Qed.

Lemma product_prices_elem ps k v :
  product_prices ps !! k = Some v ->
  exists p, p ∈ ps /\ gp_product_id p = k /\ gp_price p = v.
Proof.
  unfold product_prices. induction ps as [|p ps IH] using rev_ind; [done|].
  rewrite foldl_app. simpl. destruct (decide (gp_product_id p = k)) as [E|E].
  - rewrite E, lookup_insert_eq. intros [= <-]. exists p.
    split; [|done]. apply elem_of_app. right. left.
  - rewrite lookup_insert_ne by done. intros (p' & Hp' & H)%IH.
    exists p'. split; [|done]. apply elem_of_app. by left.
Qed.

Lemma product_prices_nonneg ps k :
  Forall2 product_ok (seqZ 1 NUM_PRODUCTS) ps -> k ∈ seqZ 1 NUM_PRODUCTS ->
  exists base, product_prices ps !! k = Some base /\ (0 <= base)%Q.
Proof.
  intros Hps Hk.
  assert (gp_product_id <$> ps = seqZ 1 NUM_PRODUCTS) as Hids.
  { apply Forall2_fmap_eq. eapply Forall2_impl; [exact Hps|]. by intros i p [? _]. }
  destruct (product_prices_is_Some ps k) as [base Hbase]; [by rewrite Hids|].
  exists base. split; [done|].
  destruct (product_prices_elem _ _ _ Hbase) as (p & Hp & _ & <-).
  destruct (Forall2_elem_of_r _ _ _ _ Hps Hp) as (i & _ & _ & _ & Hprice & _).
  apply (Qle_trans _ 10); [done|exact Hprice].
Qed.

Lemma always_add_order_items_detail ps s o :
  Forall2 product_ok (seqZ 1 NUM_PRODUCTS) ps ->
  always (add_order_items (product_prices ps) s o)
    (fun s' => exists new, s'.1 = s.1 ++ new /\
       s'.2 = s.2 + Z.of_nat (length new) /\
       gi_item_id <$> new = seqZ s.2 (Z.of_nat (length new)) /\
       chunk_ok (product_prices ps) o new).
Proof.
  intros Hps. unfold add_order_items.
  eapply always_bind; [by apply always_randint|]; intros num Hnum.
  cbv beta in Hnum. unfold MIN_ITEMS_PER_ORDER, MAX_ITEMS_PER_ORDER in Hnum.
  eapply always_bind.
  { apply always_sample_NoDup; [apply NoDup_seqZ|]. rewrite length_seqZ.
    unfold NUM_PRODUCTS. lia. }
  intros xs (Hlen & Hnd & Hsub).
  eapply always_mono.
  - apply (always_fold_list _ (fun pre s' => exists new, s'.1 = s.1 ++ new /\
             s'.2 = s.2 + Z.of_nat (length new) /\
             gi_item_id <$> new = seqZ s.2 (Z.of_nat (length new)) /\
             gi_product_id <$> new = pre /\
             Forall (item_ok (product_prices ps) o) new)).
    + exists []. rewrite app_nil_r. split; [done|]. split; [simpl; lia|]. done.
    + intros pre pid s' Hpid (new & E & E2 & Hids & Hpre & Hall).
      destruct (product_prices_nonneg ps pid Hps (Hsub _ Hpid)) as (base & Hb & Hpos).
      eapply always_mono; [by eapply always_add_item_detail|].
      intros s'' (it & E' & E2' & Hid & Hp & Hit). exists (new ++ [it]).
      rewrite E', E, <- (assoc_L (++)). split; [done|].
      rewrite length_app. simpl length. split; [lia|]. split; [|split].
      * rewrite fmap_app, Hids. simpl.
        replace (Z.of_nat (length new + 1)) with (Z.of_nat (S (length new))) by lia.
        rewrite seqZ_S. by rewrite Hid, E2.
      * rewrite fmap_app, Hpre. simpl. by rewrite Hp.
      * apply Forall_app. split; [done|]. by apply Forall_singleton.
  - intros s' (new & E & E2 & Hids & Hpre & Hall). exists new.
    split; [done|]. split; [done|]. split; [done|].
    assert (length new = length xs) as Hl by (by rewrite <- Hpre, length_fmap).
    unfold NUM_PRODUCTS in Hlen. split; [lia|]. split; [by rewrite Hpre|done].
Qed.

Lemma always_gen_order_items_detail ps os :
  Forall2 product_ok (seqZ 1 NUM_PRODUCTS) ps ->
  always (gen_order_items ps os) (items_ok (product_prices ps) os).
Proof.
  intros Hps. unfold gen_order_items.
  apply (always_bind _ _ (fun s : list gen_item * Z =>
    s.2 = 1 + Z.of_nat (length s.1) /\ items_ok (product_prices ps) os s.1));
    [|intros s [_ Hs]; by apply always_ret].
  apply (always_fold_list _ (fun pre s =>
    s.2 = 1 + Z.of_nat (length s.1) /\
    items_ok (product_prices ps) pre s.1)).
  - split; [done|]. split; [done|]. exists []. split; [done|]. constructor.
  - intros pre o s Ho (Hnext & Hids & chunks & Hcat & Hchunks).
    eapply always_mono; [by apply always_add_order_items_detail|].
    intros s' (new & -> & -> & Hnew & Hchunk). unfold items_ok.
    rewrite length_app. split; [lia|]. split.
    + rewrite fmap_app, Hids, Hnew, Hnext, Nat2Z.inj_add.
      by rewrite seqZ_app by lia.
    + exists (chunks ++ [new]). split.
      * rewrite concat_app, Hcat. simpl. by rewrite app_nil_r.
      * apply Forall2_app; [done|]. by constructor.
Qed.

Lemma always_add_payment_detail totals s o i :
  order_ok i o ->
  always (add_payment totals s o)
    (fun s' => exists p, s'.1 = s.1 ++ [p] /\ s'.2 = s.2 + 1 /\
       gy_payment_id p = s.2 /\ payment_detail o p).
Proof.
  intros (_ & _ & n & Hn & Hdate). unfold add_payment.
  eapply always_bind; [apply always_uniform|]; intros dflt _.
  rewrite Hdate, strptime_strftime by lia.
  eapply always_bind; [by apply always_randint|]; intros k Hk.
  eapply always_bind; [by apply always_choice|]; intros pm Hpm.
  apply always_ret. eexists. split; [reflexivity|]. split; [reflexivity|].
  split; [reflexivity|]. split; [reflexivity|exact Hpm].
Qed.

Lemma always_gen_payments_detail its os :
  Forall2 order_detail (seqZ 1 NUM_ORDERS) os ->
  always (gen_payments its os)
    (fun pays => Forall2 payment_detail os pays /\
       gy_payment_id <$> pays = seqZ 1 (Z.of_nat (length pays))).
Proof.
  intros Hos. unfold gen_payments.
  apply (always_bind _ _ (fun s : list gen_payment * Z =>
    s.2 = 1 + Z.of_nat (length s.1) /\
    (Forall2 payment_detail os s.1 /\
     gy_payment_id <$> s.1 = seqZ 1 (Z.of_nat (length s.1)))));
    [|intros s [_ Hs]; by apply always_ret].
  apply (always_fold_list _ (fun pre s =>
    s.2 = 1 + Z.of_nat (length s.1) /\
    (Forall2 payment_detail pre s.1 /\
     gy_payment_id <$> s.1 = seqZ 1 (Z.of_nat (length s.1))))).
  - split; [done|]. split; [constructor|done].
  - intros pre o s Ho (Hnext & Hpre & Hids).
    destruct (Forall2_elem_of_r _ _ _ _ Hos Ho) as (i & _ & Hi & _).
    eapply always_mono; [by eapply always_add_payment_detail|].
    intros s' (p & -> & -> & Hid & Hp).
    rewrite length_app. simpl length. split; [lia|]. split.
    + apply Forall2_app; [done|]. by constructor.
    + rewrite fmap_app, Hids. simpl.
      replace (Z.of_nat (length s.1 + 1)) with (Z.of_nat (S (length s.1))) by lia.
      rewrite seqZ_S. by rewrite Hid, Hnext.
Qed.

Lemma always_generate_detail : always generate generated_detail.
Proof.
  unfold generate.
  eapply always_bind; [apply always_gen_customers|]; intros cs Hcs.
  eapply always_bind; [apply always_gen_products_detail|]; intros ps Hps.
  eapply always_bind; [apply always_gen_orders_detail|]; intros os Hos.
  eapply always_bind; [by apply always_gen_order_items_detail|]; intros its Hits.
  eapply always_bind; [by apply always_gen_payments_detail|]; intros pays [Hp1 Hp2].
  apply always_ret. done.
Qed.

Lemma chunks_length prices os chunks :
  Forall2 (chunk_ok prices) os chunks ->
  (length os <= length (concat chunks) <= 5 * length os)%nat.
Proof.
  induction 1 as [|o c os chunks [Hc _] _ IH]; simpl; [lia|].
  rewrite length_app. lia.
Qed.

Lemma chunks_items prices os chunks :
  Forall2 (chunk_ok prices) os chunks ->
  Forall (fun it => exists o, o ∈ os /\ item_ok prices o it) (concat chunks).
Proof.
  induction 1 as [|o c os chunks (_ & _ & Hc) _ IH]; simpl; [constructor|].
  apply Forall_app. split.
  - eapply Forall_impl; [exact Hc|]. intros it Hit. exists o. split; [left|done].
  - eapply Forall_impl; [exact IH|]. intros it (o' & Ho' & Hit).
    exists o'. split; [by right|done].
Qed.

Lemma filter_other_chunks prices os chunks k :
  Forall2 (chunk_ok prices) os chunks -> k ∉ go_order_id <$> os ->
  filter (fun it => gi_order_id it = k) (concat chunks) = [].
Proof.
  induction 1 as [|o c os chunks (_ & _ & Hc) _ IH]; [done|].
  rewrite fmap_cons, not_elem_of_cons. intros [Hne Hk]. simpl.
  rewrite filter_app, IH, app_nil_r by done. apply filter_none.
  eapply Forall_impl; [exact Hc|]. intros it (E & _). congruence.
Qed.

Lemma filter_own_chunk prices os chunks i o c :
  Forall2 (chunk_ok prices) os chunks -> NoDup (go_order_id <$> os) ->
  os !! i = Some o -> chunks !! i = Some c ->
  filter (fun it => gi_order_id it = go_order_id o) (concat chunks) = c.
Proof.
  intros H. revert i. induction H as [|o0 c0 os chunks Hc0 H IH]; intros i; [done|].
  rewrite fmap_cons, NoDup_cons. intros [Hnot Hnd].
  destruct Hc0 as (_ & _ & Hall). destruct i as [|i]; simpl.
  - intros [= ->] [= ->].
    rewrite filter_app, (filter_other_chunks _ _ _ _ H Hnot), app_nil_r.
    apply filter_all. eapply Forall_impl; [exact Hall|]. by intros it [E _].
  - intros Ho Hc. rewrite filter_app, (IH i Hnd Ho Hc).
    rewrite filter_none; [done|].
    eapply Forall_impl; [exact Hall|]. intros it [E _] E'. apply Hnot.
    rewrite <- E, E'. apply list_elem_of_fmap_2. by eapply list_elem_of_lookup_2.
Qed.

Lemma order_detail_ids os :
  Forall2 order_detail (seqZ 1 NUM_ORDERS) os ->
  go_order_id <$> os = seqZ 1 NUM_ORDERS.
Proof.
  intros H. apply Forall2_fmap_eq. eapply Forall2_impl; [exact H|].
  by intros i o [[? _] _].
Qed.

(** X14. Whatever the random draws, the items of the generated data are
    numbered 1, 2, ... in file order; every order has between 1 and 5
    items, on pairwise distinct products, each with a quantity between 1
    and 5; so there are between 200 and 1000 items. *)
Theorem generated_items_shape (g : rng) :
  exists d g', generate g = Ok (d, g') /\
    gi_item_id <$> ds_order_items d
    = seqZ 1 (Z.of_nat (length (ds_order_items d))) /\
    (200 <= length (ds_order_items d) <= 1000)%nat /\
    Forall (fun o =>
              (1 <= length (items_of_order d (go_order_id o)) <= 5)%nat /\
              NoDup (gi_product_id <$> items_of_order d (go_order_id o)) /\
              Forall (fun it => 1 <= gi_quantity it <= 5)
                     (items_of_order d (go_order_id o)))
           (ds_orders d).
Proof.
  destruct (always_generate_detail g) as (d & g' & E & Hd). exists d, g'.
  split; [done|].
  destruct Hd as (_ & _ & Hos & (Hids & chunks & Hcat & Hchunks) & _).
  split; [done|].
  pose proof (Forall2_length _ _ _ Hos) as Hlen.
  rewrite length_seqZ in Hlen. unfold NUM_ORDERS in Hlen.
  split.
  { pose proof (chunks_length _ _ _ Hchunks). rewrite Hcat. lia. }
  assert (NoDup (go_order_id <$> ds_orders d)) as Hnd.
  { rewrite (order_detail_ids _ Hos). apply NoDup_seqZ. }
  apply Forall_lookup. intros i o Ho.
  destruct (Forall2_lookup_l _ _ _ _ _ Hchunks Ho) as (c & Hc & Hlc & Hndc & Hall).
  unfold items_of_order. rewrite Hcat.
  rewrite (filter_own_chunk _ _ _ _ _ _ Hchunks Hnd Ho Hc).
  split; [done|]. split; [done|].
  eapply Forall_impl; [exact Hall|]. by intros it (_ & Hq & _).
Qed.

(** X15. Whatever the random draws, every generated product costs
    between 10 and 1000, and the price of every order item lies within a
    tenth of the catalogue price of its product, up to half a hundredth
    of rounding; so every item price is positive. *)
Theorem generated_prices_in_range (g : rng) :
  exists d g', generate g = Ok (d, g') /\
    Forall (fun p => (10 <= gp_price p <= 1000)%Q) (ds_products d) /\
    Forall (fun it =>
              exists p, p ∈ ds_products d /\
                gp_product_id p = gi_product_id it /\
                (gp_price p * (9 # 10) - (1 # 200) <= gi_price it
                 <= gp_price p * (11 # 10) + (1 # 200))%Q /\
                (0 < gi_price it)%Q)
           (ds_order_items d).
Proof.
  destruct (always_generate_detail g) as (d & g' & E & Hd). exists d, g'.
  split; [done|].
  destruct Hd as (_ & Hps & _ & (_ & chunks & Hcat & Hchunks) & _).
  assert (Forall (fun p => (10 <= gp_price p <= 1000)%Q) (ds_products d)) as Hprices.
  { apply Forall_forall. intros p Hp.
    by destruct (Forall2_elem_of_r _ _ _ _ Hps Hp) as (i & _ & _ & _ & H). }
  split; [done|]. rewrite Hcat.
  eapply Forall_impl; [apply (chunks_items _ _ _ Hchunks)|].
  intros it (o & _ & _ & _ & base & Hbase & Hrange).
  destruct (product_prices_elem _ _ _ Hbase) as (p & Hp & Hid & <-).
  exists p. split; [done|]. split; [done|]. split; [done|].
  rewrite Forall_forall in Hprices. specialize (Hprices p Hp). lra.
Qed.

(** X16. Whatever the random draws, the generator writes 100 customers,
    50 products, 200 orders and 200 payments, the payments numbered 1 to
    200; every category, order status and payment method is one of the
    configured values; and every order date reads back as a day from
    2006-01-01 to 2007-12-31. *)
Theorem generated_counts_and_labels (g : rng) :
  exists d g', generate g = Ok (d, g') /\
    length (ds_customers d) = 100%nat /\ length (ds_products d) = 50%nat /\
    length (ds_orders d) = 200%nat /\ length (ds_payments d) = 200%nat /\
    gy_payment_id <$> ds_payments d = seqZ 1 200 /\
    Forall (fun p => gp_category p ∈ categories) (ds_products d) /\
    Forall (fun o => go_status o ∈ ORDER_STATUSES /\
              exists od, strptime_mdY (go_order_date o) = Some od /\
                toordinal start_date <= toordinal od <= toordinal end_date)
           (ds_orders d) /\
    Forall (fun p => gy_payment_method p ∈ PAYMENT_METHODS) (ds_payments d).
Proof.
  destruct (always_generate_detail g) as (d & g' & E & Hd). exists d, g'.
  split; [done|].
  destruct Hd as (Hcs & Hps & Hos & _ & Hpays & Hpids).
  assert (length (ds_customers d) = 100%nat) as Hlc.
  { rewrite <- (length_fmap gc_customer_id), Hcs, length_seqZ. done. }
  pose proof (Forall2_length _ _ _ Hps) as Hlp. rewrite length_seqZ in Hlp.
  pose proof (Forall2_length _ _ _ Hos) as Hlo. rewrite length_seqZ in Hlo.
  pose proof (Forall2_length _ _ _ Hpays) as Hly.
  unfold NUM_PRODUCTS, NUM_ORDERS in *.
  split; [done|]. split; [lia|]. split; [lia|]. split; [lia|]. split.
  { rewrite Hpids. f_equal. lia. }
  split; [|split].
  - apply Forall_forall. intros p Hp.
    by destruct (Forall2_elem_of_r _ _ _ _ Hps Hp) as (i & _ & _ & H & _).
  - apply Forall_forall. intros o Ho.
    destruct (Forall2_elem_of_r _ _ _ _ Hos Ho)
      as (i & _ & (_ & _ & n & Hn & Hdate) & Hst).
    split; [done|]. exists (fromordinal n).
    rewrite Hdate, strptime_strftime, toordinal_fromordinal by lia.
    split; [reflexivity|exact Hn].
  - apply Forall_forall. intros p Hp.
    assert (exists o, payment_detail o p) as (o & _ & H); [|done].
    clear -Hpays Hp. induction Hpays as [|o p' os ps Hop _ IH].
    + by apply elem_of_nil in Hp.
    + apply elem_of_cons in Hp as [->|Hp]; [by exists o|by apply IH].
Qed.
End GenerateDetailFacts.

(** The month number of a row of [monthly_revenue] is the month of an
    order. *)
Lemma month_num_of_order db m :
  m ∈ monthly_revenue db ->
  exists k o, orders db !! k = Some o /\ month_num m = d_month (order_date o).
Proof.
  unfold monthly_revenue. intros (mm & -> & Hmm)%list_elem_of_fmap.
  apply elem_of_remove_dups, list_elem_of_fmap in Hmm as (r & -> & Hr).
  cbn [month_num group_row].
  destruct (filter (fun r0 => row_month r0 = row_month r) (orders_join_items db))
    as [|[[k o] oi] g] eqn:E.
  - assert (r ∈ filter (fun r0 => row_month r0 = row_month r) (orders_join_items db))
      as Hin by (apply list_elem_of_filter; split; [reflexivity|assumption]).
    rewrite E in Hin. by apply elem_of_nil in Hin.
  - assert (((k, o), oi) ∈ filter (fun r0 => row_month r0 = row_month r)
                              (orders_join_items db)) as Hin by (rewrite E; left).
    apply list_elem_of_filter in Hin as [_ Hin].
    apply elem_of_orders_join_items in Hin as (Ho & _ & _).
    exists k, o. split; [exact Ho|reflexivity].
Qed.

(** X17. In the self-join trend query a month is only ever joined with
    a month of the same year: the second half of the ON clause compares
    the TEXT year with a number and never holds.  So, with valid order
    dates, a January row has no previous month: its previous revenue is
    reported as 0 and its percent change as 0, also when there was
    revenue in December. *)
Theorem january_has_no_previous_month (db : Db) :
  dates_valid db ->
  forall m1 om2, (m1, om2) ∈ Compatible.joined db ->
    (forall m2, om2 = Some m2 ->
       year m2 = year m1 /\ month_num m2 = month_num m1 - 1) /\
    (month_num m1 = 1 ->
       om2 = None /\
       tr_previous_month_revenue (Compatible.select_row (m1, om2)) = sql_round2 0 /\
       tr_percent_change (Compatible.select_row (m1, om2)) = 0%Q).
Proof.
  intros Hvalid m1 om2 Hin.
  apply elem_of_joined, elem_of_left_join in Hin as [Hm1 Hom2].
  assert (forall m2, om2 = Some m2 ->
            year m2 = year m1 /\ month_num m2 = month_num m1 - 1) as Hsame.
  { intros m2 ->. destruct Hom2 as [_ Hon]. by apply join_on_spec. }
  split; [done|]. intros Hjan.
  assert (om2 = None) as ->; [|done].
  destruct om2 as [m2|]; [exfalso|done].
  destruct (Hsame m2 eq_refl) as [_ Hm]. destruct Hom2 as [Hm2 _].
  destruct (month_num_of_order db m2 Hm2) as (k & o & Ho & Hnum).
  pose proof (valid_date_bounds _ (Hvalid k o Ho)). lia.
Qed.


Section IngestCustomers.
Context (py_int : string -> option Z) (py_float : string -> option Q).

Lemma for_each_Ok_elem {A B} (f : A -> result B) (l : list A) ys x :
  for_each f l = Ok ys -> x ∈ l -> exists y, y ∈ ys /\ f x = Ok y.
Proof.
  revert ys. induction l as [|a l IH]; intros ys; simpl.
  - intros _ H. by apply elem_of_nil in H.
  - destruct (f a) as [b|] eqn:E; simpl; [|done].
    destruct (for_each f l) as [bs|]; simpl; [|done].
    intros [= <-] [->|Hx]%elem_of_cons.
    + exists b. split; [left|done].
    + destruct (IH bs eq_refl Hx) as (y & ? & ?). exists y. split; [by right|done].
Qed.

(** X19. A line of customers.csv that lacks the name or the email (a
    short line, read as None) ends the import with an exception, the NOT
    NULL column refusing it, and nothing of the run is committed. *)
Theorem short_customer_line_rejected (files : csv_files) (db : Db) (row : csv_row) :
  row ∈ customers_csv files ->
  row !! "customer_name" = Some None \/ row !! "email" = Some None ->
  (exists e, ingest py_int py_float files db = Raise e) /\
  run_ingest py_int py_float files db = db.
Proof.
  intros Hrow Hnull.
  assert (exists e, ingest py_int py_float files db = Raise e) as [e He].
  { unfold ingest.
    destruct (for_each _ (customers_csv files)) as [cd|] eqn:Ecd; simpl; [|by eexists].
    destruct (for_each_Ok_elem _ _ _ _ Ecd Hrow) as (t & Ht & Htuple).
    assert (exists e, customer_values t = Raise e) as [e' He'].
    { unfold customer_tuple, getitem in Htuple.
      destruct (row !! "customer_id") as [c0|]; simpl in Htuple; [|done].
      destruct (int_of py_int c0) as [cid|]; simpl in Htuple; [|done].
      destruct (row !! "customer_name") as [c1|] eqn:E1; simpl in Htuple; [|done].
      destruct (row !! "email") as [c2|] eqn:E2; simpl in Htuple; [|done].
      destruct (row !! "phone number") as [c3|]; simpl in Htuple; [|done].
      destruct (row !! "city") as [c4|]; simpl in Htuple; [|done].
      destruct (row !! "country") as [c5|]; simpl in Htuple; [|done].
      injection Htuple as <-. unfold customer_values.
      destruct (bind_int cid); simpl; [|by eexists].
      destruct Hnull as [[= ->]|[= ->]]; simpl; [by eexists|].
      destruct c1; simpl; by eexists. }
    rewrite executemany_plan.
    destruct (for_each_raises customer_values cd t e' Ht He') as [e'' ->].
    by eexists. }
  split; [by exists e|]. unfold run_ingest. by rewrite He.
Qed.
End IngestCustomers.

Lemma january_has_no_previous_month_witness :
  exists m1, (m1, None) ∈ Compatible.joined db_year_end /\ month_num m1 = 1.
Proof.
  assert (exists r, last (Compatible.joined db_year_end) = Some r) as [[m1 om2] Hr]
    by (vm_compute; eexists; reflexivity).
  assert ((m1, om2) ∈ Compatible.joined db_year_end) as Hin.
  { apply last_Some in Hr as [l' ->]. apply elem_of_app. right. left. }
  assert (month_num m1 = 1) as Hjan.
  { vm_compute in Hr. by injection Hr as <- _. }
  destruct (january_has_no_previous_month db_year_end) with (m1 := m1) (om2 := om2)
    as [_ H].
  - apply dates_valid_check. reflexivity.
  - exact Hin.
  - destruct (H Hjan) as (-> & _). by exists m1.
Defined.


Lemma short_customer_line_rejected_witness :
  run_ingest (fun s => Some (digits_prefix 0 s)) (fun _ => None)
    csv_short_customer empty_db = empty_db.
Proof.
  apply (short_customer_line_rejected (fun s => Some (digits_prefix 0 s)) (fun _ => None)
           csv_short_customer empty_db
           {[ "customer_id" := Some "1"; "customer_name" := None; "email" := None;
              "phone number" := None; "city" := None; "country" := None ]}).
  - left.
  - left. reflexivity.
Defined.

Section FirstLastTrend.
Import CompatibleReport.

Lemma Qgtb_lt (x y : Q) : Qgtb x y = true <-> (y < x)%Q.
Proof.
  unfold Qgtb. rewrite negb_true_iff. split.
  - intros H. apply Qnot_le_lt. intros Hle. apply Qle_bool_iff in Hle. congruence.
  - intros H. apply not_true_is_false. intros Hle%Qle_bool_iff. lra.
Qed.

Lemma Qmult_pos_sign (c k : Q) :
  (0 < k)%Q ->
  ((0 < c * k)%Q <-> (0 < c)%Q) /\ ((c * k < 0)%Q <-> (c < 0)%Q) /\
  ((c * k == 0)%Q <-> (c == 0)%Q).
Proof.
  intros Hk. destruct (Q_dec c 0) as [[Hlt|Hgt]|Heq].
  - assert (0 < (- c) * k)%Q as H by (apply Qmult_lt_0_compat; lra).
    repeat split; intros; lra.
  - assert (0 < c * k)%Q as H by (apply Qmult_lt_0_compat; lra).
    repeat split; intros; lra.
  - assert (c * k == 0)%Q as H by (rewrite Heq; ring).
    repeat split; intros; lra.
Qed.

Lemma direction_of_sign (s : Q) :
  (direction_of s = PositiveTrend <-> (0 < s)%Q) /\
  (direction_of s = NegativeTrend <-> (s < 0)%Q) /\
  (direction_of s = StableTrend <-> (s == 0)%Q).
Proof.
  unfold direction_of.
  destruct (Qgtb s 0) eqn:E1.
  - apply Qgtb_lt in E1. repeat split; try done; intros; lra.
  - apply Qgtb_false in E1. destruct (Qltb s 0) eqn:E2.
    + apply Qltb_true in E2. repeat split; try done; intros; lra.
    + apply Qltb_false in E2. repeat split; try done; intros; lra.
Qed.

(** X20. The overall trend that the chart script computes in Python
    compares the first and the last month: with at least two months the
    slope is the last month's rounded revenue minus the first month's,
    divided by the number of months minus one, and the direction is
    positive, negative or stable as the last month's rounded revenue is
    above, below or equal to the first month's. *)
Theorem first_last_trend (db : Db) (first_row last_row : trend_row) :
  head (Compatible.query db) = Some first_row ->
  last (Compatible.query db) = Some last_row ->
  (2 <= length (Compatible.query db))%nat ->
  exists slope avg d,
    WithGraphs.overall_trend db = [SlopeLine slope; AverageLine avg; DirectionLine d] /\
    (slope == (tr_monthly_revenue last_row - tr_monthly_revenue first_row)
              / inject_Z (Z.of_nat (length (Compatible.query db)) - 1))%Q /\
    (d = PositiveTrend <->
     (tr_monthly_revenue first_row < tr_monthly_revenue last_row)%Q) /\
    (d = NegativeTrend <->
     (tr_monthly_revenue last_row < tr_monthly_revenue first_row)%Q) /\
    (d = StableTrend <->
     (tr_monthly_revenue last_row == tr_monthly_revenue first_row)%Q).
Proof.
  unfold WithGraphs.overall_trend, fallback_trend.
  destruct (Compatible.query db) as [|x l] eqn:E; [done|].
  intros [= ->] Hlast Hlen. rewrite Hlast. cbn [from_option].
  set (n := Z.of_nat (length (first_row :: l))).
  assert (2 <= n) as Hn by (unfold n; lia).
  replace (1 <? n) with true by (symmetry; apply Z.ltb_lt; lia).
  set (a := tr_monthly_revenue first_row). set (b := tr_monthly_revenue last_row).
  eexists _, _, _. split; [reflexivity|]. split; [reflexivity|].
  assert (0 < inject_Z (n - 1))%Q as Hpos.
  { change 0%Q with (inject_Z 0). rewrite <- Zlt_Qlt. lia. }
  destruct (direction_of_sign ((b - a) / inject_Z (n - 1))) as (Hp & Hn' & Hs).
  rewrite Hp, Hn', Hs. clear Hp Hn' Hs.
  assert (0 < / inject_Z (n - 1))%Q as Hinv by (by apply Qinv_lt_0_compat).
  unfold Qdiv. destruct (Qmult_pos_sign (b - a) _ Hinv) as (H1 & H2 & H3).
  rewrite H1, H2, H3. repeat split; intros; lra.
Qed.
End FirstLastTrend.

Lemma first_last_trend_witness :
  exists slope avg,
    WithGraphs.overall_trend db_decline
    = [CompatibleReport.SlopeLine slope; CompatibleReport.AverageLine avg;
       CompatibleReport.DirectionLine NegativeTrend].
Proof.
  assert (exists r, head (Compatible.query db_decline) = Some r) as [r1 H1]
    by (vm_compute; eexists; reflexivity).
  assert (exists r, last (Compatible.query db_decline) = Some r) as [r2 H2]
    by (vm_compute; eexists; reflexivity).
  destruct (first_last_trend db_decline r1 r2 H1 H2) as (s & a & d & E & _ & _ & Hneg & _).
  - vm_compute. lia.
  - exists s, a. rewrite E.
    assert (d = NegativeTrend) as ->; [|reflexivity]. apply Hneg.
    vm_compute in H1, H2. injection H1 as <-. injection H2 as <-. reflexivity.
Defined.




Global Instance mrow_text_le_total : Total mrow_text_le.
Proof.
  intros a b. unfold mrow_text_le.
  destruct (decide (year a = year b)) as [E|E].
  - destruct (total String.le (pad2 (month_num a)) (pad2 (month_num b))) as [H|H];
      [left|right].
    + split; [rewrite E; reflexivity|intros _; exact H].
    + split; [rewrite E; reflexivity|intros _; exact H].
  - destruct (total String.le (year a) (year b)) as [H|H]; [left|right];
      (split; [exact H|intros E'; congruence]).
Qed.

Global Instance mrow_text_le_trans : Transitive mrow_text_le.
Proof.
  intros a b c [H1 H1'] [H2 H2']. split; [by etrans|].
  intros E.
  assert (year a = year b) as Eab.
  { apply (anti_symm String.le); [done|]. by rewrite E. }
  specialize (H1' Eab). specialize (H2' ltac:(congruence)).
  exact (transitivity H1' H2').
Qed.


Section TextOrder.
Context (db : Db) (Hvalid : dates_valid db).






End TextOrder.


Lemma StronglySorted_filter {A} (R : relation A) (P : A -> Prop)
    `{forall x, Decision (P x)} (l : list A) :
  StronglySorted R l -> StronglySorted R (filter P l).
Proof.
  induction 1 as [|x l Hs IH Hall]; [constructor|].
  destruct (decide (P x)).
  - rewrite filter_cons_True by done. constructor; [done|].
    apply Forall_forall. intros y [_ Hy]%list_elem_of_filter.
    rewrite Forall_forall in Hall. by apply Hall.
  - by rewrite filter_cons_False.
Qed.

(** The representatives that [nub_by] keeps are pairwise apart. *)
Lemma nub_by_apart {A} (eqb : A -> A -> bool) (l : list A) :
  StronglySorted (fun x y => eqb x y = false) (Reconcile.nub_by eqb l).
Proof.
  induction l as [|a l IH]; simpl; [constructor|].
  constructor; [by apply StronglySorted_filter|].
  apply Forall_forall. intros y [Hy _]%list_elem_of_filter.
  by apply negb_prop_elim, Is_true_false in Hy.
Qed.

Lemma StronglySorted_NoDup_fmap {A B} (R : relation A) (f : A -> B) (l : list A) :
  (forall x y, x ∈ l -> y ∈ l -> R x y -> f x <> f y) ->
  StronglySorted R l -> NoDup (f <$> l).
Proof.
  intros H Hs. induction Hs as [|x l Hs IH Hall]; [constructor|].
  rewrite fmap_cons. apply NoDup_cons. split.
  - intros (y & E & Hy)%list_elem_of_fmap. rewrite Forall_forall in Hall.
    apply (H x y); [left|by right|by apply Hall|done].
  - apply IH. intros a b Ha Hb. apply H; by right.
Qed.

Section RowCount.
Import Reconcile.
Context (db : Db).

Lemma query_length :
  length (query db) = length (nub_by same_group (joined db)).
Proof. unfold query. by rewrite merge_sort_Permutation, length_fmap. Qed.

Lemma query_order_ids :
  rr_order_id <$> query db
  ≡ₚ (fun r => (j_order r).1) <$> nub_by same_group (joined db).
Proof.
  unfold query. rewrite merge_sort_Permutation, <- list_fmap_compose. done.
Qed.

Lemma order_id_in_rows k :
  is_Some (orders db !! k) -> k ∈ rr_order_id <$> query db.
Proof.
  intros [o Ho]. destruct (order_has_row db k o Ho) as (r & Hr & <-).
  by apply list_elem_of_fmap_2.
Qed.

(** X22. Total Orders, the number of result rows of the payment check,
    is never below the number of orders, and it is the number of orders
    when no order has more than one payment. *)
Theorem total_orders_counts_groups :
  Z.of_nat (size (orders db)) <= total_orders (query db) /\
  ((forall k, (length (payments_of db k) <= 1)%nat) ->
   total_orders (query db) = Z.of_nat (size (orders db)) /\
   NoDup (rr_order_id <$> query db)).
Proof.
  assert ((map_to_list (orders db)).*1 ⊆+ rr_order_id <$> query db) as Hsub.
  { apply NoDup_submseteq; [apply NoDup_fst_map_to_list|].
    intros k ([k' o] & -> & Ho%elem_of_map_to_list)%list_elem_of_fmap.
    apply order_id_in_rows. by eexists. }
  assert (size (orders db) <= length (query db))%nat as Hle.
  { apply submseteq_length in Hsub.
    by rewrite !length_fmap, length_map_to_list in Hsub. }
  unfold total_orders. split; [lia|]. intros Hone.
  assert (NoDup (rr_order_id <$> query db)) as Hnd.
  { rewrite query_order_ids.
    apply (StronglySorted_NoDup_fmap (fun x y => same_group x y = false));
      [|apply nub_by_apart].
    intros [[[k1 o1] i1] p1] [[[k2 o2] i2] p2] H1%nub_by_subset H2%nub_by_subset.
    unfold same_group, j_order, j_amount, j_payment. simpl. intros Hne ->.
    rewrite Z.eqb_refl in Hne. simpl in Hne.
    apply elem_of_reconcile_joined in H1 as (_ & _ & Hp1).
    apply elem_of_reconcile_joined in H2 as (_ & _ & Hp2). simpl in Hp1, Hp2.
    specialize (Hone k2).
    destruct (payments_of db k2) as [|p [|p' l]]; simpl in Hone; [| |lia].
    - apply list_elem_of_singleton in Hp1, Hp2. by subst.
    - apply list_elem_of_singleton in Hp1, Hp2. subst. simpl in Hne.
      assert (Qeq_bool (amount p.2) (amount p.2) = true) as E
        by (by apply Qeq_bool_iff).
      congruence. }
  split; [|done]. f_equal. apply Nat.le_antisymm; [|done].
  assert (rr_order_id <$> query db ⊆+ (map_to_list (orders db)).*1) as Hsup.
  { apply NoDup_submseteq; [done|]. intros k (r & -> & Hr)%list_elem_of_fmap.
    destruct (row_difference db r Hr) as [_ [o Ho]].
    apply list_elem_of_fmap. exists (rr_order_id r, o).
    split; [done|]. by apply elem_of_map_to_list. }
  apply submseteq_length in Hsup.
  by rewrite !length_fmap, length_map_to_list in Hsup.
Qed.
End RowCount.

Lemma total_orders_counts_groups_witness :
  Reconcile.total_orders (Reconcile.query db_unpaid) = 1.
Proof.
  destruct (proj2 (total_orders_counts_groups db_unpaid)) as [H _].
  - intros k. vm_compute. lia.
  - exact H.
Defined.
